(** * AlgoTradeX: indicators, strategy signals, trade simulator, metrics

    A shallow embedding of
      - [app/utils/indicators.py]          (class [Indicators])
      - [app/services/strategy_engine.py]  (class [StrategyEngine])
      - [app/services/backtest_engine.py]  (class [BacktestEngine])

    Numbers.  The Python code computes on binary floating point.  Here a
    finite float is an exact rational ([Q]); rounding is not modelled.  The
    special values that pandas/numpy produce instead of raising ([nan],
    [+inf], [-inf]) are kept, because the code relies on them (warm-up
    windows, [0/0], [x/0]).  Plain Python [float] division raises
    [ZeroDivisionError] and is modelled in an error monad.

    The one place where rounding decides the outcome is the purchase,
    [int(cash / cost_per_share) * cost_per_share]: on doubles the share
    count can round up and the quotient can overflow.  Module [Doubles]
    keeps the purchase on IEEE binary64, and what is stated about cash
    not going negative, or about [int] not raising, is stated there. *)

From Stdlib Require Import String ZArith QArith Qround Qabs List Bool Lia Lqa.
From Stdlib Require PrimFloat FloatOps SpecFloat.
Import ListNotations.
Open Scope Q_scope.

(** ** Python exceptions *)

Inductive exn : Type :=
| ZeroDivisionError
| TypeError
| KeyError
| IndexError
| ValueError (msg : string).

Inductive result (A : Type) : Type :=
| Ok (a : A)
| Raise (e : exn).
Arguments Ok {A} a.
Arguments Raise {A} e.

Definition bind {A B : Type} (m : result A) (k : A -> result B) : result B :=
  match m with
  | Ok a => k a
  | Raise e => Raise e
  end.

Notation "x <- m ;; k" := (bind m (fun x => k))
  (at level 61, m at next level, right associativity).

(** A loop body run over the rows in order; the first exception aborts. *)
Fixpoint foldM {S R : Type} (f : S -> R -> result S) (s : S) (rows : list R)
  : result S :=
  match rows with
  | [] => Ok s
  | r :: rest => s' <- f s r ;; foldM f s' rest
  end.

(** ** Python floats (finite) *)

Module PyFloat.

Definition Qltb (a b : Q) : bool := negb (Qle_bool b a).

(** [a / b] on Python floats, as the rows of [iterrows] hold them: a zero
    divisor raises. *)
Definition truediv (a b : Q) : result Q :=
  if Qeq_bool b 0 then Raise ZeroDivisionError else Ok (a / b).

(** [int(x)]: truncation toward zero. *)
Definition int (x : Q) : Z :=
  if Qle_bool 0 x then Qfloor x else Qceiling x.

End PyFloat.

(** ** numpy float64 values, as pandas columns hold them *)

Module NumPy.

Inductive fval : Type :=
| Fin (q : Q)
| PInf
| NInf
| NaN.

Definition is_fin (x : fval) : bool :=
  match x with Fin _ => true | _ => false end.

Definition fneg (x : fval) : fval :=
  match x with
  | Fin q => Fin (- q)
  | PInf => NInf
  | NInf => PInf
  | NaN => NaN
  end.

Definition fadd (x y : fval) : fval :=
  match x, y with
  | NaN, _ | _, NaN => NaN
  | Fin a, Fin b => Fin (a + b)
  | PInf, NInf | NInf, PInf => NaN
  | PInf, _ | _, PInf => PInf
  | NInf, _ | _, NInf => NInf
  end.

Definition fsub (x y : fval) : fval := fadd x (fneg y).

(** The infinity a division by zero yields; zero is not signed here and
    counts as [+0].  ([rsi] is the same for a loss of [-0]: [g / -0] is
    [-inf] and [100 - 100 / (1 + -inf)] is again 100.) *)
Definition sign_inf (nonneg : bool) : fval := if nonneg then PInf else NInf.

Definition fmul (x y : fval) : fval :=
  match x, y with
  | NaN, _ | _, NaN => NaN
  | Fin a, Fin b => Fin (a * b)
  | Fin a, PInf | PInf, Fin a =>
      if Qeq_bool a 0 then NaN else sign_inf (Qle_bool 0 a)
  | Fin a, NInf | NInf, Fin a =>
      if Qeq_bool a 0 then NaN else sign_inf (negb (Qle_bool 0 a))
  | PInf, PInf | NInf, NInf => PInf
  | PInf, NInf | NInf, PInf => NInf
  end.

(** IEEE division: [0/0] is [nan], [x/0] is an infinity, [x/inf] is 0. *)
Definition fdiv (x y : fval) : fval :=
  match x, y with
  | NaN, _ | _, NaN => NaN
  | Fin a, Fin b =>
      if Qeq_bool b 0
      then (if Qeq_bool a 0 then NaN else sign_inf (Qle_bool 0 a))
      else Fin (a / b)
  | Fin _, PInf | Fin _, NInf => Fin 0
  | PInf, Fin b => sign_inf (Qle_bool 0 b)
  | NInf, Fin b => sign_inf (negb (Qle_bool 0 b))
  | _, _ => NaN
  end.

Definition fabs (x : fval) : fval :=
  match x with
  | Fin q => Fin (Qabs q)
  | PInf | NInf => PInf
  | NaN => NaN
  end.

(** Comparisons; every comparison with [nan] is [False]. *)
Definition flt (x y : fval) : bool :=
  match x, y with
  | NaN, _ | _, NaN => false
  | Fin a, Fin b => PyFloat.Qltb a b
  | Fin _, PInf => true
  | Fin _, NInf => false
  | PInf, _ => false
  | NInf, NInf => false
  | NInf, _ => true
  end.

Definition fgt (x y : fval) : bool := flt y x.

Definition feqb (x y : fval) : bool :=
  match x, y with
  | Fin a, Fin b => Qeq_bool a b
  | PInf, PInf | NInf, NInf => true
  | _, _ => false
  end.

(** Equality of float values up to the representation of the rational. *)
Definition feq (x y : fval) : Prop :=
  match x, y with
  | Fin a, Fin b => a == b
  | PInf, PInf | NInf, NInf | NaN, NaN => True
  | _, _ => False
  end.

End NumPy.
Import NumPy.

(** ** pandas Series operations used by the code *)

Module Pandas.

Fixpoint map2 {A B C : Type} (f : A -> B -> C) (xs : list A) (ys : list B)
  : list C :=
  match xs, ys with
  | x :: xs', y :: ys' => f x y :: map2 f xs' ys'
  | _, _ => []
  end.

(** [s.diff()]: first element [nan], then [s[i] - s[i-1]]. *)
Definition diff (s : list fval) : list fval :=
  match s with
  | [] => []
  | _ :: t => NaN :: map2 fsub t s
  end.

(** [s.where(s > 0, 0)] and [s.where(s < 0, 0)]. *)
Definition where_pos (s : list fval) : list fval :=
  map (fun d => if fgt d (Fin 0) then d else Fin 0) s.

Definition where_neg (s : list fval) : list fval :=
  map (fun d => if flt d (Fin 0) then d else Fin 0) s.

Definition fin_value (x : fval) : Q :=
  match x with Fin q => q | _ => 0 end.

Definition Qsum (l : list Q) : Q := fold_right Qplus 0 l.

(** Mean of one full window; a window holding a non-finite observation
    has fewer than [min_periods = window] valid ones and yields [nan]. *)
Definition window_mean (w : nat) (win : list fval) : fval :=
  if forallb is_fin win
  then fdiv (Fin (Qsum (map fin_value win))) (Fin (inject_Z (Z.of_nat w)))
  else NaN.

Definition window (w i : nat) (s : list fval) : list fval :=
  firstn w (skipn (S i - w) s).

(** [s.rolling(window=w).mean()]. *)
Definition rolling_mean (w : nat) (s : list fval) : list fval :=
  map (fun i => if (S i <? w)%nat then NaN else window_mean w (window w i s))
      (seq 0 (length s)).

(** [s.ewm(span=span, adjust=False).mean()] on a finite series. *)
Fixpoint ewm_from (alpha prev : Q) (s : list Q) : list Q :=
  match s with
  | [] => []
  | x :: t =>
      let y := (1 - alpha) * prev + alpha * x in
      y :: ewm_from alpha y t
  end.

(** The values of the recursion, seeded by the first observation. *)
Definition ewm_values (span : nat) (s : list Q) : list Q :=
  match s with
  | [] => []
  | x :: t => x :: ewm_from (2 / (inject_Z (Z.of_nat span) + 1)) x t
  end.

(** [s.ewm(span=span, adjust=False)] refuses a span below 1, whatever the
    series holds. *)
Definition ewm_mean (span : nat) (s : list Q) : result (list Q) :=
  if (span <? 1)%nat
  then Raise (ValueError "span must satisfy: span >= 1")
  else Ok (ewm_values span s).

(** [s.cummax()] on a finite series. *)
Fixpoint cummax_from (m : Q) (s : list Q) : list Q :=
  match s with
  | [] => []
  | x :: t => let m' := if Qle_bool m x then x else m in m' :: cummax_from m' t
  end.

Definition cummax (s : list Q) : list Q :=
  match s with
  | [] => []
  | x :: t => x :: cummax_from x t
  end.

(** [s.pct_change()]. *)
Definition pct_change (s : list fval) : list fval :=
  match s with
  | [] => []
  | _ :: t => NaN :: map2 (fun cur prev => fsub (fdiv cur prev) (Fin 1)) t s
  end.

(** Reductions skip [nan]; an empty reduction is [nan]. *)
Definition dropna (s : list fval) : list fval :=
  filter (fun x => match x with NaN => false | _ => true end) s.

Definition fsum (s : list fval) : fval := fold_right fadd (Fin 0) s.

Definition mean (s : list fval) : fval :=
  match dropna s with
  | [] => NaN
  | v => fdiv (fsum v) (Fin (inject_Z (Z.of_nat (length v))))
  end.

(** Sample variance ([ddof = 1]); [nan] with fewer than two observations. *)
Definition var (s : list fval) : fval :=
  match dropna s with
  | [] | [_] => NaN
  | v =>
      let m := fdiv (fsum v) (Fin (inject_Z (Z.of_nat (length v)))) in
      fdiv (fsum (map (fun x => fmul (fsub x m) (fsub x m)) v))
           (Fin (inject_Z (Z.of_nat (length v)) - 1))
  end.

Definition fmin2 (x y : fval) : fval := if flt y x then y else x.

Definition min (s : list fval) : fval :=
  match dropna s with
  | [] => NaN
  | x :: t => fold_left fmin2 t x
  end.

End Pandas.

(** ** [app/utils/indicators.py] *)

Module Indicators.
Import Pandas.

Definition sma (data : list fval) (window : nat) : list fval :=
  rolling_mean window data.

Definition ema (data : list Q) (span : nat) : result (list Q) :=
  ewm_mean span data.

(** Lines 57-61: the rolling means of the gains and of the losses. *)
Definition gain (data : list fval) (period : nat) : list fval :=
  rolling_mean period (where_pos (diff data)).

Definition loss (data : list fval) (period : nat) : list fval :=
  rolling_mean period (map fneg (where_neg (diff data))).

Definition rsi (data : list fval) (period : nat) : list fval :=
  let rs := map2 fdiv (gain data period) (loss data period) in
  map (fun r => fsub (Fin 100) (fdiv (Fin 100) (fadd (Fin 1) r))) rs.

Definition macd (data : list Q) (fast slow signal : nat)
  : result (list Q * list Q * list Q) :=
  ema_fast <- ewm_mean fast data ;;
  ema_slow <- ewm_mean slow data ;;
  let macd_line := map2 Qminus ema_fast ema_slow in
  signal_line <- ewm_mean signal macd_line ;;
  let histogram := map2 Qminus macd_line signal_line in
  Ok (macd_line, signal_line, histogram).

End Indicators.

(** ** [app/services/strategy_engine.py] *)

Module StrategyEngine.
Import Pandas.

(** One OHLCV row of the price DataFrame; [time] in seconds. *)
Record OHLCV : Type := mkOHLCV {
  time : Z;
  open : Q;
  high : Q;
  low : Q;
  close : Q;
  volume : Q
}.

(** The [parameters] dict of a strategy; an absent key is [None]. *)
Record Parameters : Type := mkParameters {
  short_window : option nat;
  long_window : option nat;
  period : option nat;
  oversold : option Q;
  overbought : option Q;
  fast : option nat;
  slow : option nat;
  signal_period : option nat;
  rsi_period : option nat;
  rsi_overbought : option Q
}.

Definition no_parameters : Parameters :=
  mkParameters None None None None None None None None None None.

(** [d.get(key, default)]. *)
Definition get {A : Type} (v : option A) (default : A) : A :=
  match v with
  | Some x => x
  | None => default
  end.

(** A row of the DataFrame returned by [generate_signals]: the columns
    the simulator reads, and the [position] column. *)
Record SignalRow : Type := mkSignalRow {
  row_time : Z;
  row_close : Q;
  position : Z;
  signal : fval
}.

Definition close_series (data : list OHLCV) : list fval :=
  map (fun r => Fin (close r)) data.

Definition Zseries (s : list Z) : list fval :=
  map (fun z => Fin (inject_Z z)) s.

(** [df['signal'] = df['position'].diff()], zipped back onto the rows. *)
Definition with_signal (data : list OHLCV) (pos : list Z) : list SignalRow :=
  map2 (fun r ps => mkSignalRow (time r) (close r) (fst ps) (snd ps))
       data (combine pos (diff (Zseries pos))).

Definition ma_position (sma_short sma_long : fval) : Z :=
  if fgt sma_short sma_long then 1%Z else 0%Z.

Definition _ma_crossover_strategy (parameters : Parameters)
           (data : list OHLCV) : list SignalRow :=
  let short_window := get (short_window parameters) 50%nat in
  let long_window := get (long_window parameters) 200%nat in
  let sma_short := Indicators.sma (close_series data) short_window in
  let sma_long := Indicators.sma (close_series data) long_window in
  with_signal data (map2 ma_position sma_short sma_long).

(** [position = 0], then [1] where [rsi < oversold], then [0] where
    [rsi > overbought], applied in this order. *)
Definition rsi_position (oversold overbought : Q) (rsi : fval) : Z :=
  let p := 0%Z in
  let p := if flt rsi (Fin oversold) then 1%Z else p in
  let p := if fgt rsi (Fin overbought) then 0%Z else p in
  p.

Definition _rsi_strategy (parameters : Parameters)
           (data : list OHLCV) : list SignalRow :=
  let period := get (period parameters) 14%nat in
  let oversold := get (oversold parameters) 30 in
  let overbought := get (overbought parameters) 70 in
  let rsi := Indicators.rsi (close_series data) period in
  with_signal data (map (rsi_position oversold overbought) rsi).

Definition macd_position (macd macd_signal : Q) : Z :=
  if PyFloat.Qltb macd_signal macd then 1%Z else 0%Z.

Definition _macd_strategy (parameters : Parameters)
           (data : list OHLCV) : result (list SignalRow) :=
  let fast := get (fast parameters) 12%nat in
  let slow := get (slow parameters) 26%nat in
  let signal_period := get (signal_period parameters) 9%nat in
  lines <- Indicators.macd (map close data) fast slow signal_period ;;
  let '(macd, macd_signal, _) := lines in
  Ok (with_signal data (map2 macd_position macd macd_signal)).

Definition combined_position (c : (bool * bool) * bool) : Z :=
  let '(ma_bullish, rsi_ok, macd_bullish) := c in
  if ma_bullish && rsi_ok && macd_bullish then 1%Z else 0%Z.

Definition _combined_strategy (parameters : Parameters)
           (data : list OHLCV) : result (list SignalRow) :=
  let short_window := get (short_window parameters) 50%nat in
  let long_window := get (long_window parameters) 200%nat in
  let rsi_period := get (rsi_period parameters) 14%nat in
  let rsi_overbought := get (rsi_overbought parameters) 70 in
  let sma_short := Indicators.sma (close_series data) short_window in
  let sma_long := Indicators.sma (close_series data) long_window in
  let rsi := Indicators.rsi (close_series data) rsi_period in
  lines <- Indicators.macd (map close data) 12%nat 26%nat 9%nat ;;
  let '(macd, macd_signal, _) := lines in
  let ma_bullish := map2 fgt sma_short sma_long in
  let rsi_ok := map (fun r => flt r (Fin rsi_overbought)) rsi in
  let macd_bullish := map2 (fun m s => PyFloat.Qltb s m) macd macd_signal in
  Ok (with_signal data
        (map combined_position
             (combine (combine ma_bullish rsi_ok) macd_bullish))).

Definition generate_signals (strategy_type : string) (parameters : Parameters)
           (data : list OHLCV) : result (list SignalRow) :=
  if String.eqb strategy_type "ma_crossover" then
    Ok (_ma_crossover_strategy parameters data)
  else if String.eqb strategy_type "rsi" then
    Ok (_rsi_strategy parameters data)
  else if String.eqb strategy_type "macd" then
    _macd_strategy parameters data
  else if String.eqb strategy_type "combined" then
    _combined_strategy parameters data
  else Raise (ValueError "Unknown strategy type").

End StrategyEngine.

(** ** [app/services/backtest_engine.py] *)

Module Position.
(** The [current_position] dict. *)
Record t : Type := mk {
  entry_date : Z;
  entry_price : Q;
  quantity : Z;
  transaction_cost : Q
}.
End Position.

Module ExitReason.
Inductive t : Type := signal | stop_loss | end_of_period.
End ExitReason.

Module Trade.
(** One dict of [trades]; [trade_type] is always ['BUY']. *)
Record t : Type := mk {
  entry_date : Z;
  entry_price : Q;
  exit_date : Z;
  exit_price : Q;
  quantity : Z;
  transaction_cost : Q;
  pnl : Q;
  pnl_percentage : Q;
  hold_period_days : Z;
  exit_reason : ExitReason.t
}.
End Trade.

Module PortfolioValue.
(** One dict of [portfolio_values]. *)
Record t : Type := mk {
  time : Z;
  cash : Q;
  holdings : Q;
  total : Q
}.
End PortfolioValue.

Module BacktestEngine.
Import PyFloat.

(** [settings.TRANSACTION_COST_PERCENT], 0.05 unless the environment
    overrides it; [__init__] divides it by 100. *)
Definition TRANSACTION_COST_PERCENT_default : Q := 5 # 100.

Definition init_transaction_cost (TRANSACTION_COST_PERCENT : Q) : Q :=
  TRANSACTION_COST_PERCENT / 100.

(** The [risk_params] dict. *)
Record RiskParams : Type := mkRiskParams {
  position_size : option Q;
  stop_loss : option Q
}.

Definition empty_risk_params : RiskParams := mkRiskParams None None.

(** The local variables of [_simulate_trading]. *)
Record Locals : Type := mkLocals {
  cash : Q;
  shares : Z;
  current_position : option Position.t;
  trades : list Trade.t;
  portfolio_values : list PortfolioValue.t
}.

(** [(t2 - t1).days] for timestamps in seconds. *)
Definition days (dt : Z) : Z := (dt / 86400)%Z.

(** Lines 182-189: the stop-loss check may replace the bar's signal. *)
Definition check_stop_loss (stop_loss : Q) (st : Locals) (signal : fval)
           (current_price : Q) : result fval :=
  match current_position st with
  | Some pos =>
      if Qltb 0 stop_loss then
        loss_pct <- truediv (Position.entry_price pos - current_price)
                            (Position.entry_price pos) ;;
        Ok (if Qle_bool stop_loss loss_pct then Fin (-1) else signal)
      else Ok signal
  | None => Ok signal
  end.

(** Line 239: the label of a sale. *)
Definition sale_reason (stop_loss : Q) (pos : Position.t) (current_price : Q)
  : result ExitReason.t :=
  if Qltb 0 stop_loss then
    loss_pct <- truediv (Position.entry_price pos - current_price)
                        (Position.entry_price pos) ;;
    Ok (if Qle_bool stop_loss loss_pct then ExitReason.stop_loss
        else ExitReason.signal)
  else Ok ExitReason.signal.

(** Lines 192-209: the buy branch, in exact arithmetic.  The share count
    and the debit are not rounded here, and the quotient cannot overflow:
    [Doubles.buy] is the same branch on doubles, where ten shares can cost
    more than the cash and [int] can raise [OverflowError]. *)
Definition buy (transaction_cost position_size : Q) (st : Locals)
           (current_price : Q) (current_time : Z) : result Locals :=
  let capital_to_use := cash st * position_size in
  let cost_per_share := current_price * (1 + transaction_cost) in
  ratio <- truediv capital_to_use cost_per_share ;;
  let shares_to_buy := int ratio in
  if (0 <? shares_to_buy)%Z then
    let total_cost := inject_Z shares_to_buy * cost_per_share in
    Ok {| cash := cash st - total_cost;
          shares := shares_to_buy;
          current_position :=
            Some {| Position.entry_date := current_time;
                    Position.entry_price := current_price;
                    Position.quantity := shares_to_buy;
                    Position.transaction_cost :=
                      total_cost - inject_Z shares_to_buy * current_price |};
          trades := trades st;
          portfolio_values := portfolio_values st |}
  else Ok st.

(** Lines 211-245: the sell branch. *)
Definition sell (transaction_cost stop_loss : Q) (st : Locals)
           (current_price : Q) (current_time : Z) : result Locals :=
  let proceeds_per_share := current_price * (1 - transaction_cost) in
  let total_proceeds := inject_Z (shares st) * proceeds_per_share in
  let exit_cost := inject_Z (shares st) * current_price - total_proceeds in
  match current_position st with
  | None => Raise TypeError
  | Some pos =>
      let entry_value :=
        inject_Z (Position.quantity pos) * Position.entry_price pos in
      let exit_value := inject_Z (shares st) * current_price in
      let total_costs := Position.transaction_cost pos + exit_cost in
      let pnl := (exit_value - entry_value) - total_costs in
      pnl_pct <- truediv pnl entry_value ;;
      let hold_period := days (current_time - Position.entry_date pos) in
      reason <- sale_reason stop_loss pos current_price ;;
      Ok {| cash := cash st + total_proceeds;
            shares := 0;
            current_position := None;
            trades := trades st ++
              [ {| Trade.entry_date := Position.entry_date pos;
                   Trade.entry_price := Position.entry_price pos;
                   Trade.exit_date := current_time;
                   Trade.exit_price := current_price;
                   Trade.quantity := shares st;
                   Trade.transaction_cost := total_costs;
                   Trade.pnl := pnl;
                   Trade.pnl_percentage := pnl_pct;
                   Trade.hold_period_days := hold_period;
                   Trade.exit_reason := reason |} ];
            portfolio_values := portfolio_values st |}
  end.

(** Lines 191-245: [if signal == 1 and shares == 0: ... elif signal == -1
    and shares > 0: ...]. *)
Definition process_signal (transaction_cost position_size stop_loss : Q)
           (st : Locals) (signal : fval) (current_price : Q)
           (current_time : Z) : result Locals :=
  if feqb signal (Fin 1) && (shares st =? 0)%Z then
    buy transaction_cost position_size st current_price current_time
  else if feqb signal (Fin (-1)) && (0 <? shares st)%Z then
    sell transaction_cost stop_loss st current_price current_time
  else Ok st.

(** Lines 247-254: the equity point of the bar. *)
Definition record_portfolio (st : Locals) (current_price : Q)
           (current_time : Z) : Locals :=
  let portfolio_value := cash st + inject_Z (shares st) * current_price in
  {| cash := cash st;
     shares := shares st;
     current_position := current_position st;
     trades := trades st;
     portfolio_values := portfolio_values st ++
       [ {| PortfolioValue.time := current_time;
            PortfolioValue.cash := cash st;
            PortfolioValue.holdings := inject_Z (shares st) * current_price;
            PortfolioValue.total := portfolio_value |} ] |}.

(** One iteration of [for idx, row in df.iterrows()]. *)
Definition step (transaction_cost position_size stop_loss : Q)
           (st : Locals) (row : StrategyEngine.SignalRow) : result Locals :=
  let signal := StrategyEngine.signal row in
  let current_price := StrategyEngine.row_close row in
  let current_time := StrategyEngine.row_time row in
  signal <- check_stop_loss stop_loss st signal current_price ;;
  st' <- process_signal transaction_cost position_size stop_loss st signal
                        current_price current_time ;;
  Ok (record_portfolio st' current_price current_time).

(** Lines 168-175. *)
Definition initial_locals (initial_capital : Q) : Locals :=
  {| cash := initial_capital;
     shares := 0;
     current_position := None;
     trades := [];
     portfolio_values := [] |}.

(** The whole [for] loop, from a given state. *)
Definition run_loop (transaction_cost position_size stop_loss : Q)
           (st : Locals) (df : list StrategyEngine.SignalRow)
  : result Locals :=
  foldM (step transaction_cost position_size stop_loss) st df.

(** [df[...].iloc[-1]]. *)
Definition iloc_last {A : Type} (l : list A) : result A :=
  match rev l with
  | [] => Raise IndexError
  | x :: _ => Ok x
  end.

(** Lines 256-280: [if shares > 0: ...] after the loop. *)
Definition close_open_position (transaction_cost : Q)
           (df : list StrategyEngine.SignalRow) (st : Locals)
  : result Locals :=
  if (0 <? shares st)%Z then
    last_row <- iloc_last df ;;
    let final_price := StrategyEngine.row_close last_row in
    let final_time := StrategyEngine.row_time last_row in
    let proceeds :=
      inject_Z (shares st) * final_price * (1 - transaction_cost) in
    match current_position st with
    | None => Raise TypeError
    | Some pos =>
        let entry_value :=
          inject_Z (Position.quantity pos) * Position.entry_price pos in
        let exit_value := inject_Z (shares st) * final_price in
        let pnl :=
          (exit_value - entry_value) - Position.transaction_cost pos in
        pnl_pct <- truediv pnl entry_value ;;
        Ok {| cash := cash st + proceeds;
              shares := shares st;
              current_position := current_position st;
              trades := trades st ++
                [ {| Trade.entry_date := Position.entry_date pos;
                     Trade.entry_price := Position.entry_price pos;
                     Trade.exit_date := final_time;
                     Trade.exit_price := final_price;
                     Trade.quantity := shares st;
                     Trade.transaction_cost := Position.transaction_cost pos;
                     Trade.pnl := pnl;
                     Trade.pnl_percentage := pnl_pct;
                     Trade.hold_period_days :=
                       days (final_time - Position.entry_date pos);
                     Trade.exit_reason := ExitReason.end_of_period |} ];
              portfolio_values := portfolio_values st |}
    end
  else Ok st.

Definition risk_position_size (risk_params : RiskParams) : Q :=
  StrategyEngine.get (position_size risk_params) (95 # 100).

Definition risk_stop_loss (risk_params : RiskParams) : Q :=
  StrategyEngine.get (stop_loss risk_params) 0.

(** The local variables of [_simulate_trading] when it reaches line 282. *)
Definition simulate_locals (transaction_cost : Q)
           (signals_df : list StrategyEngine.SignalRow)
           (initial_capital : Q) (risk_params : RiskParams)
  : result Locals :=
  let position_size := risk_position_size risk_params in
  let stop_loss := risk_stop_loss risk_params in
  st <- run_loop transaction_cost position_size stop_loss
                 (initial_locals initial_capital) signals_df ;;
  close_open_position transaction_cost signals_df st.

(** [portfolio_df]: the recorded points with the [cummax] and [drawdown]
    columns. *)
Record PortfolioDF : Type := mkPortfolioDF {
  points : list PortfolioValue.t;
  cummax : list Q;
  drawdown : list fval
}.

(** Lines 282-289; a DataFrame built from no rows has no ['total']. *)
Definition build_portfolio_df (portfolio_values : list PortfolioValue.t)
  : result PortfolioDF :=
  match portfolio_values with
  | [] => Raise KeyError
  | _ =>
      let total := map PortfolioValue.total portfolio_values in
      let cm := Pandas.cummax total in
      Ok {| points := portfolio_values;
            cummax := cm;
            drawdown :=
              Pandas.map2 (fun t m => fdiv (Fin (t - m)) (Fin m)) total cm |}
  end.

Definition _simulate_trading (transaction_cost : Q)
           (signals_df : list StrategyEngine.SignalRow)
           (initial_capital : Q) (risk_params : RiskParams)
  : result (PortfolioDF * list Trade.t) :=
  st <- simulate_locals transaction_cost signals_df initial_capital
                        risk_params ;;
  portfolio_df <- build_portfolio_df (portfolio_values st) ;;
  Ok (portfolio_df, trades st).

(** The dict returned by [_calculate_trade_stats]. *)
Record TradeStats : Type := mkTradeStats {
  total_trades : Z;
  winning_trades : Z;
  losing_trades : Z;
  win_rate : Q;
  avg_win : Q;
  avg_loss : Q;
  profit_factor : Q
}.

Definition len {A : Type} (l : list A) : Z := Z.of_nat (length l).

Definition nonempty {A : Type} (l : list A) : bool :=
  match l with [] => false | _ => true end.

Definition _calculate_trade_stats (trades : list Trade.t) : TradeStats :=
  if negb (nonempty trades) then
    {| total_trades := 0; winning_trades := 0; losing_trades := 0;
       win_rate := 0; avg_win := 0; avg_loss := 0; profit_factor := 0 |}
  else
    let winning := filter (fun t => Qltb 0 (Trade.pnl t)) trades in
    let losing := filter (fun t => Qltb (Trade.pnl t) 0) trades in
    let total_wins := Pandas.Qsum (map Trade.pnl winning) in
    let total_losses := Qabs (Pandas.Qsum (map Trade.pnl losing)) in
    {| total_trades := len trades;
       winning_trades := len winning;
       losing_trades := len losing;
       win_rate :=
         if nonempty trades
         then inject_Z (len winning) / inject_Z (len trades) else 0;
       avg_win :=
         if nonempty winning
         then total_wins / inject_Z (len winning) else 0;
       avg_loss :=
         if nonempty losing
         then total_losses / inject_Z (len losing) else 0;
       profit_factor :=
         if Qltb 0 total_losses then total_wins / total_losses else 0 |}.

(** The [metrics] dict. *)
Record Metrics : Type := mkMetrics {
  total_return : fval;
  sharpe_ratio : fval;
  max_drawdown : fval;
  final_value : Q;
  stats : TradeStats
}.

(** [metrics.update(trade_stats)]. *)
Definition update (metrics : Metrics) (trade_stats : TradeStats) : Metrics :=
  {| total_return := total_return metrics;
     sharpe_ratio := sharpe_ratio metrics;
     max_drawdown := max_drawdown metrics;
     final_value := final_value metrics;
     stats := trade_stats |}.

(** Lines 328-339. *)
Definition _calculate_benchmark_return (start_date end_date : Z) : Q :=
  let d := days (end_date - start_date) in
  let years := inject_Z d / (36525 # 100) in
  let annual_return := 12 # 100 in
  annual_return * years.

(** The rows the three queries of [run_backtest] return. *)
Record Strategy : Type := mkStrategy {
  strategy_type : string;
  parameters : StrategyEngine.Parameters;
  risk_params : option RiskParams
}.

Record DB : Type := mkDB {
  query_strategy : Z -> option Strategy;
  query_stock : string -> option Z;
  query_ohlcv : Z -> Z -> Z -> list StrategyEngine.OHLCV
}.

(** The dict returned by [run_backtest] (without the database id and
    the wall-clock time). *)
Record BacktestResult : Type := mkBacktestResult {
  metrics : Metrics;
  benchmark_return : Q;
  alpha : fval;
  result_trades : list Trade.t;
  equity_curve : PortfolioDF
}.

Section WithSqrt.

(** The floating-point square root ([np.sqrt], and the one inside
    [Series.std]); its values are not rational. *)
Variable np_sqrt : fval -> fval.

(** [s.std()]. *)
Definition std (s : list fval) : fval := np_sqrt (Pandas.var s).

(** Line 309. *)
Definition sharpe (mean_return std_return : fval) : fval :=
  if fgt std_return (Fin 0)
  then fmul (fdiv mean_return std_return) (np_sqrt (Fin 252))
  else Fin 0.

Definition _calculate_metrics (portfolio_df : PortfolioDF)
           (initial_capital : Q) : result Metrics :=
  let total := map PortfolioValue.total (points portfolio_df) in
  final_value <- iloc_last total ;;
  let total_return :=
    fdiv (Fin (final_value - initial_capital)) (Fin initial_capital) in
  let returns := Pandas.pct_change (map Fin total) in
  let mean_return := Pandas.mean returns in
  let std_return := std returns in
  let sharpe_ratio := sharpe mean_return std_return in
  let max_drawdown := fabs (Pandas.min (drawdown portfolio_df)) in
  Ok {| total_return := total_return;
        sharpe_ratio := sharpe_ratio;
        max_drawdown := max_drawdown;
        final_value := final_value;
        stats := {| total_trades := 0; winning_trades := 0;
                    losing_trades := 0; win_rate := 0; avg_win := 0;
                    avg_loss := 0; profit_factor := 0 |} |}.

(** Lines 48-94 of [run_backtest]; the writes to the result store that
    follow do not change the returned values. *)
Definition run_backtest (db : DB) (transaction_cost : Q)
           (strategy_id : Z) (stock_symbol : string)
           (start_date end_date : Z) (initial_capital : Q)
  : result BacktestResult :=
  match query_strategy db strategy_id with
  | None => Raise (ValueError "Strategy not found")
  | Some strategy =>
      match query_stock db stock_symbol with
      | None => Raise (ValueError "Stock not found")
      | Some stock_id =>
          let data := query_ohlcv db stock_id start_date end_date in
          if negb (nonempty data) then Raise (ValueError "No data found")
          else
            signals_df <- StrategyEngine.generate_signals
                            (strategy_type strategy) (parameters strategy)
                            data ;;
            sim <- _simulate_trading transaction_cost signals_df
                     initial_capital
                     (StrategyEngine.get (risk_params strategy)
                                         empty_risk_params) ;;
            let '(portfolio_df, trades_list) := sim in
            m <- _calculate_metrics portfolio_df initial_capital ;;
            let m := update m (_calculate_trade_stats trades_list) in
            let benchmark :=
              _calculate_benchmark_return start_date end_date in
            Ok {| metrics := m;
                  benchmark_return := benchmark;
                  alpha := fsub (total_return m) (Fin benchmark);
                  result_trades := trades_list;
                  equity_curve := portfolio_df |}
      end
  end.

End WithSqrt.

End BacktestEngine.

(** ** Predicates of the statements *)

Module Props.
Import BacktestEngine.

(** The open position and the share count agree: a position is held
    exactly while shares are, for as many shares, bought at a price
    that is not zero. *)
Definition consistent (st : Locals) : Prop :=
  match current_position st with
  | Some pos =>
      (0 < shares st)%Z /\ Position.quantity pos = shares st /\
      ~ Position.entry_price pos == 0
  | None => shares st = 0%Z
  end.

(** What one bar may do to cash: nothing, one buy fill or one sell fill,
    each at the bar's close and at the engine's cost rate. *)
Inductive backed_by_fill (transaction_cost price : Q) (st st' : Locals)
  : Prop :=
| no_fill :
    cash st' = cash st -> shares st' = shares st ->
    backed_by_fill transaction_cost price st st'
| buy_fill :
    shares st = 0%Z -> (0 < shares st')%Z ->
    cash st' =
      cash st - inject_Z (shares st') * (price * (1 + transaction_cost)) ->
    backed_by_fill transaction_cost price st st'
| sell_fill :
    (0 < shares st)%Z -> shares st' = 0%Z ->
    cash st' =
      cash st + inject_Z (shares st) * (price * (1 - transaction_cost)) ->
    backed_by_fill transaction_cost price st st'.

(** The equity point the code records for a bar, from the state after
    the bar's fill. *)
Definition equity_point (st : Locals) (row : StrategyEngine.SignalRow)
  : PortfolioValue.t :=
  {| PortfolioValue.time := StrategyEngine.row_time row;
     PortfolioValue.cash := cash st;
     PortfolioValue.holdings :=
       inject_Z (shares st) * StrategyEngine.row_close row;
     PortfolioValue.total :=
       cash st + inject_Z (shares st) * StrategyEngine.row_close row |}.


(** The state a successful purchase of [n] shares leads to. *)
Definition bought (tc : Q) (st : Locals) (p : Q) (t n : Z) : Locals :=
  {| cash := cash st - inject_Z n * (p * (1 + tc));
     shares := n;
     current_position :=
       Some (Position.mk t p n
               (inject_Z n * (p * (1 + tc)) - inject_Z n * p));
     trades := trades st;
     portfolio_values := portfolio_values st |}.

(** A float that is a finite zero. *)
Definition fin0 (x : fval) : Prop := exists q, x = Fin q /\ q == 0.

Definition nan_or_fin0 (x : fval) : Prop := x = NaN \/ fin0 x.

Definition zero_stats : TradeStats :=
  {| total_trades := 0; winning_trades := 0; losing_trades := 0;
     win_rate := 0; avg_win := 0; avg_loss := 0; profit_factor := 0 |}.

End Props.

(** ** Concrete price series *)

Module Scenario.
Import StrategyEngine BacktestEngine.

(** Daily bars with the given closes (open, high and low equal to the
    close, no volume), the first at time 0. *)
Definition daily_bars (closes : list Q) : list OHLCV :=
  map (fun p => mkOHLCV (Z.of_nat (fst p) * 86400) (snd p) (snd p) (snd p)
                        (snd p) 0)
      (combine (seq 0 (length closes)) closes).

(** Rows with given closes and signals, as the simulator reads them. *)
Definition signal_rows (rows : list (Q * fval)) : list SignalRow :=
  map (fun p => mkSignalRow (Z.of_nat (fst p) * 86400) (fst (snd p)) 0
                            (snd (snd p)))
      (combine (seq 0 (length rows)) rows).

(** The five-bar series of the specification's scenario. *)
Definition five_bars : list OHLCV := daily_bars [100; 102; 99; 101; 105].

Definition ma_1_2 : Parameters :=
  mkParameters (Some 1%nat) (Some 2%nat) None None None None None None None
               None.

Definition all_in : RiskParams := mkRiskParams (Some 1) (Some 0).

(** A database holding one strategy (id 1) and one stock. *)
Definition one_strategy_db (s : Strategy) (data : list OHLCV) : DB :=
  {| query_strategy := fun id => if (id =? 1)%Z then Some s else None;
     query_stock := fun sym => if String.eqb sym "TEST.NS" then Some 7%Z
                               else None;
     query_ohlcv := fun id start_date end_date =>
       if (id =? 7)%Z
       then filter (fun r => (start_date <=? time r)%Z
                             && (time r <=? end_date)%Z) data
       else [] |}.

(** A buy on the first bar, held to the end of a two-bar series. *)
Definition buy_and_hold : list SignalRow :=
  signal_rows [(100, Fin 1); (110, Fin 0)].

(** A buy at 100; the bar that follows closes at 94 and carries a buy
    signal. *)
Definition buy_then_drop : list SignalRow :=
  signal_rows [(100, Fin 1)].

Definition drop_row : SignalRow := mkSignalRow 86400 94 1 (Fin 1).

(** Falling closes followed by a partial recovery. *)
Definition falling_bars : list OHLCV :=
  daily_bars [100; 90; 80; 85].

Definition rsi_2 : Parameters :=
  mkParameters None None (Some 2%nat) None None None None None None None.

Definition ma_strategy : Strategy :=
  mkStrategy "ma_crossover" ma_1_2 (Some all_in).

Definition db : DB := one_strategy_db ma_strategy five_bars.

(** A buy on the first bar and a sell signal on the second. *)
Definition round_trip : list SignalRow :=
  signal_rows [(100, Fin 1); (110, Fin (-1))].

(** A rational square root by Newton's iteration, standing for the
    floating-point one where a concrete function is needed. *)
Fixpoint newton (n : nat) (q x : Q) : Q :=
  match n with
  | O => x
  | S n' => newton n' q (Qred ((x + q / x) / 2))
  end.

Definition approx_sqrt (x : fval) : fval :=
  match x with
  | Fin q =>
      if PyFloat.Qltb q 0 then NaN
      else if Qeq_bool q 0 then Fin 0
      else Fin (newton 6 q (Qred ((q + 1) / 2)))
  | PInf => PInf
  | NInf | NaN => NaN
  end.

End Scenario.

(** ** Predicates of the further properties *)

From Stdlib Require Import Sorted.

Module Ledger.
Import StrategyEngine BacktestEngine.

(** What the purchase of the open position took out of cash. *)
Definition open_debit (transaction_cost : Q) (st : Locals) : Q :=
  match current_position st with
  | Some pos =>
      inject_Z (Position.quantity pos) * Position.entry_price pos
      * (1 + transaction_cost)
  | None => 0
  end.

(** The sum of the [pnl] fields of a trade list. *)
Definition realised_pnl (trades : list Trade.t) : Q :=
  Pandas.Qsum (map Trade.pnl trades).

(** The entry cost recorded on the open position is the cost rate
    applied to the entry value. *)
Definition entry_cost_recorded (transaction_cost : Q) (st : Locals) : Prop :=
  match current_position st with
  | Some pos =>
      Position.transaction_cost pos ==
      inject_Z (Position.quantity pos) * Position.entry_price pos
      * transaction_cost
  | None => True
  end.

(** The cost a bar's fill takes out of the equity: the cost rate on the
    value of the shares that changed hands. *)
Definition fill_fee (transaction_cost price : Q) (st st' : Locals) : Q :=
  inject_Z (Z.abs (shares st' - shares st)) * price * transaction_cost.

(** A trade closed inside the loop: shares were held, the exit bar comes
    after the entry bar, and the label is [stop_loss] only under a positive
    [stop_loss] parameter. *)
Definition loop_trade (stop_loss : Q) (t : Trade.t) : Prop :=
  (0 < Trade.quantity t)%Z /\
  (Trade.entry_date t < Trade.exit_date t)%Z /\
  (0 <= Trade.hold_period_days t)%Z /\
  Trade.exit_reason t <> ExitReason.end_of_period /\
  (Trade.exit_reason t = ExitReason.stop_loss -> 0 < stop_loss).

(** The trade of the end-of-period block; its entry may be the last bar
    itself. *)
Definition end_trade (t : Trade.t) : Prop :=
  Trade.exit_reason t = ExitReason.end_of_period /\
  (0 < Trade.quantity t)%Z /\
  (Trade.entry_date t <= Trade.exit_date t)%Z /\
  (0 <= Trade.hold_period_days t)%Z.

(** The entry of the open position precedes every bar still to come, and
    is not after [T]. *)
Definition entered_before (T : Z) (df : list SignalRow) (st : Locals) : Prop :=
  match current_position st with
  | Some pos =>
      (Position.entry_date pos <= T)%Z /\
      Forall (fun r => (Position.entry_date pos < row_time r)%Z) df
  | None => True
  end.

End Ledger.

Module Ranges.

(** A finite float within [lo, hi]. *)
Definition fin_between (lo hi : Q) (x : fval) : Prop :=
  exists q, x = Fin q /\ lo <= q /\ q <= hi.

(** A finite float that is not negative. *)
Definition fin_nonneg (x : fval) : Prop :=
  exists q, x = Fin q /\ 0 <= q.

(** A float that is [nan] or finite. *)
Definition nan_or_fin (x : fval) : Prop := x = NaN \/ exists q, x = Fin q.

(** A float that is [nan] or finite and not negative. *)
Definition nan_or_nonneg (x : fval) : Prop := x = NaN \/ fin_nonneg x.

(** A finite drawdown: above -1 and not above 0. *)
Definition drawdown_value (d : fval) : Prop :=
  exists q, d = Fin q /\ -1 < q /\ q <= 0.

(** A position that is flat or long. *)
Definition binary (p : Z) : Prop := p = 0%Z \/ p = 1%Z.

End Ranges.

(** ** Further concrete series *)

Module Examples.
Import StrategyEngine BacktestEngine Scenario.

(** Three bars closing at 50. *)
Definition flat_bars : list OHLCV := daily_bars [50; 50; 50].

Definition flat_db : DB := one_strategy_db ma_strategy flat_bars.



(** The macd strategy with a fast span of 0. *)
Definition macd_fast_0 : Strategy :=
  mkStrategy "macd"
             (mkParameters None None None None None (Some 0%nat) None None
                           None None)
             (Some all_in).

Definition macd_fast_0_db : DB := one_strategy_db macd_fast_0 flat_bars.

(** Rising closes, on which every indicator of the combined strategy is
    bullish from the second bar. *)
Definition rising_bars : list OHLCV := daily_bars [100; 101; 103; 106].

Definition combined_1_2 : Parameters :=
  mkParameters (Some 1%nat) (Some 2%nat) None None None None None None
               (Some 2%nat) (Some 101).

(** An equity curve that falls from 1000 to 900. *)
Definition falling_curve : list PortfolioValue.t :=
  [PortfolioValue.mk 0 1000 0 1000; PortfolioValue.mk 86400 0 900 900].

End Examples.

(** ** [StrategyEngine.backtest_strategy] *)

Module BacktestStrategy.
Import PyFloat.

(** What [backtest_strategy] may raise: the exceptions already met, and
    the [OverflowError] of [int] on an infinity. *)
Inductive raised : Type :=
| Exn (e : exn)
| OverflowError.

Inductive outcome (A : Type) : Type :=
| Done (a : A)
| Raised (e : raised).
Arguments Done {A} a.
Arguments Raised {A} e.

Definition andThen {A B : Type} (m : outcome A) (k : A -> outcome B)
  : outcome B :=
  match m with
  | Done a => k a
  | Raised e => Raised e
  end.

(** [int(x)] on a numpy float: an infinity overflows, [nan] is a
    [ValueError]. *)
Definition np_int (x : fval) : outcome Z :=
  match x with
  | Fin q => Done (int q)
  | PInf | NInf => Raised OverflowError
  | NaN => Raised (Exn (ValueError "cannot convert float NaN to integer"))
  end.

(** The columns the loop writes on a row. *)
Record Row : Type := mkRow {
  cash : Q;
  holdings : Q;
  total : Q
}.

(** Lines 219-234: [df['close'].iloc[i]] is a numpy float, so the division
    does not raise; [int] does.  The arithmetic is exact: the purchase is
    not rounded and a quotient by a close that is not zero is finite;
    [Doubles.strategy_buy] is the purchase on doubles. *)
Definition trade (transaction_cost : Q) (cash : Q) (shares : Z)
           (row : StrategyEngine.SignalRow) : outcome (Q * Z) :=
  let signal := StrategyEngine.signal row in
  let close := StrategyEngine.row_close row in
  if feqb signal (Fin 1) then
    let cost_per_share := close * (1 + transaction_cost) in
    andThen (np_int (fdiv (Fin cash) (Fin cost_per_share)))
      (fun shares_to_buy =>
         if (0 <? shares_to_buy)%Z then
           let cost := inject_Z shares_to_buy * cost_per_share in
           Done (cash - cost, (shares + shares_to_buy)%Z)
         else Done (cash, shares))
  else if feqb signal (Fin (-1)) && (0 <? shares)%Z then
    let proceeds_per_share := close * (1 - transaction_cost) in
    let proceeds := inject_Z shares * proceeds_per_share in
    Done (cash + proceeds, 0%Z)
  else Done (cash, shares).

(** Lines 236-239: the values written on the row. *)
Definition written (cash : Q) (shares : Z) (row : StrategyEngine.SignalRow)
  : Row :=
  {| cash := cash;
     holdings := inject_Z shares * StrategyEngine.row_close row;
     total := cash + inject_Z shares * StrategyEngine.row_close row |}.

(** The loop of lines 218-239 from a given cash and share count; it
    returns the final ones and the rows written. *)
Fixpoint loop (transaction_cost : Q) (cash : Q) (shares : Z)
         (df : list StrategyEngine.SignalRow) : outcome (Q * Z * list Row) :=
  match df with
  | [] => Done (cash, shares, [])
  | row :: rest =>
      andThen (trade transaction_cost cash shares row)
        (fun cs =>
           andThen (loop transaction_cost (fst cs) (snd cs) rest)
             (fun r =>
                Done (fst (fst r), snd (fst r),
                      written (fst cs) (snd cs) row :: snd r)))
  end.

(** [df['signal'].fillna(0).cumsum()], the [position] column of line 208. *)
Fixpoint cumsum_from (acc : fval) (s : list fval) : list fval :=
  match s with
  | [] => []
  | x :: t => let acc' := fadd acc x in acc' :: cumsum_from acc' t
  end.

Definition fillna0 (s : list fval) : list fval :=
  map (fun x => match x with NaN => Fin 0 | y => y end) s.

(** The DataFrame returned: the rows, with the [position], [returns],
    [cummax] and [drawdown] columns. *)
Record Frame : Type := mkFrame {
  rows : list Row;
  position : list fval;
  returns : list fval;
  cummax : list Q;
  drawdown : list fval
}.

(** The metrics dict of lines 254-259. *)
Record Metrics : Type := mkMetrics {
  total_return : fval;
  sharpe_ratio : fval;
  max_drawdown : fval;
  final_value : Q
}.

Section WithSqrt.

Variable np_sqrt : fval -> fval.

Definition backtest_strategy (signals : list StrategyEngine.SignalRow)
           (initial_capital transaction_cost : Q)
  : outcome (Frame * Metrics) :=
  let position :=
    cumsum_from (Fin 0) (fillna0 (map StrategyEngine.signal signals)) in
  andThen (loop transaction_cost initial_capital 0%Z signals)
    (fun r =>
       let rows := snd r in
       let total := map total rows in
       match BacktestEngine.iloc_last total with
       | Raise e => Raised (Exn e)
       | Ok final_value =>
           let total_return :=
             fdiv (Fin (final_value - initial_capital))
                  (Fin initial_capital) in
           let returns := Pandas.pct_change (map Fin total) in
           let std := BacktestEngine.std np_sqrt returns in
           let sharpe_ratio :=
             if fgt std (Fin 0)
             then fmul (fdiv (Pandas.mean returns) std) (np_sqrt (Fin 252))
             else Fin 0 in
           let cm := Pandas.cummax total in
           let drawdown :=
             Pandas.map2 (fun t m => fdiv (Fin (t - m)) (Fin m)) total cm in
           let max_drawdown := Pandas.min drawdown in
           Done ({| rows := rows; position := position; returns := returns;
                    cummax := cm; drawdown := drawdown |},
                 {| total_return := total_return;
                    sharpe_ratio := sharpe_ratio;
                    max_drawdown := fabs max_drawdown;
                    final_value := final_value |})
       end).

End WithSqrt.

End BacktestStrategy.

(** ** The purchase in double precision *)

(** The share count [int(capital_to_use / cost_per_share)] and the debit
    [shares_to_buy * cost_per_share] are each rounded; whether the debit
    exceeds the cash is decided by that rounding.  This module keeps the
    purchase on IEEE binary64, the arithmetic of a Python [float]. *)
Module Doubles.
Import PrimFloat.
Local Open Scope float_scope.

(** [float(n)]: the double nearest to an integer. *)
Definition of_int (n : Z) : float :=
  FloatOps.SF2Prim
    (SpecFloat.binary_normalize FloatOps.prec FloatOps.emax n 0 false).

(** The double that the decimal [n/d] reads as, for [n] and [d] below
    [2^53]: both are doubles, and their quotient is rounded once. *)
Definition decimal (n : Z) (d : positive) : float :=
  of_int n / of_int (Z.pos d).

(** [int(x)]: truncation toward zero; an infinity and [nan] raise. *)
Definition int (x : float) : BacktestStrategy.outcome Z :=
  match FloatOps.Prim2SF x with
  | SpecFloat.S754_zero _ => BacktestStrategy.Done 0%Z
  | SpecFloat.S754_finite s m e =>
      let magnitude :=
        if (0 <=? e)%Z then (Z.pos m * 2 ^ e)%Z
        else (Z.pos m / 2 ^ (- e))%Z in
      BacktestStrategy.Done (if s then (- magnitude)%Z else magnitude)
  | SpecFloat.S754_infinity _ =>
      BacktestStrategy.Raised BacktestStrategy.OverflowError
  | SpecFloat.S754_nan =>
      BacktestStrategy.Raised
        (BacktestStrategy.Exn
           (ValueError "cannot convert float NaN to integer"))
  end.

(** [a / b] on Python floats: a zero divisor raises, an overflow gives an
    infinity. *)
Definition truediv (a b : float) : BacktestStrategy.outcome float :=
  if b =? 0
  then BacktestStrategy.Raised (BacktestStrategy.Exn ZeroDivisionError)
  else BacktestStrategy.Done (a / b).

(** [settings.TRANSACTION_COST_PERCENT / 100] with the default [0.05]. *)
Definition default_transaction_cost : float := decimal 5 100 / 100.

Module Position.

Record t : Type := mk {
  entry_date : Z;
  entry_price : float;
  quantity : Z;
  transaction_cost : float
}.

End Position.

Module PortfolioValue.

Record t : Type := mk {
  time : Z;
  cash : float;
  holdings : float;
  total : float
}.

End PortfolioValue.

(** The locals of [_simulate_trading] that the purchase reads and writes. *)
Record Locals : Type := mkLocals {
  cash : float;
  shares : Z;
  current_position : option Position.t
}.

(** Lines 169-171 of [backtest_engine.py]. *)
Definition initial_locals (initial_capital : float) : Locals :=
  {| cash := initial_capital; shares := 0; current_position := None |}.

(** Lines 192-209 of [backtest_engine.py]: the buy branch. *)
Definition buy (transaction_cost position_size : float) (st : Locals)
           (current_price : float) (current_time : Z)
  : BacktestStrategy.outcome Locals :=
  let capital_to_use := cash st * position_size in
  let cost_per_share := current_price * (1 + transaction_cost) in
  BacktestStrategy.andThen (truediv capital_to_use cost_per_share)
    (fun ratio =>
  BacktestStrategy.andThen (int ratio)
    (fun shares_to_buy =>
       if (0 <? shares_to_buy)%Z then
         let total_cost := of_int shares_to_buy * cost_per_share in
         BacktestStrategy.Done
           {| cash := cash st - total_cost;
              shares := shares_to_buy;
              current_position :=
                Some {| Position.entry_date := current_time;
                        Position.entry_price := current_price;
                        Position.quantity := shares_to_buy;
                        Position.transaction_cost :=
                          total_cost - of_int shares_to_buy * current_price
                     |} |}
       else BacktestStrategy.Done st)).

(** Lines 247-254 of [backtest_engine.py]: the equity point of the bar. *)
Definition record_portfolio (st : Locals) (current_price : float)
           (current_time : Z) : PortfolioValue.t :=
  let portfolio_value := cash st + of_int (shares st) * current_price in
  {| PortfolioValue.time := current_time;
     PortfolioValue.cash := cash st;
     PortfolioValue.holdings := of_int (shares st) * current_price;
     PortfolioValue.total := portfolio_value |}.

(** Lines 221-227 of [strategy_engine.py]: the buy branch of
    [backtest_strategy]; the close is a numpy float, so the division does
    not raise. *)
Definition strategy_buy (transaction_cost cash : float) (shares : Z)
           (close : float) : BacktestStrategy.outcome (float * Z) :=
  let cost_per_share := close * (1 + transaction_cost) in
  BacktestStrategy.andThen (int (cash / cost_per_share))
    (fun shares_to_buy =>
       if (0 <? shares_to_buy)%Z then
         let cost := of_int shares_to_buy * cost_per_share in
         BacktestStrategy.Done (cash - cost, (shares + shares_to_buy)%Z)
       else BacktestStrategy.Done (cash, shares)).

End Doubles.

Module Lockstep.
Import StrategyEngine.

(** The rows' signals are the differences of their positions, starting
    from the position [prev] of the bar before. *)
Fixpoint follows (prev : Z) (df : list SignalRow) : Prop :=
  match df with
  | [] => True
  | r :: rest =>
      signal r = Fin (inject_Z (position r) + - inject_Z prev) /\
      Ranges.binary (position r) /\
      follows (position r) rest
  end.

(** A signal column as [with_signal] builds it: [nan] first, differences
    afterwards. *)
Definition difference_rows (df : list SignalRow) : Prop :=
  match df with
  | [] => True
  | r :: rest =>
      signal r = NaN /\ Ranges.binary (position r) /\
      follows (position r) rest
  end.

(** The columns of an equity point that [backtest_strategy] writes too. *)
Definition as_row (pv : PortfolioValue.t) : BacktestStrategy.Row :=
  {| BacktestStrategy.cash := PortfolioValue.cash pv;
     BacktestStrategy.holdings := PortfolioValue.holdings pv;
     BacktestStrategy.total := PortfolioValue.total pv |}.

End Lockstep.

(** ** [app/utils/indicators.py]: the module-level signal functions *)

Module SignalFunctions.
Import Pandas StrategyEngine.

(** [df['signal'] = 0], then [1] on the rows of the first mask, then [-1]
    on the rows of the second, in this order. *)
Definition assign_signal (buy sell : bool) : Z :=
  let s := 0%Z in
  let s := if buy then 1%Z else s in
  let s := if sell then (-1)%Z else s in
  s.

(** Lines 187-202; the [signal] column of the frame returned. *)
Definition calculate_ma_crossover_signals (data : list OHLCV)
           (short_window long_window : nat) : list Z :=
  let sma_short := Indicators.sma (close_series data) short_window in
  let sma_long := Indicators.sma (close_series data) long_window in
  map2 (fun a b => assign_signal (fgt a b) (flt a b)) sma_short sma_long.

(** Lines 205-219. *)
Definition calculate_rsi_signals (data : list OHLCV) (period : nat)
           (oversold overbought : Q) : list Z :=
  let rsi := Indicators.rsi (close_series data) period in
  map (fun r => assign_signal (flt r (Fin oversold)) (fgt r (Fin overbought)))
      rsi.

(** Lines 222-236. *)
Definition calculate_macd_signals (data : list OHLCV)
           (fast slow signal : nat) : result (list Z) :=
  lines <- Indicators.macd (map close data) fast slow signal ;;
  let '(macd, macd_signal, _) := lines in
  Ok (map2 (fun m s => assign_signal (PyFloat.Qltb s m) (PyFloat.Qltb m s))
           macd macd_signal).

(** A signal is a sale, nothing or a purchase. *)
Definition ternary (s : Z) : Prop := s = (-1)%Z \/ s = 0%Z \/ s = 1%Z.

End SignalFunctions.

(** ** [app/utils/indicators.py]: [atr], [stochastic] and [vwap] *)

Module Volatility.
Import Pandas.

Definition fmax2 (x y : fval) : fval := if flt x y then y else x.

(** Minimum and maximum of one full window; as for the mean, a window
    holding a non-finite observation yields [nan]. *)
Definition window_min (win : list fval) : fval :=
  if forallb is_fin win
  then match win with
       | [] => NaN
       | x :: t => fold_left fmin2 t x
       end
  else NaN.

Definition window_max (win : list fval) : fval :=
  if forallb is_fin win
  then match win with
       | [] => NaN
       | x :: t => fold_left fmax2 t x
       end
  else NaN.

(** [s.rolling(window=w).min()] and [s.rolling(window=w).max()]. *)
Definition rolling_min (w : nat) (s : list fval) : list fval :=
  map (fun i => if (S i <? w)%nat then NaN else window_min (window w i s))
      (seq 0 (length s)).

Definition rolling_max (w : nat) (s : list fval) : list fval :=
  map (fun i => if (S i <? w)%nat then NaN else window_max (window w i s))
      (seq 0 (length s)).

(** [s.shift()]. *)
Definition shift (s : list fval) : list fval :=
  match s with
  | [] => []
  | _ :: _ => NaN :: removelast s
  end.

(** One row of [pd.concat([...], axis=1).max(axis=1)]: [nan] is skipped. *)
Definition row_max (row : list fval) : fval :=
  match dropna row with
  | [] => NaN
  | x :: t => fold_left fmax2 t x
  end.

(** [s.cumsum()] on a finite series. *)
Fixpoint cumsum_from (acc : Q) (s : list Q) : list Q :=
  match s with
  | [] => []
  | x :: t => let acc' := acc + x in acc' :: cumsum_from acc' t
  end.

Definition cumsum (s : list Q) : list Q := cumsum_from 0 s.

(** Lines 113-138, on the columns of one frame. *)
Definition atr (high low close : list Q) (period : nat) : list fval :=
  let prev_close := shift (map Fin close) in
  let tr1 := map2 (fun h l => Fin (h - l)) high low in
  let tr2 := map2 (fun h pc => fabs (fsub (Fin h) pc)) high prev_close in
  let tr3 := map2 (fun l pc => fabs (fsub (Fin l) pc)) low prev_close in
  let tr :=
    map2 (fun a bc => row_max [a; fst bc; snd bc]) tr1 (combine tr2 tr3) in
  rolling_mean period tr.

(** Lines 140-164: [(%K, %D)]. *)
Definition stochastic (high low close : list Q) (k_period d_period : nat)
  : list fval * list fval :=
  let lowest_low := rolling_min k_period (map Fin low) in
  let highest_high := rolling_max k_period (map Fin high) in
  let k :=
    map2 (fun c lh =>
            fmul (Fin 100)
                 (fdiv (fsub (Fin c) (fst lh)) (fsub (snd lh) (fst lh))))
         close (combine lowest_low highest_high) in
  let d := rolling_mean d_period k in
  (k, d).

(** Lines 166-183. *)
Definition vwap (high low close volume : list Q) : list fval :=
  let typical_price :=
    map2 (fun hl c => (fst hl + snd hl + c) / 3) (combine high low) close in
  map2 (fun n d => fdiv (Fin n) (Fin d))
       (cumsum (map2 Qmult typical_price volume)) (cumsum volume).

(** [nan], or a finite value between the bounds. *)
Definition nan_or_between (lo hi : Q) (x : fval) : Prop :=
  x = NaN \/ Ranges.fin_between lo hi x.

Definition between (lo hi q : Q) : Prop := lo <= q /\ q <= hi.

End Volatility.

(** Four bars with a range and a volume. *)
Module Bars.

Definition highs : list Q := [102; 104; 103; 106].
Definition lows : list Q := [99; 100; 98; 101].
Definition closes : list Q := [100; 103; 99; 105].
Definition volumes : list Q := [0; 10; 20; 5].

End Bars.

(** ** [app/utils/indicators.py]: [bollinger_bands] *)

Module Bands.
Import Pandas.

Section WithSqrt.

Variable np_sqrt : fval -> fval.

(** Sample standard deviation of one full window ([ddof = 1]). *)
Definition window_std (win : list fval) : fval :=
  if forallb is_fin win then np_sqrt (var win) else NaN.

(** [s.rolling(window=w).std()]. *)
Definition rolling_std (w : nat) (s : list fval) : list fval :=
  map (fun i => if (S i <? w)%nat then NaN else window_std (window w i s))
      (seq 0 (length s)).

(** Lines 92-111: [(upper, middle, lower)]. *)
Definition bollinger_bands (data : list fval) (window : nat) (num_std : Q)
  : list fval * list fval * list fval :=
  let middle_band := rolling_mean window data in
  let std := rolling_std window data in
  let upper_band :=
    map2 (fun m s => fadd m (fmul s (Fin num_std))) middle_band std in
  let lower_band :=
    map2 (fun m s => fsub m (fmul s (Fin num_std))) middle_band std in
  (upper_band, middle_band, lower_band).

End WithSqrt.

(** What the theorems need of the floating-point square root. *)
Definition sqrt_like (np_sqrt : fval -> fval) : Prop :=
  np_sqrt NaN = NaN /\
  forall q, 0 <= q -> Ranges.fin_nonneg (np_sqrt (Fin q)).

Definition finite (x : fval) : Prop := exists q, x = Fin q.

End Bands.

(** * Properties *)

(** ** Comparisons, division and the error monad *)

Section Basics.
Import PyFloat.

Lemma Qltb_lt (a b : Q) : Qltb a b = true <-> a < b.
Proof.
  unfold Qltb. rewrite negb_true_iff. split; intro H.
  - destruct (Qlt_le_dec a b) as [Hlt | Hle]; [exact Hlt |].
    apply Qle_bool_iff in Hle. congruence.
  - destruct (Qle_bool b a) eqn:E; [| reflexivity].
    apply Qle_bool_iff in E. lra.
Qed.

Lemma Qltb_ge (a b : Q) : Qltb a b = false <-> b <= a.
Proof.
  unfold Qltb. rewrite negb_false_iff. apply Qle_bool_iff.
Qed.

Lemma Qeq_bool_false (a b : Q) : Qeq_bool a b = false <-> ~ a == b.
Proof.
  split; intro H.
  - apply Qeq_bool_neq. exact H.
  - destruct (Qeq_bool a b) eqn:E; [| reflexivity].
    apply Qeq_bool_iff in E. contradiction.
Qed.

Lemma bind_Ok {A B : Type} (m : result A) (k : A -> result B) (r : B) :
  bind m k = Ok r -> exists a, m = Ok a /\ k a = Ok r.
Proof.
  destruct m as [a | e]; simpl; intro H; [eauto | discriminate].
Qed.

Lemma truediv_Ok (a b q : Q) :
  truediv a b = Ok q -> ~ b == 0 /\ q = a / b.
Proof.
  unfold truediv. destruct (Qeq_bool b 0) eqn:E; [discriminate |].
  intro H. injection H as <-. split; [| reflexivity].
  apply Qeq_bool_false. exact E.
Qed.

Lemma truediv_nonzero (a b : Q) : ~ b == 0 -> truediv a b = Ok (a / b).
Proof.
  intro H. unfold truediv. apply Qeq_bool_false in H. rewrite H. reflexivity.
Qed.

Lemma foldM_app {S R : Type} (f : S -> R -> result S) (s : S)
      (xs ys : list R) :
  foldM f s (xs ++ ys) = bind (foldM f s xs) (fun s' => foldM f s' ys).
Proof.
  revert s. induction xs as [| x xs IH]; intro s; simpl; [reflexivity |].
  destruct (f s x) as [s' | e]; simpl; [apply IH | reflexivity].
Qed.


Lemma int_le (x : Q) : 0 <= x -> inject_Z (int x) <= x.
Proof.
  intro H. unfold int. apply Qle_bool_iff in H. rewrite H. apply Qfloor_le.
Qed.


End Basics.

Ltac bind_inv H :=
  let a := fresh "a" in
  let Ha := fresh "Ha" in
  apply bind_Ok in H; destruct H as (a & Ha & H).

Section Simulator.
Import PyFloat StrategyEngine BacktestEngine Props.

Variables tc ps sl : Q.

Lemma buy_inv st p t mid :
  buy tc ps st p t = Ok mid ->
  ~ p * (1 + tc) == 0 /\
  (((int (cash st * ps / (p * (1 + tc))) <= 0)%Z /\ mid = st) \/
   ((0 < int (cash st * ps / (p * (1 + tc))))%Z /\
    mid = bought tc st p t (int (cash st * ps / (p * (1 + tc)))))).
Proof.
  unfold buy. intro H. bind_inv H. apply truediv_Ok in Ha as [Hnz ->].
  split; [exact Hnz |].
  destruct (0 <? int (cash st * ps / (p * (1 + tc))))%Z eqn:E;
    injection H as <-.
  - right. apply Z.ltb_lt in E. split; [exact E | reflexivity].
  - left. apply Z.ltb_ge in E. split; [exact E | reflexivity].
Qed.

Lemma sale_reason_inv pos p r :
  sale_reason sl pos p = Ok r ->
  (r = ExitReason.stop_loss /\ 0 < sl /\
   sl <= (Position.entry_price pos - p) / Position.entry_price pos) \/
  (r = ExitReason.signal /\
   (sl <= 0 \/
    (Position.entry_price pos - p) / Position.entry_price pos < sl)).
Proof.
  unfold sale_reason. destruct (Qltb 0 sl) eqn:E.
  - intro H. bind_inv H. apply truediv_Ok in Ha as [_ ->].
    apply Qltb_lt in E.
    destruct (Qle_bool sl _) eqn:E'; injection H as <-.
    + left. apply Qle_bool_iff in E'. auto.
    + right. split; [reflexivity | right].
      destruct (Qlt_le_dec
                  ((Position.entry_price pos - p) / Position.entry_price pos)
                  sl) as [Hlt | Hle]; [exact Hlt |].
      apply Qle_bool_iff in Hle. congruence.
  - intro H. injection H as <-. right. split; [reflexivity | left].
    apply Qltb_ge. exact E.
Qed.

Lemma sell_inv st p t mid :
  sell tc sl st p t = Ok mid ->
  exists pos tr,
    current_position st = Some pos /\
    cash mid = cash st + inject_Z (shares st) * (p * (1 - tc)) /\
    shares mid = 0%Z /\ current_position mid = None /\
    trades mid = trades st ++ [tr] /\
    portfolio_values mid = portfolio_values st /\
    sale_reason sl pos p = Ok (Trade.exit_reason tr) /\
    Trade.exit_price tr = p /\ Trade.exit_date tr = t /\
    Trade.quantity tr = shares st /\
    Trade.entry_price tr = Position.entry_price pos /\
    Trade.entry_date tr = Position.entry_date pos.
Proof.
  unfold sell. destruct (current_position st) as [pos |]; [| discriminate].
  intro H. bind_inv H. bind_inv H. rename a0 into reason.
  injection H as <-. eexists pos, _. simpl.
  repeat split; try reflexivity. exact Ha0.
Qed.

Lemma process_signal_inv st sig p t mid :
  process_signal tc ps sl st sig p t = Ok mid ->
  (feqb sig (Fin 1) = true /\ shares st = 0%Z /\ buy tc ps st p t = Ok mid) \/
  (feqb sig (Fin (-1)) = true /\ (0 < shares st)%Z /\
   sell tc sl st p t = Ok mid) \/
  mid = st.
Proof.
  unfold process_signal.
  destruct (feqb sig (Fin 1) && (shares st =? 0)%Z) eqn:E1.
  - apply andb_true_iff in E1 as [E1 E2]. apply Z.eqb_eq in E2. auto.
  - destruct (feqb sig (Fin (-1)) && (0 <? shares st)%Z) eqn:E2.
    + apply andb_true_iff in E2 as [E2 E3]. apply Z.ltb_lt in E3. auto.
    + intro H. injection H as <-. auto.
Qed.

Lemma step_inv st row st' :
  step tc ps sl st row = Ok st' ->
  exists sig mid,
    check_stop_loss sl st (signal row) (row_close row) = Ok sig /\
    process_signal tc ps sl st sig (row_close row) (row_time row) = Ok mid /\
    st' = record_portfolio mid (row_close row) (row_time row).
Proof.
  unfold step. intro H. bind_inv H. bind_inv H. injection H as <-. eauto.
Qed.

(** A bar changes the position only through a fill. *)
Lemma step_fill st row st' :
  step tc ps sl st row = Ok st' ->
  (cash st' = cash st /\ shares st' = shares st /\
   current_position st' = current_position st /\ trades st' = trades st) \/
  (shares st = 0%Z /\ ~ row_close row * (1 + tc) == 0 /\
   exists n, (0 < n)%Z /\
     n = int (cash st * ps / (row_close row * (1 + tc))) /\
     cash st' = cash st - inject_Z n * (row_close row * (1 + tc)) /\
     shares st' = n /\
     current_position st' =
       Some (Position.mk (row_time row) (row_close row) n
               (inject_Z n * (row_close row * (1 + tc))
                - inject_Z n * row_close row)) /\
     trades st' = trades st) \/
  ((0 < shares st)%Z /\
   cash st' = cash st + inject_Z (shares st) * (row_close row * (1 - tc)) /\
   shares st' = 0%Z /\ current_position st' = None /\
   exists tr, trades st' = trades st ++ [tr]).
Proof.
  intro H. apply step_inv in H as (sig & mid & _ & Hp & ->). simpl.
  apply process_signal_inv in Hp as [(_ & Hs & Hb) | [(_ & Hs & Hb) | ->]].
  - apply buy_inv in Hb as [Hnz [[_ ->] | [Hn ->]]]; [left; auto |].
    right; left. split; [exact Hs |]. split; [exact Hnz |].
    eexists. split; [exact Hn |]. simpl. repeat split; reflexivity.
  - apply sell_inv in Hb
      as (pos & tr & _ & Hc & Hsh & Hcp & Htr & _).
    right; right. split; [exact Hs |]. eauto 6.
  - left. auto.
Qed.

Lemma step_portfolio st row st' :
  step tc ps sl st row = Ok st' ->
  portfolio_values st' = portfolio_values st ++ [equity_point st' row].
Proof.
  intro H. apply step_inv in H as (sig & mid & _ & Hp & ->).
  unfold equity_point. simpl.
  apply process_signal_inv in Hp as [(_ & _ & Hb) | [(_ & _ & Hb) | ->]].
  - apply buy_inv in Hb as [_ [[_ ->] | [_ ->]]]; reflexivity.
  - apply sell_inv in Hb as (pos & tr & _ & _ & _ & _ & _ & Hpv & _).
    rewrite Hpv. reflexivity.
  - reflexivity.
Qed.

Lemma step_consistent st row st' :
  consistent st -> step tc ps sl st row = Ok st' -> consistent st'.
Proof.
  intros Hc H. apply step_fill in H as [H | [H | H]]; unfold consistent in *.
  - destruct H as (_ & Hs & Hp & _). rewrite Hp, Hs. exact Hc.
  - destruct H as (_ & Hnz & n & Hn & _ & _ & Hs & Hp & _).
    rewrite Hp, Hs. simpl. repeat split; try assumption.
    intro E. apply Hnz. rewrite E. ring.
  - destruct H as (_ & _ & Hs & Hp & _). rewrite Hp. exact Hs.
Qed.

Lemma run_loop_consistent df : forall st st',
  consistent st -> run_loop tc ps sl st df = Ok st' -> consistent st'.
Proof.
  unfold run_loop. induction df as [| row df IH]; simpl; intros st st' Hc H.
  - injection H as <-. exact Hc.
  - bind_inv H. eapply IH; [| exact H]. eapply step_consistent; eauto.
Qed.

Lemma initial_consistent capital : consistent (initial_locals capital).
Proof. reflexivity. Qed.

End Simulator.

Section Runs.
Import PyFloat StrategyEngine BacktestEngine Props.

Lemma Qmult_nonzero (a b : Q) : ~ a == 0 -> ~ b == 0 -> ~ a * b == 0.
Proof.
  intros Ha Hb H. apply Qmult_integral in H. tauto.
Qed.

Lemma inject_Z_pos (n : Z) : (0 < n)%Z -> 0 < inject_Z n.
Proof.
  intro H. change 0 with (inject_Z 0). rewrite <- Zlt_Qlt. exact H.
Qed.

Lemma inject_Z_nonzero (n : Z) : (0 < n)%Z -> ~ inject_Z n == 0.
Proof.
  intro H. apply inject_Z_pos in H. lra.
Qed.

Lemma check_stop_loss_triggers sl st sig p pos :
  current_position st = Some pos ->
  0 < sl ->
  sl <= (Position.entry_price pos - p) / Position.entry_price pos ->
  check_stop_loss sl st sig p = Ok (Fin (-1)) /\
  sale_reason sl pos p = Ok ExitReason.stop_loss.
Proof.
  intros Hpos Hsl Hloss.
  assert (Hnz : ~ Position.entry_price pos == 0).
  { intro E. rewrite E in Hloss. unfold Qdiv in Hloss.
    assert (H0 : (0 - p) * / 0 == 0) by (unfold Qinv; simpl; ring).
    lra. }
  unfold check_stop_loss, sale_reason. rewrite Hpos.
  apply Qltb_lt in Hsl. rewrite Hsl.
  rewrite (truediv_nonzero _ _ Hnz). simpl.
  apply Qle_bool_iff in Hloss. rewrite Hloss. split; reflexivity.
Qed.

Lemma sale_reason_total sl pos p :
  ~ Position.entry_price pos == 0 -> exists r, sale_reason sl pos p = Ok r.
Proof.
  intro Hnz. unfold sale_reason. destruct (Qltb 0 sl); [| eauto].
  rewrite (truediv_nonzero _ _ Hnz). simpl. eauto.
Qed.

Lemma sell_runs tc sl st p t pos :
  current_position st = Some pos ->
  (0 < Position.quantity pos)%Z ->
  ~ Position.entry_price pos == 0 ->
  exists mid, sell tc sl st p t = Ok mid.
Proof.
  intros Hpos Hq Hnz. unfold sell. rewrite Hpos.
  rewrite truediv_nonzero
    by (apply Qmult_nonzero; [apply inject_Z_nonzero; exact Hq | exact Hnz]).
  simpl. destruct (sale_reason_total sl pos p Hnz) as [r ->]. simpl. eauto.
Qed.

(** C5.  While a position is open and [stop_loss > 0], a bar whose close
    puts the loss fraction [(entry_price - close) / entry_price] at or
    above [stop_loss] has its signal replaced by [-1] before the signal is
    looked at; whatever the bar's own signal, the position is sold at the
    bar's close and the trade appended is labelled [stop_loss]. *)
Theorem stop_loss_overrides_signal :
  forall tc ps sl capital prefix st row pos,
    run_loop tc ps sl (initial_locals capital) prefix = Ok st ->
    current_position st = Some pos ->
    0 < sl ->
    sl <= (Position.entry_price pos - row_close row)
          / Position.entry_price pos ->
    check_stop_loss sl st (signal row) (row_close row) = Ok (Fin (-1)) /\
    exists st' tr,
      step tc ps sl st row = Ok st' /\
      trades st' = trades st ++ [tr] /\
      Trade.exit_reason tr = ExitReason.stop_loss /\
      Trade.exit_price tr = row_close row /\
      Trade.exit_date tr = row_time row /\
      Trade.quantity tr = shares st /\
      cash st' = cash st + inject_Z (shares st) * (row_close row * (1 - tc)) /\
      shares st' = 0%Z /\ current_position st' = None.
Proof.
  intros tc ps sl capital prefix st row pos Hrun Hpos Hsl Hloss.
  pose proof (run_loop_consistent tc ps sl prefix _ _
                (initial_consistent capital) Hrun) as Hc.
  unfold consistent in Hc. rewrite Hpos in Hc. destruct Hc as (Hsh & Hq & Hnz).
  destruct (check_stop_loss_triggers sl st (signal row) (row_close row) pos
              Hpos Hsl Hloss) as [Hchk Hreason].
  split; [exact Hchk |].
  destruct (sell_runs tc sl st (row_close row) (row_time row) pos Hpos)
    as [mid Hsell]; [lia | exact Hnz |].
  pose proof (sell_inv tc sl _ _ _ _ Hsell)
    as (pos' & tr & Hpos' & Hcash & Hs0 & Hp0 & Htr & Hpv & Hr & Hxp & Hxd
        & Hqt & _).
  rewrite Hpos in Hpos'. injection Hpos' as <-.
  rewrite Hreason in Hr. injection Hr as Hr.
  exists (record_portfolio mid (row_close row) (row_time row)), tr.
  split.
  - unfold step. rewrite Hchk. simpl. unfold process_signal.
    replace (feqb (Fin (-1)) (Fin 1)) with false by reflexivity.
    replace (feqb (Fin (-1)) (Fin (-1))) with true by reflexivity.
    apply Z.ltb_lt in Hsh. rewrite Hsh. simpl. rewrite Hsell. reflexivity.
  - simpl. repeat split; auto.
Qed.

Lemma run_loop_snoc tc ps sl st prefix row st' :
  run_loop tc ps sl st (prefix ++ [row]) = Ok st' ->
  exists mid,
    run_loop tc ps sl st prefix = Ok mid /\ step tc ps sl mid row = Ok st'.
Proof.
  unfold run_loop. rewrite foldM_app. intro H. bind_inv H.
  exists a. split; [exact Ha |]. simpl in H.
  destruct (step tc ps sl a row); simpl in H; [exact H | discriminate].
Qed.

Lemma run_loop_split tc ps sl st prefix rest final :
  run_loop tc ps sl st (prefix ++ rest) = Ok final ->
  exists mid,
    run_loop tc ps sl st prefix = Ok mid /\
    run_loop tc ps sl mid rest = Ok final.
Proof.
  unfold run_loop. rewrite foldM_app. intro H. bind_inv H. eauto.
Qed.

Section NonNegative.
Variables tc ps sl : Q.
Hypothesis ps_pos : 0 < ps.
Hypothesis ps_le_1 : ps <= 1.
Hypothesis tc_nonneg : 0 <= tc.
Hypothesis tc_le_1 : tc <= 1.

Lemma step_nonneg st row st' :
  0 <= row_close row ->
  0 <= cash st -> (0 <= shares st)%Z ->
  step tc ps sl st row = Ok st' ->
  0 <= cash st' /\ (0 <= shares st')%Z /\
  backed_by_fill tc (row_close row) st st'.
Proof.
  intros Hp Hc Hs H. apply step_fill in H as [H | [H | H]].
  - destruct H as (Hc' & Hs' & _). rewrite Hc', Hs'.
    repeat split; try assumption. apply no_fill; assumption.
  - destruct H as (Hs0 & Hnz & n & Hn & Hdef & Hc' & Hs' & _).
    set (cps := row_close row * (1 + tc)) in *.
    assert (Hcps : 0 < cps).
    { assert (0 <= cps) by (unfold cps; nra). lra. }
    assert (Hq : 0 <= cash st * ps / cps).
    { apply Qle_shift_div_l; [exact Hcps | nra]. }
    assert (Hle : inject_Z n * cps <= cash st * ps).
    { assert (Hfl : inject_Z n <= cash st * ps / cps)
        by (rewrite Hdef; apply int_le; exact Hq).
      apply (Qmult_le_compat_r _ _ cps) in Hfl; [| lra].
      eapply Qle_trans; [exact Hfl |].
      apply Qle_lteq. right. field. lra. }
    rewrite Hc', Hs'. split; [| split; [lia |]].
    + assert (cash st * ps <= cash st) by nra. lra.
    + apply buy_fill; [exact Hs0 | lia |].
      rewrite Hs' in *. exact Hc'.
  - destruct H as (Hs0 & Hc' & Hs' & _). rewrite Hc', Hs'.
    split; [| split; [lia |]].
    + assert (0 <= inject_Z (shares st))
        by (change 0 with (inject_Z 0); rewrite <- Zle_Qle; lia).
      assert (0 <= row_close row * (1 - tc)) by nra. nra.
    + apply sell_fill; assumption.
Qed.

Lemma run_loop_nonneg df : forall st st',
  Forall (fun r => 0 <= row_close r) df ->
  0 <= cash st -> (0 <= shares st)%Z ->
  run_loop tc ps sl st df = Ok st' ->
  0 <= cash st' /\ (0 <= shares st')%Z.
Proof.
  unfold run_loop.
  induction df as [| row df IH]; simpl; intros st st' Hdf Hc Hs H.
  - injection H as <-. auto.
  - bind_inv H. inversion Hdf as [| ? ? Hrow Hrest]; subst.
    destruct (step_nonneg _ _ _ Hrow Hc Hs Ha) as (Hc' & Hs' & _).
    eapply IH; eauto.
Qed.

End NonNegative.

(** In exact arithmetic (no rounding of the share count or of the debit):
    with positive capital, a position size in (0, 1], a cost rate in
    [0, 1] and closes that are not negative, after every bar the loop gets
    through cash and shares are not negative, and the bar changed cash
    only by a buy or a sell fill at its close.  On doubles the first part
    fails: see [Doubles.buy]. *)
Theorem cash_and_shares_never_negative :
  forall tc ps sl capital df,
    0 < capital -> 0 < ps -> ps <= 1 -> 0 <= tc -> tc <= 1 ->
    Forall (fun r => 0 <= row_close r) df ->
    forall prefix row rest st',
      df = prefix ++ row :: rest ->
      run_loop tc ps sl (initial_locals capital) (prefix ++ [row]) = Ok st' ->
      exists st,
        run_loop tc ps sl (initial_locals capital) prefix = Ok st /\
        step tc ps sl st row = Ok st' /\
        0 <= cash st' /\ (0 <= shares st')%Z /\
        backed_by_fill tc (row_close row) st st'.
Proof.
  intros tc ps sl capital df Hcap Hps Hps1 Htc Htc1 Hdf prefix row rest st'
         -> Hrun.
  apply run_loop_snoc in Hrun as (st & Hpre & Hstep).
  exists st. split; [exact Hpre |]. split; [exact Hstep |].
  apply Forall_app in Hdf as [Hprefix Hrest].
  inversion Hrest as [| ? ? Hrow _]; subst.
  assert (Hinv : 0 <= cash st /\ (0 <= shares st)%Z).
  { eapply (run_loop_nonneg tc ps sl Hps Hps1 Htc Htc1 prefix);
      [exact Hprefix | | | exact Hpre]; simpl; [lra | lia]. }
  destruct Hinv as [Hc Hs]. eapply step_nonneg; eauto.
Qed.

Lemma run_loop_portfolio_grows tc ps sl df : forall st st',
  run_loop tc ps sl st df = Ok st' ->
  exists more,
    portfolio_values st' = portfolio_values st ++ more /\
    length more = length df.
Proof.
  unfold run_loop. induction df as [| row df IH]; simpl; intros st st' H.
  - injection H as <-. exists []. rewrite app_nil_r. auto.
  - bind_inv H. apply IH in H as (more & Hm & Hlen).
    apply step_portfolio in Ha. rewrite Ha, <- app_assoc in Hm.
    eexists. split; [exact Hm |]. simpl. rewrite Hlen. reflexivity.
Qed.

(** C7.  The equity point recorded for a bar carries the cash of the state
    after the bar's fill, [holdings = shares * close] and
    [total = cash + holdings], as equalities; the curve has one point per
    bar. *)
Theorem equity_point_matches_post_fill_state :
  forall tc ps sl capital prefix row rest final,
    run_loop tc ps sl (initial_locals capital) (prefix ++ row :: rest)
      = Ok final ->
    exists st' pv,
      run_loop tc ps sl (initial_locals capital) (prefix ++ [row]) = Ok st' /\
      nth_error (portfolio_values final) (length prefix) = Some pv /\
      PortfolioValue.time pv = row_time row /\
      PortfolioValue.cash pv = cash st' /\
      PortfolioValue.holdings pv = inject_Z (shares st') * row_close row /\
      PortfolioValue.total pv =
        PortfolioValue.cash pv + PortfolioValue.holdings pv /\
      length (portfolio_values final) = length (prefix ++ row :: rest).
Proof.
  intros tc ps sl capital prefix row rest final Hrun.
  replace (prefix ++ row :: rest) with ((prefix ++ [row]) ++ rest) in Hrun
    by (rewrite <- app_assoc; reflexivity).
  apply run_loop_split in Hrun as (st' & Hpre & Hrest).
  exists st', (equity_point st' row). split; [exact Hpre |].
  apply run_loop_portfolio_grows in Hrest as (more & Hfinal & Hlen).
  apply run_loop_snoc in Hpre as (mid & Hmid & Hstep).
  apply run_loop_portfolio_grows in Hmid as (more0 & Hmid & Hlen0).
  apply step_portfolio in Hstep. simpl in Hmid.
  rewrite Hmid in Hstep. rewrite Hstep, <- app_assoc in Hfinal.
  rewrite Hfinal. split.
  - rewrite <- Hlen0, nth_error_app2 by lia.
    rewrite Nat.sub_diag. reflexivity.
  - simpl. repeat split; try reflexivity.
    rewrite !length_app. simpl. lia.
Qed.

Lemma iloc_last_nonempty {A : Type} (l : list A) :
  l <> [] -> exists x, iloc_last l = Ok x.
Proof.
  intro H. unfold iloc_last. destruct (rev l) as [| x r] eqn:E; [| eauto].
  apply (f_equal (@rev A)) in E. rewrite rev_involutive in E. contradiction.
Qed.

(** The position open at the end of the loop was entered on a bar of the
    run, from a flat state, and no bar after it moved cash or shares. *)
Lemma entry_of_open_position tc ps sl capital df : forall st pos,
  run_loop tc ps sl (initial_locals capital) df = Ok st ->
  current_position st = Some pos ->
  exists prefix row rest before after,
    df = prefix ++ row :: rest /\
    run_loop tc ps sl (initial_locals capital) prefix = Ok before /\
    step tc ps sl before row = Ok after /\
    run_loop tc ps sl after rest = Ok st /\
    shares before = 0%Z /\
    current_position after = Some pos /\
    cash st = cash after /\
    shares st = shares after /\
    Position.entry_price pos = row_close row /\
    Position.entry_date pos = row_time row /\
    Position.quantity pos = shares after /\
    cash after =
      cash before
      - inject_Z (Position.quantity pos)
        * (Position.entry_price pos * (1 + tc)) /\
    Position.transaction_cost pos ==
      inject_Z (Position.quantity pos) * Position.entry_price pos * tc.
Proof.
  induction df as [| row df IH] using rev_ind; intros st pos Hrun Hpos.
  - injection Hrun as <-. discriminate.
  - apply run_loop_snoc in Hrun as (mid & Hmid & Hstep).
    destruct (step_fill _ _ _ _ _ _ Hstep) as [H | [H | H]].
    + destruct H as (Hc & Hs & Hp & _). rewrite Hp in Hpos.
      destruct (IH _ _ Hmid Hpos)
        as (prefix & r & rest & before & after & -> & Hpre & Hentry & Hrest
            & Hflat & Hafter & Hcash & Hshares & Hfacts).
      exists prefix, r, (rest ++ [row]), before, after.
      split; [rewrite <- app_assoc; reflexivity |].
      split; [exact Hpre |]. split; [exact Hentry |].
      split.
      { unfold run_loop in *. rewrite foldM_app, Hrest. simpl.
        rewrite Hstep. reflexivity. }
      split; [exact Hflat |]. split; [exact Hafter |].
      split; [congruence |]. split; [congruence | exact Hfacts].
    + destruct H as (Hs0 & _ & n & _ & _ & Hc & Hsh & Hp & _).
      rewrite Hp in Hpos. injection Hpos as <-.
      exists df, row, [], mid, st. simpl.
      split; [reflexivity |]. split; [exact Hmid |]. split; [exact Hstep |].
      split; [reflexivity |]. split; [exact Hs0 |]. split; [exact Hp |].
      split; [reflexivity |]. split; [reflexivity |].
      split; [reflexivity |]. split; [reflexivity |].
      split; [symmetry; exact Hsh |]. split; [exact Hc | ring].
    + destruct H as (_ & _ & _ & Hp & _). congruence.
Qed.

(** C10.  When the loop ends with shares held, the end-of-period record
    books the entry-side cost only, in [transaction_cost] and in [pnl],
    while cash is credited [shares * close * (1 - c)].  The position was
    entered on a bar [row] of the run, which took the state from [before]
    (flat) to [after]; no later bar moved cash; so all the cash the trade
    moved is [cash final - cash before], and the recorded pnl exceeds it by
    [shares * close * c]. *)
Theorem forced_close_books_entry_cost_only :
  forall tc df capital risk_params st,
    0 < tc ->
    run_loop tc (risk_position_size risk_params)
             (risk_stop_loss risk_params) (initial_locals capital) df
      = Ok st ->
    (0 < shares st)%Z ->
    exists pos last_row final tr prefix row rest before after,
      current_position st = Some pos /\
      iloc_last df = Ok last_row /\
      simulate_locals tc df capital risk_params = Ok final /\
      trades final = trades st ++ [tr] /\
      Trade.exit_reason tr = ExitReason.end_of_period /\
      Trade.exit_price tr = row_close last_row /\
      Trade.entry_price tr = row_close row /\
      Trade.entry_date tr = row_time row /\
      Trade.quantity tr = shares st /\
      (* the entry fill of the position, a step of this run *)
      df = prefix ++ row :: rest /\
      run_loop tc (risk_position_size risk_params)
               (risk_stop_loss risk_params) (initial_locals capital) prefix
        = Ok before /\
      step tc (risk_position_size risk_params) (risk_stop_loss risk_params)
           before row = Ok after /\
      run_loop tc (risk_position_size risk_params)
               (risk_stop_loss risk_params) after rest = Ok st /\
      shares before = 0%Z /\
      shares after = shares st /\
      cash after - cash before ==
        - (inject_Z (shares st) * row_close row * (1 + tc)) /\
      (* no bar between the entry and the end moves cash *)
      cash st = cash after /\
      (* only the entry-side cost is booked on the record *)
      Trade.transaction_cost tr == inject_Z (shares st) * row_close row * tc /\
      Trade.pnl tr ==
        (inject_Z (shares st) * row_close last_row
         - inject_Z (shares st) * row_close row)
        - inject_Z (shares st) * row_close row * tc /\
      (* the cash credited is net of an exit-side cost *)
      cash final - cash st ==
        inject_Z (shares st) * row_close last_row * (1 - tc) /\
      (* the pnl against the cash the trade moved, entry and exit *)
      Trade.pnl tr - (cash final - cash before) ==
        inject_Z (shares st) * row_close last_row * tc.
Proof.
  intros tc df capital rp st Htc Hrun Hsh.
  pose proof (run_loop_consistent _ _ _ df _ _
                (initial_consistent capital) Hrun) as Hc.
  unfold consistent in Hc.
  destruct (current_position st) as [pos |] eqn:Hpos; [| lia].
  destruct Hc as (_ & Hq & Hnz).
  destruct (entry_of_open_position _ _ _ _ _ _ _ Hrun Hpos)
    as (prefix & row & rest & before & after & Hdf & Hpre & Hentry & Hrest
        & Hflat & Hafter & Hcash & Hshares & Hprice & Hdate & Hqty & Hdebit
        & Hcost).
  destruct (iloc_last_nonempty df) as [last_row Hlast].
  { rewrite Hdf. destruct prefix; discriminate. }
  assert (Hev : ~ inject_Z (Position.quantity pos) * Position.entry_price pos
                  == 0).
  { apply Qmult_nonzero; [apply inject_Z_nonzero; lia | exact Hnz]. }
  eexists pos, last_row, _, _, prefix, row, rest, before, after.
  split; [reflexivity |]. split; [exact Hlast |].
  split.
  { unfold simulate_locals. rewrite Hrun. simpl.
    unfold close_open_position. apply Z.ltb_lt in Hsh. rewrite Hsh.
    rewrite Hlast. simpl. rewrite Hpos.
    rewrite (truediv_nonzero _ _ Hev). simpl. reflexivity. }
  split; [reflexivity |].
  cbn [trades cash Trade.exit_reason Trade.exit_price Trade.transaction_cost
       Trade.pnl Trade.entry_price Trade.entry_date Trade.quantity].
  split; [reflexivity |]. split; [reflexivity |].
  split; [exact Hprice |]. split; [exact Hdate |]. split; [reflexivity |].
  split; [exact Hdf |]. split; [exact Hpre |]. split; [exact Hentry |].
  split; [exact Hrest |]. split; [exact Hflat |].
  split; [symmetry; exact Hshares |].
  rewrite Hq, Hprice in Hdebit, Hcost.
  split; [rewrite Hdebit; ring |]. split; [exact Hcash |].
  split; [exact Hcost |].
  rewrite Hq, Hprice.
  split; [rewrite Hcost; ring |].
  split; [ring |]. rewrite Hcash, Hdebit, Hcost. ring.
Qed.

End Runs.

(** ** Series of a constant price *)

Section Series.
Import PyFloat Pandas Props.

Lemma Qltb_irrefl_eq (a b : Q) : a == b -> Qltb a b = false.
Proof.
  intro H. unfold Qltb. apply negb_false_iff, Qle_bool_iff. lra.
Qed.

Lemma length_map2 {A B C : Type} (f : A -> B -> C) (xs : list A) :
  forall ys, length (map2 f xs ys) = Nat.min (length xs) (length ys).
Proof.
  induction xs as [| x xs IH]; intros [| y ys]; simpl; auto.
Qed.

Lemma Forall_map2 {A B C : Type} (f : A -> B -> C)
      (P : A -> Prop) (Q : B -> Prop) (R : C -> Prop) :
  (forall x y, P x -> Q y -> R (f x y)) ->
  forall xs ys, Forall P xs -> Forall Q ys -> Forall R (map2 f xs ys).
Proof.
  intros Hf xs. induction xs as [| x xs IH]; intros [| y ys] Hx Hy; simpl;
    try constructor.
  - inversion Hx; inversion Hy; subst. auto.
  - inversion Hx; inversion Hy; subst. auto.
Qed.

Lemma nth_error_map2 {A B C : Type} (f : A -> B -> C) (xs : list A) :
  forall ys i x y,
    nth_error xs i = Some x -> nth_error ys i = Some y ->
    nth_error (map2 f xs ys) i = Some (f x y).
Proof.
  induction xs as [| a xs IH]; intros [| b ys] [| i] x y Hx Hy;
    simpl in *; try discriminate.
  - congruence.
  - eauto.
Qed.

Lemma Forall_firstn {A : Type} (P : A -> Prop) (n : nat) :
  forall l, Forall P l -> Forall P (firstn n l).
Proof.
  induction n as [| n IH]; intros [| x l] H; simpl; try constructor.
  - inversion H; assumption.
  - inversion H; auto.
Qed.

Lemma Forall_skipn {A : Type} (P : A -> Prop) (n : nat) :
  forall l, Forall P l -> Forall P (skipn n l).
Proof.
  induction n as [| n IH]; intros [| x l] H; simpl; auto.
  inversion H; auto.
Qed.

Lemma length_diff (s : list fval) : length (diff s) = length s.
Proof.
  destruct s as [| x t]; simpl; [reflexivity |].
  rewrite length_map2. simpl. f_equal.
  destruct t; simpl; [reflexivity | f_equal; apply Nat.min_l; lia].
Qed.

Lemma length_rolling_mean (w : nat) (s : list fval) :
  length (rolling_mean w s) = length s.
Proof.
  unfold rolling_mean. rewrite length_map, length_seq. reflexivity.
Qed.

Lemma diff_constant (c : Q) (s : list fval) :
  Forall (fun x => exists q, x = Fin q /\ q == c) s ->
  Forall nan_or_fin0 (diff s).
Proof.
  intro H. destruct s as [| x t]; simpl; constructor.
  - left. reflexivity.
  - inversion H as [| ? ? _ Ht]; subst.
    apply (Forall_map2 fsub _ _ _) with (2 := Ht) (3 := H).
    intros a b (qa & -> & Ha) (qb & -> & Hb).
    right. exists (qa + - qb). split; [reflexivity | lra].
Qed.

Lemma where_pos_zero (s : list fval) :
  Forall nan_or_fin0 s -> Forall fin0 (where_pos s).
Proof.
  intro H. unfold where_pos. apply Forall_map.
  eapply Forall_impl; [| exact H]. intros x [-> | (q & -> & Hq)]; simpl.
  - exists 0. split; reflexivity.
  - unfold fgt. simpl. rewrite Qltb_irrefl_eq by lra.
    exists 0. split; reflexivity.
Qed.

Lemma where_neg_zero (s : list fval) :
  Forall nan_or_fin0 s -> Forall fin0 (map fneg (where_neg s)).
Proof.
  intro H. unfold where_neg. rewrite map_map. apply Forall_map.
  eapply Forall_impl; [| exact H]. intros x [-> | (q & -> & Hq)]; simpl.
  - exists (- 0). split; reflexivity.
  - rewrite Qltb_irrefl_eq by lra. exists (- 0). split; reflexivity.
Qed.

Lemma window_mean_zero (w : nat) (win : list fval) :
  Forall fin0 win -> nan_or_fin0 (window_mean w win).
Proof.
  intro H. unfold window_mean.
  assert (Hfin : forallb is_fin win = true).
  { apply forallb_forall. rewrite Forall_forall in H.
    intros x Hx. destruct (H x Hx) as (q & -> & _). reflexivity. }
  assert (Hsum : Qsum (map fin_value win) == 0).
  { induction H as [| x l (q & -> & Hq) _ IH]; simpl; [reflexivity |].
    simpl in Hfin. rewrite (IH Hfin). lra. }
  rewrite Hfin. unfold fdiv.
  destruct (Qeq_bool (inject_Z (Z.of_nat w)) 0) eqn:E.
  - apply Qeq_bool_iff in Hsum. rewrite Hsum. left. reflexivity.
  - right. eexists. split; [reflexivity |]. rewrite Hsum.
    unfold Qdiv. ring.
Qed.

Lemma rolling_mean_zero (w : nat) (s : list fval) :
  Forall fin0 s -> Forall nan_or_fin0 (rolling_mean w s).
Proof.
  intro H. unfold rolling_mean. apply Forall_map, Forall_forall.
  intros i _. destruct (S i <? w)%nat; [left; reflexivity |].
  apply window_mean_zero. unfold window.
  apply Forall_firstn, Forall_skipn. exact H.
Qed.

End Series.

Section RSI.
Import PyFloat Pandas StrategyEngine Props.

Lemma rsi_length (s : list fval) (period : nat) :
  length (Indicators.rsi s period) = length s.
Proof.
  unfold Indicators.rsi, Indicators.gain, Indicators.loss.
  rewrite length_map, length_map2, !length_rolling_mean.
  unfold where_pos, where_neg. rewrite !length_map, length_diff.
  apply Nat.min_id.
Qed.

Lemma rsi_constant (c : Q) (s : list fval) (period : nat) :
  Forall (fun x => exists q, x = Fin q /\ q == c) s ->
  Forall (fun x => x = NaN) (Indicators.rsi s period).
Proof.
  intro H. apply diff_constant in H.
  unfold Indicators.rsi, Indicators.gain, Indicators.loss.
  apply Forall_map.
  apply (Forall_map2 fdiv nan_or_fin0 nan_or_fin0).
  - intros x y [-> | (qx & -> & Hx)] [-> | (qy & -> & Hy)]; simpl;
      try reflexivity.
    apply Qeq_bool_iff in Hx, Hy. rewrite Hx, Hy. reflexivity.
  - apply rolling_mean_zero, where_pos_zero, H.
  - apply rolling_mean_zero, where_neg_zero, H.
Qed.

Lemma with_signal_length (data : list OHLCV) (pos : list Z) :
  length pos = length data -> length (with_signal data pos) = length data.
Proof.
  intro H. unfold with_signal.
  rewrite length_map2, length_combine, length_diff.
  unfold Zseries. rewrite length_map, H. lia.
Qed.

Lemma with_signal_position (data : list OHLCV) (P : Z -> Prop) :
  forall pos, Forall P pos ->
  Forall (fun r => P (position r)) (with_signal data pos).
Proof.
  intros pos H. unfold with_signal.
  apply (Forall_map2 _ (fun _ => True) (fun ps => P (fst ps))).
  - intros r ps _ Hps. exact Hps.
  - apply Forall_forall. trivial.
  - apply Forall_forall. intros [p sg] Hin. apply in_combine_l in Hin.
    rewrite Forall_forall in H. apply H. exact Hin.
Qed.

End RSI.

Section Signals.
Import PyFloat Pandas StrategyEngine.

Lemma length_ewm_from (alpha : Q) (s : list Q) :
  forall prev, length (ewm_from alpha prev s) = length s.
Proof.
  induction s as [| x t IH]; intro prev; simpl; [reflexivity |].
  rewrite IH. reflexivity.
Qed.

Lemma length_ewm_values (span : nat) (s : list Q) :
  length (ewm_values span s) = length s.
Proof.
  destruct s as [| x t]; simpl; [reflexivity |].
  rewrite length_ewm_from. reflexivity.
Qed.

Lemma ewm_mean_inv (span : nat) (s out : list Q) :
  ewm_mean span s = Ok out -> (1 <= span)%nat /\ out = ewm_values span s.
Proof.
  unfold ewm_mean. destruct (span <? 1)%nat eqn:E; [discriminate |].
  apply Nat.ltb_ge in E. intro H. injection H as <-. auto.
Qed.

Lemma ewm_mean_valid (span : nat) (s : list Q) :
  (1 <= span)%nat -> ewm_mean span s = Ok (ewm_values span s).
Proof.
  intro H. unfold ewm_mean. apply Nat.ltb_ge in H. rewrite H. reflexivity.
Qed.

Lemma length_ewm_mean (span : nat) (s out : list Q) :
  ewm_mean span s = Ok out -> length out = length s.
Proof.
  intro H. apply ewm_mean_inv in H as [_ ->]. apply length_ewm_values.
Qed.

Lemma sma_length (s : list fval) (w : nat) :
  length (Indicators.sma s w) = length s.
Proof. apply length_rolling_mean. Qed.

Lemma close_series_length (data : list OHLCV) :
  length (close_series data) = length data.
Proof. apply length_map. Qed.




(** [macd] returns exactly when its three spans are at least 1, and then
    the three lines of the recursion. *)
Lemma macd_inv (s : list Q) (fast slow sig : nat) (m g h : list Q) :
  Indicators.macd s fast slow sig = Ok (m, g, h) ->
  ((1 <= fast)%nat /\ (1 <= slow)%nat /\ (1 <= sig)%nat) /\
  m = map2 Qminus (ewm_values fast s) (ewm_values slow s) /\
  g = ewm_values sig m /\
  h = map2 Qminus m g.
Proof.
  unfold Indicators.macd. intro H. bind_inv H. bind_inv H. bind_inv H.
  apply ewm_mean_inv in Ha as [Hf ->]. apply ewm_mean_inv in Ha0 as [Hs ->].
  apply ewm_mean_inv in Ha1 as [Hg ->]. injection H as <- <- <-. auto.
Qed.

Lemma macd_valid (s : list Q) (fast slow sig : nat) :
  (1 <= fast)%nat -> (1 <= slow)%nat -> (1 <= sig)%nat ->
  exists m g h, Indicators.macd s fast slow sig = Ok (m, g, h).
Proof.
  intros Hf Hs Hg. unfold Indicators.macd.
  rewrite (ewm_mean_valid fast s Hf), (ewm_mean_valid slow s Hs). cbn [bind].
  rewrite (ewm_mean_valid sig _ Hg). cbn [bind]. eauto.
Qed.

Lemma macd_span_below_1 (s : list Q) (fast slow sig : nat) :
  (fast < 1 \/ slow < 1 \/ sig < 1)%nat ->
  Indicators.macd s fast slow sig
    = Raise (ValueError "span must satisfy: span >= 1").
Proof.
  intro H. unfold Indicators.macd, ewm_mean.
  destruct (fast <? 1)%nat eqn:Ef; [reflexivity |].
  destruct (slow <? 1)%nat eqn:Es; [reflexivity |].
  destruct (sig <? 1)%nat eqn:Eg; [reflexivity |].
  apply Nat.ltb_ge in Ef, Es, Eg. lia.
Qed.

Lemma macd_lengths (s : list Q) (fast slow sig : nat) (m g h : list Q) :
  Indicators.macd s fast slow sig = Ok (m, g, h) ->
  length m = length s /\ length g = length s.
Proof.
  intro H. apply macd_inv in H as (_ & -> & -> & _).
  rewrite length_ewm_values, length_map2, !length_ewm_values, Nat.min_id.
  auto.
Qed.

Lemma macd_strategy_inv parameters data rows :
  _macd_strategy parameters data = Ok rows ->
  exists m g h,
    Indicators.macd (map close data) (get (fast parameters) 12%nat)
                    (get (slow parameters) 26%nat)
                    (get (signal_period parameters) 9%nat) = Ok (m, g, h) /\
    rows = with_signal data (map2 macd_position m g).
Proof.
  unfold _macd_strategy. intro H. bind_inv H. destruct a as [[m g] h].
  injection H as <-. eauto.
Qed.

Lemma combined_strategy_inv parameters data rows :
  _combined_strategy parameters data = Ok rows ->
  exists m g h,
    Indicators.macd (map close data) 12 26 9 = Ok (m, g, h) /\
    rows =
      with_signal data
        (map combined_position
           (combine
              (combine
                 (map2 fgt
                    (Indicators.sma (close_series data)
                                    (get (short_window parameters) 50%nat))
                    (Indicators.sma (close_series data)
                                    (get (long_window parameters) 200%nat)))
                 (map (fun r => flt r (Fin (get (rsi_overbought parameters)
                                                70)))
                      (Indicators.rsi (close_series data)
                                      (get (rsi_period parameters) 14%nat))))
              (map2 (fun m s => Qltb s m) m g))).
Proof.
  unfold _combined_strategy. intro H. bind_inv H. destruct a as [[m g] h].
  injection H as <-. eauto.
Qed.

(** The combined strategy calls [macd] with its default spans, so it
    raises nothing. *)
Lemma combined_strategy_runs parameters data :
  exists rows, _combined_strategy parameters data = Ok rows.
Proof.
  unfold _combined_strategy.
  destruct (macd_valid (map close data) 12 26 9) as (m & g & h & ->);
    try lia.
  cbn [bind]. eauto.
Qed.



Lemma combined_strategy_length parameters data rows :
  _combined_strategy parameters data = Ok rows -> length rows = length data.
Proof.
  intro H. apply combined_strategy_inv in H as (m & g & h & Hm & ->).
  apply macd_lengths in Hm as [H1 H2].
  apply with_signal_length.
  rewrite length_map, !length_combine, !length_map2, length_map.
  rewrite !sma_length, rsi_length, close_series_length, H1, H2, length_map.
  lia.
Qed.



End Signals.

(** ** Metrics *)

Section Metrics.
Import PyFloat Pandas StrategyEngine BacktestEngine Props.

Lemma filter_none {A : Type} (f : A -> bool) (l : list A) :
  Forall (fun x => f x = false) l -> filter f l = [].
Proof.
  induction 1 as [| x l Hx _ IH]; simpl; [reflexivity |].
  rewrite Hx. exact IH.
Qed.

Lemma sharpe_degenerate np_sqrt mean_return std_return :
  std_return = NaN \/ feq std_return (Fin 0) ->
  sharpe np_sqrt mean_return std_return = Fin 0.
Proof.
  unfold sharpe, fgt. intros [-> | H]; [reflexivity |].
  destruct std_return as [q | | |]; simpl in H; try contradiction.
  simpl. rewrite (proj2 (Qltb_ge 0 q)) by lra. reflexivity.
Qed.

Lemma profit_factor_without_losses trades :
  Forall (fun t => ~ Trade.pnl t < 0) trades ->
  profit_factor (_calculate_trade_stats trades) = 0.
Proof.
  intro H. unfold _calculate_trade_stats.
  destruct (negb (nonempty trades)); [reflexivity |].
  rewrite (filter_none (fun t => Qltb (Trade.pnl t) 0)).
  - reflexivity.
  - eapply Forall_impl; [| exact H]. intros t Ht. simpl.
    apply Qltb_ge. apply Qnot_lt_le. exact Ht.
Qed.

Lemma iloc_last_map_nonempty {A B : Type} (f : A -> B) (l : list A) :
  l <> [] -> exists x, iloc_last (map f l) = Ok x.
Proof.
  intro H. unfold iloc_last. rewrite <- map_rev.
  destruct (rev l) as [| x r] eqn:E; [| simpl; eauto].
  apply (f_equal (@rev A)) in E. rewrite rev_involutive in E. contradiction.
Qed.

(** C8.  The metrics of a non-empty equity curve are computed without an
    exception; the Sharpe ratio is 0 when the standard deviation of the
    returns is 0 or [nan]; the profit factor is 0 when no trade loses; with
    no trade at all every trade statistic is 0. *)
Theorem degenerate_metrics_are_zero :
  forall (np_sqrt : fval -> fval) (portfolio_df : PortfolioDF)
         (initial_capital : Q) (trades_list : list Trade.t),
    points portfolio_df <> [] ->
    exists m,
      _calculate_metrics np_sqrt portfolio_df initial_capital = Ok m /\
      ((std np_sqrt
            (pct_change
               (map Fin (map PortfolioValue.total (points portfolio_df))))
          = NaN \/
        feq (std np_sqrt
               (pct_change
                  (map Fin (map PortfolioValue.total (points portfolio_df)))))
            (Fin 0)) ->
       sharpe_ratio (update m (_calculate_trade_stats trades_list)) = Fin 0) /\
      (Forall (fun t => ~ Trade.pnl t < 0) trades_list ->
       profit_factor (stats (update m (_calculate_trade_stats trades_list)))
         = 0) /\
      (trades_list = [] ->
       stats (update m (_calculate_trade_stats trades_list)) = zero_stats).
Proof.
  intros np_sqrt portfolio_df initial_capital trades_list Hne.
  destruct (iloc_last_map_nonempty PortfolioValue.total _ Hne) as [fv Hfv].
  eexists. split.
  - unfold _calculate_metrics. rewrite Hfv. simpl. reflexivity.
  - cbn [update sharpe_ratio stats]. split; [| split].
    + apply sharpe_degenerate.
    + apply profit_factor_without_losses.
    + intros ->. reflexivity.
Qed.

End Metrics.

(** ** A run without capital *)

Section Idle.
Import PyFloat StrategyEngine BacktestEngine Props.

Variables tc ps sl capital : Q.
Hypothesis capital_nonpos : capital <= 0.
Hypothesis tc_nonneg : 0 <= tc.
Hypothesis ps_nonneg : 0 <= ps.



End Idle.

Section Orchestrator.
Import PyFloat StrategyEngine BacktestEngine Props.


(** The configuration errors of [run_backtest], whatever the capital: a
    strategy or a stock that is not found, a window without bars, a
    strategy type that is not supported. *)
Theorem run_backtest_configuration_errors :
  forall (np_sqrt : fval -> fval) (db : DB) (transaction_cost : Q)
         (strategy_id : Z) (stock_symbol : string) (start_date end_date : Z)
         (initial_capital : Q),
    (query_strategy db strategy_id = None ->
     run_backtest np_sqrt db transaction_cost strategy_id stock_symbol
                  start_date end_date initial_capital
       = Raise (ValueError "Strategy not found")) /\
    (forall strategy,
        query_strategy db strategy_id = Some strategy ->
        query_stock db stock_symbol = None ->
        run_backtest np_sqrt db transaction_cost strategy_id stock_symbol
                     start_date end_date initial_capital
          = Raise (ValueError "Stock not found")) /\
    (forall strategy stock_id,
        query_strategy db strategy_id = Some strategy ->
        query_stock db stock_symbol = Some stock_id ->
        query_ohlcv db stock_id start_date end_date = [] ->
        run_backtest np_sqrt db transaction_cost strategy_id stock_symbol
                     start_date end_date initial_capital
          = Raise (ValueError "No data found")) /\
    (forall strategy stock_id,
        query_strategy db strategy_id = Some strategy ->
        query_stock db stock_symbol = Some stock_id ->
        query_ohlcv db stock_id start_date end_date <> [] ->
        ~ In (strategy_type strategy)
             ["ma_crossover"; "rsi"; "macd"; "combined"]%string ->
        run_backtest np_sqrt db transaction_cost strategy_id stock_symbol
                     start_date end_date initial_capital
          = Raise (ValueError "Unknown strategy type")).
Proof.
  intros np_sqrt db tc strategy_id stock_symbol start_date end_date capital.
  unfold run_backtest. repeat split.
  - intros ->. reflexivity.
  - intros strategy -> ->. reflexivity.
  - intros strategy stock_id -> -> ->. reflexivity.
  - intros strategy stock_id -> -> Hne Hty.
    destruct (query_ohlcv db stock_id start_date end_date); [congruence |].
    cbn [nonempty negb]. unfold generate_signals.
    destruct (String.eqb_spec (strategy_type strategy) "ma_crossover")
      as [E | _]; [exfalso; apply Hty; rewrite E; simpl; auto |].
    destruct (String.eqb_spec (strategy_type strategy) "rsi")
      as [E | _]; [exfalso; apply Hty; rewrite E; simpl; auto |].
    destruct (String.eqb_spec (strategy_type strategy) "macd")
      as [E | _]; [exfalso; apply Hty; rewrite E; simpl; auto |].
    destruct (String.eqb_spec (strategy_type strategy) "combined")
      as [E | _]; [exfalso; apply Hty; rewrite E; simpl; auto |].
    reflexivity.
Qed.

(** No strategy has id 2 in the scenario's database. *)
Lemma run_backtest_configuration_errors_witness :
  run_backtest Scenario.approx_sqrt Scenario.db 0 2 "TEST.NS" 0 345600 1000
    = Raise (ValueError "Strategy not found").
Proof.
  apply (run_backtest_configuration_errors Scenario.approx_sqrt Scenario.db
           0 2%Z
           "TEST.NS"%string 0%Z 345600%Z 1000).
  reflexivity.
Defined.


End Orchestrator.

(** ** Concrete runs *)

Section Concrete.
Import PyFloat Pandas StrategyEngine BacktestEngine Props Scenario.

(** C1.  When the loop ends with shares held, the end-of-period block
    appends a trade closed at the last bar's close and labelled
    [end_of_period], but it leaves [shares] and [current_position] as they
    were: the run does not end flat. *)
Theorem forced_close_leaves_shares :
  forall tc df capital risk_params st,
    run_loop tc (risk_position_size risk_params)
             (risk_stop_loss risk_params) (initial_locals capital) df
      = Ok st ->
    (0 < shares st)%Z ->
    exists last_row final tr,
      iloc_last df = Ok last_row /\
      simulate_locals tc df capital risk_params = Ok final /\
      trades final = trades st ++ [tr] /\
      Trade.exit_reason tr = ExitReason.end_of_period /\
      Trade.exit_price tr = row_close last_row /\
      Trade.exit_date tr = row_time last_row /\
      shares final = shares st /\
      current_position final = current_position st /\
      current_position final <> None /\
      portfolio_values final = portfolio_values st.
Proof.
  intros tc df capital rp st Hrun Hsh.
  pose proof (run_loop_consistent _ _ _ df _ _
                (initial_consistent capital) Hrun) as Hc.
  unfold consistent in Hc.
  destruct (current_position st) as [pos |] eqn:Hpos; [| lia].
  destruct Hc as (_ & Hq & Hnz).
  destruct (iloc_last_nonempty df) as [last_row Hlast].
  { intros ->. injection Hrun as <-. simpl in Hsh. lia. }
  assert (Hev : ~ inject_Z (Position.quantity pos) * Position.entry_price pos
                  == 0).
  { apply Qmult_nonzero; [apply inject_Z_nonzero; lia | exact Hnz]. }
  eexists last_row, _, _. split; [exact Hlast |]. split.
  { unfold simulate_locals. rewrite Hrun. simpl.
    unfold close_open_position. apply Z.ltb_lt in Hsh. rewrite Hsh.
    rewrite Hlast. simpl. rewrite Hpos.
    rewrite (truediv_nonzero _ _ Hev). simpl. reflexivity. }
  simpl. repeat split; try reflexivity; try exact Hpos. discriminate.
Qed.

(** A buy of 10 shares at 100 held over a second bar at 110: the run returns
    with 10 shares and the position still set. *)
Lemma forced_close_leaves_shares_witness :
  exists st final,
    run_loop 0 1 0 (initial_locals 1000) buy_and_hold = Ok st /\
    simulate_locals 0 buy_and_hold 1000 all_in = Ok final /\
    shares final = 10%Z /\ current_position final <> None /\
    map Trade.exit_reason (trades final) = [ExitReason.end_of_period].
Proof.
  eexists. 
  destruct (forced_close_leaves_shares 0 buy_and_hold 1000 all_in
              {| cash := 0; shares := 10;
                 current_position := Some (Position.mk 0 100 10 0);
                 trades := [];
                 portfolio_values := 
                   [PortfolioValue.mk 0 0 1000 1000;
                    PortfolioValue.mk 86400 0 1100 1100] |})
    as (last_row & final & tr & Hlast & Hsim & Htr & Hreason & _ & _ & Hsh
        & _ & Hpos & _).
  - vm_compute. reflexivity.
  - reflexivity.
  - exists final. split; [vm_compute; reflexivity |].
    split; [exact Hsim |]. split; [exact Hsh |]. split; [exact Hpos |].
    rewrite Htr, <- Hreason. reflexivity.
Defined.

(** The position of the rsi strategy depends on the bar's own rsi only:
    between the thresholds it is 0. *)
Lemma rsi_position_between (oversold overbought r : Q) :
  oversold <= r -> r <= overbought ->
  rsi_position oversold overbought (Fin r) = 0%Z.
Proof.
  intros Hlo Hhi. unfold rsi_position, fgt. simpl.
  rewrite (proj2 (Qltb_ge r oversold) Hlo).
  rewrite (proj2 (Qltb_ge overbought r) Hhi). reflexivity.
Qed.

(** C2.  On the closes 100, 90, 80, 85 with period 2 and thresholds 30 and
    70, the rsi is below 30 on the third bar and between the thresholds on
    the fourth; the position is 1 on the third bar and 0 on the fourth: it
    does not persist. *)
Theorem rsi_position_has_no_hysteresis :
  exists r2 r3,
    nth_error (Indicators.rsi (close_series falling_bars) 2) 2 = Some r2 /\
    nth_error (Indicators.rsi (close_series falling_bars) 2) 3 = Some r3 /\
    flt r2 (Fin 30) = true /\
    flt r3 (Fin 30) = false /\ fgt r3 (Fin 70) = false /\
    map position (_rsi_strategy rsi_2 falling_bars) = [0; 1; 1; 0]%Z.
Proof.
  eexists _, _. split; [vm_compute; reflexivity |].
  split; [vm_compute; reflexivity |].
  repeat split; vm_compute; reflexivity.
Qed.

(** C3, as stated, fails on the five-bar scenario: the run does not
    consist of one trade ending at a total of 1050. *)
Lemma five_bar_scenario_is_not_one_buy_to_1050 :
  ~ (exists rows portfolio_df trades final_total,
        generate_signals "ma_crossover" ma_1_2 five_bars = Ok rows /\
        _simulate_trading 0 rows 1000 all_in = Ok (portfolio_df, trades) /\
        length trades = 1%nat /\
        iloc_last (map PortfolioValue.total (points portfolio_df))
          = Ok final_total /\
        final_total == 1050).
Proof.
  intros (rows & pdf & trades & v & Hgen & Hsim & Hlen & _).
  injection Hgen as <-. vm_compute in Hsim. injection Hsim as _ <-.
  discriminate Hlen.
Qed.

(** C3, as the code has it.  On the five-bar scenario the backtest buys 9
    shares on bar 2 (at 102), sells them on the signal of bar 3 (at 99),
    buys 9 shares again on bar 4 (at 101) and closes them at the end of the
    period on bar 5; the final total is 1009 and the total return
    9/1000. *)
Theorem five_bar_scenario :
  forall np_sqrt : fval -> fval,
  exists rows r,
    generate_signals "ma_crossover" ma_1_2 five_bars = Ok rows /\
    map position rows = [0; 1; 0; 1; 1]%Z /\
    run_backtest np_sqrt db 0 1 "TEST.NS" 0 345600 1000 = Ok r /\
    map Trade.entry_date (result_trades r) = [86400; 259200]%Z /\
    map Trade.entry_price (result_trades r) = [102; 101] /\
    map Trade.exit_date (result_trades r) = [172800; 345600]%Z /\
    map Trade.exit_price (result_trades r) = [99; 105] /\
    map Trade.quantity (result_trades r) = [9; 9]%Z /\
    map Trade.exit_reason (result_trades r)
      = [ExitReason.signal; ExitReason.end_of_period] /\
    final_value (metrics r) == 1009 /\
    feq (total_return (metrics r)) (Fin (9 # 1000)).
Proof.
  intro np_sqrt. eexists _, _. split; [reflexivity |].
  split; [vm_compute; reflexivity |]. split; [vm_compute; reflexivity |].
  repeat split; vm_compute; reflexivity.
Qed.


(** Entry at 100 with a 5% stop; the next bar closes at 94 and carries a buy
    signal: the position is sold with the label [stop_loss]. *)
Lemma stop_loss_overrides_signal_witness :
  exists st st' tr,
    run_loop (5 # 10000) 1 (5 # 100) (initial_locals 1000) buy_then_drop
      = Ok st /\
    check_stop_loss (5 # 100) st (signal drop_row) (row_close drop_row)
      = Ok (Fin (-1)) /\
    step (5 # 10000) 1 (5 # 100) st drop_row = Ok st' /\
    trades st' = trades st ++ [tr] /\
    Trade.exit_reason tr = ExitReason.stop_loss /\
    shares st' = 0%Z.
Proof.
  edestruct (stop_loss_overrides_signal (5 # 10000) 1 (5 # 100) 1000
               buy_then_drop) with (row := drop_row)
    as (Hchk & st' & tr & Hstep & Htr & Hreason & _ & _ & _ & _ & Hsh & _).
  - vm_compute. reflexivity.
  - reflexivity.
  - reflexivity.
  - vm_compute. discriminate.
  - eexists _, st', tr. split; [vm_compute; reflexivity |].
    split; [exact Hchk |]. split; [exact Hstep |]. split; [exact Htr |].
    split; [exact Hreason | exact Hsh].
Defined.

Ltac qcompare := vm_compute; first [reflexivity | discriminate].

(** The second bar of a buy-then-sell run. *)
Lemma cash_and_shares_never_negative_witness :
  exists st st',
    run_loop (5 # 10000) 1 0 (initial_locals 1000)
             [mkSignalRow 0 100 0 (Fin 1)] = Ok st /\
    step (5 # 10000) 1 0 st (mkSignalRow 86400 110 0 (Fin (-1))) = Ok st' /\
    0 <= cash st' /\ (0 <= shares st')%Z /\
    backed_by_fill (5 # 10000) 110 st st'.
Proof.
  edestruct (cash_and_shares_never_negative (5 # 10000) 1 0 1000 round_trip)
    with (prefix := [mkSignalRow 0 100 0 (Fin 1)])
         (row := mkSignalRow 86400 110 0 (Fin (-1)))
         (rest := @nil SignalRow)
    as (st & Hrun & Hstep & Hc & Hs & Hfill).
  - qcompare.
  - qcompare.
  - qcompare.
  - qcompare.
  - qcompare.
  - repeat constructor; qcompare.
  - reflexivity.
  - vm_compute. reflexivity.
  - exists st. eexists. repeat split; eassumption.
Defined.

(** The first bar of a buy-then-sell run. *)
Lemma equity_point_matches_post_fill_state_witness :
  exists final st' pv,
    run_loop (5 # 10000) 1 0 (initial_locals 1000) round_trip = Ok final /\
    run_loop (5 # 10000) 1 0 (initial_locals 1000)
             [mkSignalRow 0 100 0 (Fin 1)] = Ok st' /\
    nth_error (portfolio_values final) 0 = Some pv /\
    PortfolioValue.cash pv = cash st' /\
    PortfolioValue.holdings pv = inject_Z (shares st') * 100 /\
    PortfolioValue.total pv =
      PortfolioValue.cash pv + PortfolioValue.holdings pv.
Proof.
  edestruct (equity_point_matches_post_fill_state (5 # 10000) 1 0 1000 []
               (mkSignalRow 0 100 0 (Fin 1))
               [mkSignalRow 86400 110 0 (Fin (-1))])
    as (st' & pv & Hrun & Hnth & _ & Hc & Hh & Ht & _).
  - vm_compute. reflexivity.
  - eexists _, st', pv. split; [vm_compute; reflexivity |].
    split; [exact Hrun |]. split; [exact Hnth |]. split; [exact Hc |].
    split; [exact Hh | exact Ht].
Defined.

(** Nine shares bought at 100 and closed at 110 at the end of the period,
    at a cost rate of 0.05%. *)
Lemma forced_close_books_entry_cost_only_witness :
  exists st final tr,
    run_loop (5 # 10000) 1 0 (initial_locals 1000) buy_and_hold = Ok st /\
    simulate_locals (5 # 10000) buy_and_hold 1000 all_in = Ok final /\
    trades final = trades st ++ [tr] /\
    shares st = 9%Z /\
    Trade.transaction_cost tr == inject_Z 9 * 100 * (5 # 10000) /\
    cash final - cash st == inject_Z 9 * 110 * (1 - (5 # 10000)) /\
    Trade.pnl tr - (cash final - 1000) == inject_Z 9 * 110 * (5 # 10000).
Proof.
  edestruct (forced_close_books_entry_cost_only (5 # 10000) buy_and_hold 1000
               all_in)
    as (pos & last_row & final & tr & prefix & row & rest & before & after
        & Hpos & Hlast & Hsim & Htr & _ & _ & Hprice & _ & _ & Hdf & Hpre
        & _ & _ & _ & _ & _ & _ & Hcost & _ & Hcash & Hgap).
  - qcompare.
  - vm_compute. reflexivity.
  - qcompare.
  - vm_compute in Hlast. injection Hlast as <-.
    assert (Hfinal := Hsim). vm_compute in Hfinal. injection Hfinal as <-.
    assert (Htrade := Htr). vm_compute in Htrade. injection Htrade as <-.
    vm_compute in Hprice.
    assert (Hrow : prefix = [] /\ row_close row = 100).
    { destruct prefix as [| r0 [| r1 prefix]]; vm_compute in Hdf.
      - injection Hdf as <- _. split; reflexivity.
      - injection Hdf as _ <- _. vm_compute in Hprice. discriminate Hprice.
      - injection Hdf as _ _ Hnil. destruct prefix; discriminate Hnil. }
    destruct Hrow as [-> Hrow]. vm_compute in Hpre. injection Hpre as <-.
    rewrite Hrow in Hcost.
    eexists _, _, _. split; [reflexivity |]. split; [exact Hsim |].
    split; [exact Htr |]. split; [reflexivity |]. split; [exact Hcost |].
    split; [exact Hcash | exact Hgap].
Defined.

(** A flat two-point equity curve and no trade. *)
Lemma degenerate_metrics_are_zero_witness :
  exists m,
    _calculate_metrics approx_sqrt
      {| points := [PortfolioValue.mk 0 1000 0 1000;
                    PortfolioValue.mk 86400 1000 0 1000];
         cummax := [1000; 1000];
         drawdown := [Fin 0; Fin 0] |} 1000 = Ok m /\
    sharpe_ratio (update m (_calculate_trade_stats [])) = Fin 0 /\
    stats (update m (_calculate_trade_stats [])) = zero_stats.
Proof.
  destruct (degenerate_metrics_are_zero approx_sqrt
              {| points := [PortfolioValue.mk 0 1000 0 1000;
                            PortfolioValue.mk 86400 1000 0 1000];
                 cummax := [1000; 1000];
                 drawdown := [Fin 0; Fin 0] |} 1000 [])
    as (m & Hm & Hsharpe & _ & Hstats).
  - discriminate.
  - exists m. split; [exact Hm |]. split.
    + apply Hsharpe. left. vm_compute. reflexivity.
    + apply Hstats. reflexivity.
Defined.


End Concrete.

(** * Further properties *)

(** ** The ledger of a run *)

Section LedgerProofs.
Import PyFloat StrategyEngine BacktestEngine Props Ledger.

Variables tc ps sl : Q.

Lemma Qsum_app (l l' : list Q) :
  Pandas.Qsum (l ++ l') == Pandas.Qsum l + Pandas.Qsum l'.
Proof.
  induction l as [| x l IH]; simpl.
  - ring.
  - rewrite IH. ring.
Qed.

Lemma realised_pnl_snoc (trades : list Trade.t) (t : Trade.t) :
  realised_pnl (trades ++ [t]) == realised_pnl trades + Trade.pnl t.
Proof.
  unfold realised_pnl. rewrite map_app, Qsum_app. simpl. ring.
Qed.

(** The pnl a sale records. *)
Lemma sell_pnl st p t mid :
  sell tc sl st p t = Ok mid ->
  exists pos tr,
    current_position st = Some pos /\
    trades mid = trades st ++ [tr] /\
    Trade.pnl tr =
      (inject_Z (shares st) * p
       - inject_Z (Position.quantity pos) * Position.entry_price pos)
      - (Position.transaction_cost pos
         + (inject_Z (shares st) * p
            - inject_Z (shares st) * (p * (1 - tc)))) /\
    Trade.transaction_cost tr =
      Position.transaction_cost pos
      + (inject_Z (shares st) * p - inject_Z (shares st) * (p * (1 - tc))) /\
    Trade.hold_period_days tr = days (t - Position.entry_date pos).
Proof.
  unfold sell. destruct (current_position st) as [pos |]; [| discriminate].
  intro H. bind_inv H. bind_inv H. injection H as <-.
  eexists pos, _. simpl. repeat split; reflexivity.
Qed.

Lemma step_ledger capital st row st' :
  consistent st -> entry_cost_recorded tc st ->
  cash st + open_debit tc st - capital == realised_pnl (trades st) ->
  step tc ps sl st row = Ok st' ->
  entry_cost_recorded tc st' /\
  cash st' + open_debit tc st' - capital == realised_pnl (trades st').
Proof.
  intros Hc He Hinv H.
  pose proof (step_fill _ _ _ _ _ _ H) as [Hf | [Hf | Hf]].
  - destruct Hf as (Hcash & _ & Hpos & Htr).
    unfold entry_cost_recorded, open_debit in *. rewrite Hcash, Hpos, Htr.
    auto.
  - destruct Hf as (Hs0 & _ & n & _ & _ & Hcash & _ & Hpos & Htr).
    unfold consistent in Hc.
    destruct (current_position st) as [pos |] eqn:Hp0; [lia |].
    unfold entry_cost_recorded, open_debit in *.
    rewrite Hp0 in Hinv. rewrite Hpos, Hcash, Htr. simpl. split; [ring |].
    rewrite <- Hinv. ring.
  - apply step_inv in H as (sig & mid & _ & Hp & ->).
    destruct Hf as (Hsh & _ & Hs' & _). simpl in Hs'.
    apply process_signal_inv in Hp as [(_ & Hs0 & _) | [(_ & _ & Hsell) | ->]];
      [lia | | lia].
    pose proof (sell_inv _ _ _ _ _ _ Hsell)
      as (pos & tr & Hpos & Hcash & _ & Hnone & Htr & _).
    pose proof (sell_pnl _ _ _ _ Hsell)
      as (pos' & tr' & Hpos' & Htr' & Hpnl & _).
    rewrite Hpos in Hpos'. injection Hpos' as <-.
    rewrite Htr in Htr'. apply app_inj_tail in Htr' as [_ <-].
    unfold entry_cost_recorded, open_debit, consistent in *. simpl.
    rewrite Hnone, Hcash, Htr. rewrite Hpos in Hinv, He, Hc.
    destruct Hc as (_ & Hq & _). split; [exact I |].
    rewrite realised_pnl_snoc, <- Hinv, Hpnl. rewrite He, Hq. ring.
Qed.

Lemma run_loop_ledger capital df : forall st st',
  consistent st -> entry_cost_recorded tc st ->
  cash st + open_debit tc st - capital == realised_pnl (trades st) ->
  run_loop tc ps sl st df = Ok st' ->
  entry_cost_recorded tc st' /\
  cash st' + open_debit tc st' - capital == realised_pnl (trades st').
Proof.
  unfold run_loop. induction df as [| row df IH]; simpl;
    intros st st' Hc He Hinv H.
  - injection H as <-. auto.
  - bind_inv H.
    destruct (step_ledger capital _ _ _ Hc He Hinv Ha) as [He' Hinv'].
    apply (IH a st'); try assumption.
    apply (step_consistent tc ps sl st row a Hc Ha).
Qed.

End LedgerProofs.

Section LedgerTheorems.
Import PyFloat StrategyEngine BacktestEngine Props Ledger.

(** Every bar's fill takes exactly the fee out of the equity. *)
Theorem fill_costs_the_fee :
  forall tc ps sl st row st',
    step tc ps sl st row = Ok st' ->
    cash st' + inject_Z (shares st') * row_close row ==
      cash st + inject_Z (shares st) * row_close row
      - fill_fee tc (row_close row) st st' /\
    exists pv,
      portfolio_values st' = portfolio_values st ++ [pv] /\
      PortfolioValue.total pv ==
        cash st + inject_Z (shares st) * row_close row
        - fill_fee tc (row_close row) st st'.
Proof.
  intros tc ps sl st row st' H.
  assert (Heq : cash st' + inject_Z (shares st') * row_close row ==
                cash st + inject_Z (shares st) * row_close row
                - fill_fee tc (row_close row) st st').
  { unfold fill_fee.
    destruct (step_fill _ _ _ _ _ _ H) as [Hf | [Hf | Hf]].
    - destruct Hf as (Hc & Hs & _). rewrite Hc, Hs, Z.sub_diag. simpl. ring.
    - destruct Hf as (Hs0 & _ & n & Hn & _ & Hc & Hs & _).
      rewrite Hc, Hs, Hs0, Z.sub_0_r, Z.abs_eq by lia. ring.
    - destruct Hf as (Hsh & Hc & Hs & _).
      rewrite Hc, Hs, Z.sub_0_l, Z.abs_opp, Z.abs_eq by lia. ring. }
  split; [exact Heq |].
  exists (equity_point st' row). split; [apply (step_portfolio _ _ _ _ _ _ H) |].
  simpl. exact Heq.
Qed.

(** The realised pnl accounts for the cash: inside the loop up to the
    purchase of the open position, and at the end of the run exactly when
    the loop ended flat; a forced close leaves the unbooked exit cost. *)
Theorem realised_pnl_accounts_for_cash :
  forall tc df capital risk_params final,
    simulate_locals tc df capital risk_params = Ok final ->
    exists st,
      run_loop tc (risk_position_size risk_params)
               (risk_stop_loss risk_params) (initial_locals capital) df
        = Ok st /\
      cash st + open_debit tc st - capital == realised_pnl (trades st) /\
      (shares st = 0%Z ->
       cash final - capital == realised_pnl (trades final)) /\
      ((0 < shares st)%Z ->
       exists last_row,
         iloc_last df = Ok last_row /\
         cash final - capital ==
           realised_pnl (trades final)
           - inject_Z (shares st) * row_close last_row * tc).
Proof.
  intros tc df capital rp final H. unfold simulate_locals in H.
  bind_inv H. rename a into st. exists st. split; [exact Ha |].
  pose proof (run_loop_consistent _ _ _ df _ _
                (initial_consistent capital) Ha) as Hc.
  assert (H0 : cash (initial_locals capital)
               + open_debit tc (initial_locals capital) - capital
               == realised_pnl (trades (initial_locals capital))).
  { unfold open_debit, realised_pnl. simpl. ring. }
  destruct (run_loop_ledger tc (risk_position_size rp) (risk_stop_loss rp)
              capital df (initial_locals capital) st
              (initial_consistent capital) I H0 Ha) as [He Hinv].
  split; [exact Hinv |].
  unfold close_open_position in H. split.
  - intro Hs. rewrite Hs in H. simpl in H. injection H as <-.
    unfold consistent, open_debit in *.
    destruct (current_position st); [lia |]. rewrite <- Hinv. ring.
  - intro Hs. apply Z.ltb_lt in Hs. rewrite Hs in H.
    bind_inv H. rename a into last_row. exists last_row.
    split; [exact Ha0 |].
    unfold consistent, open_debit, entry_cost_recorded in *.
    destruct (current_position st) as [pos |]; [| discriminate].
    bind_inv H. injection H as <-. simpl.
    destruct Hc as (_ & Hq & _).
    rewrite realised_pnl_snoc, <- Hinv. simpl. rewrite He, Hq. ring.
Qed.

End LedgerTheorems.

Section TradeRecords.
Import PyFloat StrategyEngine BacktestEngine Props Ledger.

Variables tc ps sl : Q.

Lemma days_nonneg (d : Z) : (0 <= d)%Z -> (0 <= days d)%Z.
Proof.
  intro H. unfold days. apply Z.div_pos; lia.
Qed.

Lemma step_trades T st row rest st' :
  consistent st ->
  (row_time row <= T)%Z ->
  Forall (fun r => (row_time row < row_time r)%Z) rest ->
  entered_before T (row :: rest) st ->
  Forall (loop_trade sl) (trades st) ->
  step tc ps sl st row = Ok st' ->
  entered_before T rest st' /\ Forall (loop_trade sl) (trades st').
Proof.
  intros Hc HT Hrest Hent Htr H.
  pose proof (step_fill _ _ _ _ _ _ H) as [Hf | [Hf | Hf]].
  - destruct Hf as (_ & _ & Hpos & Htr'). unfold entered_before in *.
    rewrite Hpos, Htr'. split; [| exact Htr].
    destruct (current_position st); [| exact I].
    destruct Hent as [Hle Hall]. split; [exact Hle |].
    apply Forall_cons_iff in Hall as [_ Hall]. exact Hall.
  - destruct Hf as (_ & _ & n & _ & _ & _ & _ & Hpos & Htr').
    unfold entered_before. rewrite Hpos, Htr'. simpl. auto.
  - apply step_inv in H as (sig & mid & _ & Hp & ->).
    destruct Hf as (Hsh & _ & Hs' & _). simpl in Hs'.
    apply process_signal_inv in Hp as [(_ & Hs0 & _) | [(_ & _ & Hsell) | ->]];
      [lia | | lia].
    pose proof (sell_inv _ _ _ _ _ _ Hsell)
      as (pos & tr & Hpos & _ & _ & Hnone & Htr' & _ & Hreason & _ & Hxd
          & Hq & _ & Hed).
    pose proof (sell_pnl _ _ _ _ _ _ Hsell)
      as (pos' & tr' & Hpos' & Htr'' & _ & _ & Hhold).
    rewrite Hpos in Hpos'. injection Hpos' as <-.
    rewrite Htr' in Htr''. apply app_inj_tail in Htr'' as [_ <-].
    unfold entered_before in *. simpl. rewrite Hnone, Htr'.
    split; [exact I |]. apply Forall_app. split; [exact Htr |].
    constructor; [| constructor].
    rewrite Hpos in Hent. destruct Hent as [_ Hall].
    apply Forall_cons_iff in Hall as [Hlt _].
    unfold loop_trade. rewrite Hq, Hed, Hxd, Hhold.
    split; [exact Hsh |]. split; [exact Hlt |].
    split; [apply days_nonneg; lia |].
    apply sale_reason_inv in Hreason as [(-> & Hsl & _) | (-> & _)].
    + split; [discriminate | auto].
    + split; discriminate.
Qed.

Lemma run_loop_trades T df : forall st st',
  consistent st ->
  StronglySorted Z.lt (map row_time df) ->
  Forall (fun r => (row_time r <= T)%Z) df ->
  entered_before T df st ->
  Forall (loop_trade sl) (trades st) ->
  run_loop tc ps sl st df = Ok st' ->
  entered_before T [] st' /\ Forall (loop_trade sl) (trades st').
Proof.
  unfold run_loop. induction df as [| row df IH]; simpl;
    intros st st' Hc Hsorted HT Hent Htr H.
  - injection H as <-. auto.
  - bind_inv H. apply StronglySorted_inv in Hsorted as [Hsorted Hhd].
    apply Forall_cons_iff in HT as [HTrow HTrest].
    rewrite Forall_map in Hhd.
    destruct (step_trades T st row df a Hc HTrow Hhd Hent Htr Ha)
      as [Hent' Htr'].
    apply (IH a st'); try assumption.
    apply (step_consistent tc ps sl st row a Hc Ha).
Qed.

Lemma sorted_last_is_max (df : list SignalRow) (last_row : SignalRow) :
  StronglySorted Z.lt (map row_time df) ->
  iloc_last df = Ok last_row ->
  Forall (fun r => (row_time r <= row_time last_row)%Z) df.
Proof.
  unfold iloc_last. destruct (rev df) as [| x r] eqn:E; [discriminate |].
  intros Hs H. injection H as ->.
  apply (f_equal (@rev SignalRow)) in E. rewrite rev_involutive in E.
  simpl in E. subst df. clear - Hs.
  induction (rev r) as [| y l IH]; simpl in *.
  - constructor; [lia | constructor].
  - apply StronglySorted_inv in Hs as [Hs Hhd]. constructor.
    + rewrite map_app in Hhd. apply Forall_app in Hhd as [_ Hhd].
      simpl in Hhd. apply Forall_cons_iff in Hhd as [Hlt _]. lia.
    + apply IH. exact Hs.
Qed.

End TradeRecords.

Section TradeRecordsTheorem.
Import PyFloat StrategyEngine BacktestEngine Props Ledger.

(** On bars with strictly increasing times, the trade list of a finished
    run is a list of trades closed inside the loop, each with its exit bar
    after its entry bar, followed by at most one end-of-period trade. *)
Theorem trades_are_ordered_in_time :
  forall tc df capital risk_params final,
    StronglySorted Z.lt (map row_time df) ->
    simulate_locals tc df capital risk_params = Ok final ->
    exists closed last,
      trades final = closed ++ last /\
      (length last <= 1)%nat /\
      Forall (loop_trade (risk_stop_loss risk_params)) closed /\
      Forall end_trade last.
Proof.
  intros tc df capital rp final Hsorted H. unfold simulate_locals in H.
  bind_inv H. rename a into st.
  pose proof (run_loop_consistent _ _ _ df _ _
                (initial_consistent capital) Ha) as Hc.
  unfold close_open_position in H.
  destruct (0 <? shares st)%Z eqn:Hs.
  - bind_inv H. rename a into last_row.
    pose proof (sorted_last_is_max df last_row Hsorted Ha0) as Hmax.
    destruct (run_loop_trades tc (risk_position_size rp) (risk_stop_loss rp)
                (row_time last_row) df (initial_locals capital) st
                (initial_consistent capital) Hsorted Hmax I
                (Forall_nil _) Ha) as [Hent Htr].
    unfold consistent, entered_before in *.
    destruct (current_position st) as [pos |]; [| discriminate].
    bind_inv H. injection H as <-. simpl.
    eexists (trades st), [_]. split; [reflexivity |].
    split; [simpl; lia |]. split; [exact Htr |].
    constructor; [| constructor]. unfold end_trade. simpl.
    destruct Hc as (Hsh & _). destruct Hent as [Hle _].
    repeat split; try assumption. apply days_nonneg. lia.
  - injection H as <-.
    assert (Hmax : exists T, Forall (fun r => (row_time r <= T)%Z) df).
    { clear. induction df as [| r df [T IH]].
      - exists 0%Z. constructor.
      - exists (Z.max T (row_time r)). constructor; [lia |].
        eapply Forall_impl; [| exact IH]. simpl. intros; lia. }
    destruct Hmax as [T Hmax].
    destruct (run_loop_trades tc (risk_position_size rp) (risk_stop_loss rp)
                T df (initial_locals capital) st
                (initial_consistent capital) Hsorted Hmax I
                (Forall_nil _) Ha) as [_ Htr].
    exists (trades st), []. rewrite app_nil_r.
    split; [reflexivity |]. split; [simpl; lia |]. split; [exact Htr |].
    constructor.
Qed.

End TradeRecordsTheorem.

(** ** The shape of the signal rows *)

Section ListFacts.
Import Pandas.

Lemma nth_error_map2_inv {A B C : Type} (f : A -> B -> C) (xs : list A) :
  forall ys i z,
    nth_error (map2 f xs ys) i = Some z ->
    exists x y,
      nth_error xs i = Some x /\ nth_error ys i = Some y /\ z = f x y.
Proof.
  induction xs as [| a xs IH]; intros [| b ys] [| i] z H; simpl in *;
    try discriminate.
  - injection H as <-. eauto.
  - apply IH. exact H.
Qed.

Lemma nth_error_combine_inv {A B : Type} (xs : list A) :
  forall (ys : list B) i x y,
    nth_error (combine xs ys) i = Some (x, y) ->
    nth_error xs i = Some x /\ nth_error ys i = Some y.
Proof.
  induction xs as [| a xs IH]; intros [| b ys] [| i] x y H; simpl in *;
    try discriminate.
  - injection H as <- <-. auto.
  - apply IH. exact H.
Qed.

Lemma map_map2_l {A B C D : Type} (f : A -> B -> C) (g : C -> D)
      (h : A -> D) :
  (forall x y, g (f x y) = h x) ->
  forall xs ys, length xs = length ys -> map g (map2 f xs ys) = map h xs.
Proof.
  intros Hf xs. induction xs as [| a xs IH]; intros [| b ys] Hlen;
    simpl in *; try discriminate; [reflexivity |].
  rewrite Hf, IH by lia. reflexivity.
Qed.

Lemma map_map2_r {A B C D : Type} (f : A -> B -> C) (g : C -> D)
      (h : B -> D) :
  (forall x y, g (f x y) = h y) ->
  forall xs ys, length xs = length ys -> map g (map2 f xs ys) = map h ys.
Proof.
  intros Hf xs. induction xs as [| a xs IH]; intros [| b ys] Hlen;
    simpl in *; try discriminate; [reflexivity |].
  rewrite Hf, IH by lia. reflexivity.
Qed.

Lemma map_fst_combine {A B : Type} (xs : list A) :
  forall ys : list B, length xs = length ys -> map fst (combine xs ys) = xs.
Proof.
  induction xs as [| a xs IH]; intros [| b ys] Hlen; simpl in *;
    try discriminate; [reflexivity |].
  rewrite IH by lia. reflexivity.
Qed.

Lemma map_snd_combine {A B : Type} (xs : list A) :
  forall ys : list B, length xs = length ys -> map snd (combine xs ys) = ys.
Proof.
  induction xs as [| a xs IH]; intros [| b ys] Hlen; simpl in *;
    try discriminate; [reflexivity |].
  rewrite IH by lia. reflexivity.
Qed.

Lemma nth_error_diff_succ (s : list fval) (i : nat) (a b : fval) :
  nth_error s i = Some a -> nth_error s (S i) = Some b ->
  nth_error (diff s) (S i) = Some (fsub b a).
Proof.
  destruct s as [| x t]; [destruct i; discriminate |].
  intros Ha Hb. simpl in *. apply nth_error_map2; assumption.
Qed.

Lemma nth_error_diff_0 (s : list fval) (x : fval) :
  nth_error (diff s) 0 = Some x -> x = NaN.
Proof.
  destruct s; simpl; [discriminate | congruence].
Qed.

Lemma rolling_mean_warm_up (w : nat) (s : list fval) (i : nat) (x : fval) :
  nth_error (rolling_mean w s) i = Some x -> (S i < w)%nat -> x = NaN.
Proof.
  unfold rolling_mean. rewrite nth_error_map, nth_error_seq.
  destruct (i <? length s)%nat; [| discriminate]. simpl.
  intros H Hlt. apply Nat.ltb_lt in Hlt. rewrite Hlt in H. congruence.
Qed.

End ListFacts.

Section SignalStructure.
Import PyFloat Pandas StrategyEngine Props Ranges.

Lemma with_signal_columns (data : list OHLCV) (pos : list Z) :
  length pos = length data ->
  map row_time (with_signal data pos) = map time data /\
  map row_close (with_signal data pos) = map close data /\
  map position (with_signal data pos) = pos /\
  map signal (with_signal data pos) = diff (Zseries pos).
Proof.
  intro Hlen. unfold with_signal.
  assert (Hd : length (diff (Zseries pos)) = length pos).
  { rewrite length_diff. unfold Zseries. apply length_map. }
  assert (Hc : length data = length (combine pos (diff (Zseries pos)))).
  { rewrite length_combine, Hd. lia. }
  repeat split.
  - apply map_map2_l; [reflexivity | exact Hc].
  - apply map_map2_l; [reflexivity | exact Hc].
  - rewrite (map_map2_r _ position fst) by (reflexivity || exact Hc).
    apply map_fst_combine. symmetry. exact Hd.
  - rewrite (map_map2_r _ signal snd) by (reflexivity || exact Hc).
    apply map_snd_combine. symmetry. exact Hd.
Qed.

Lemma ma_position_binary a b : binary (ma_position a b).
Proof. unfold binary, ma_position. destruct (fgt a b); auto. Qed.

Lemma rsi_position_binary lo hi r : binary (rsi_position lo hi r).
Proof.
  unfold binary, rsi_position.
  destruct (fgt r (Fin hi)), (flt r (Fin lo)); auto.
Qed.

Lemma macd_position_binary a b : binary (macd_position a b).
Proof. unfold binary, macd_position. destruct (Qltb b a); auto. Qed.

Lemma combined_position_binary c : binary (combined_position c).
Proof.
  unfold binary, combined_position. destruct c as [[a b] d].
  destruct (a && b && d); auto.
Qed.

Lemma Forall_map2_any {A B C : Type} (f : A -> B -> C) (R : C -> Prop) :
  (forall x y, R (f x y)) -> forall xs ys, Forall R (map2 f xs ys).
Proof.
  intros Hf xs ys.
  apply (Forall_map2 f (fun _ => True) (fun _ => True) R);
    [auto | apply Forall_forall; trivial | apply Forall_forall; trivial].
Qed.

(** Every strategy returns the rows of [with_signal] on a 0/1 position
    column as long as the data. *)
Lemma generate_signals_inv strategy_type parameters data rows :
  generate_signals strategy_type parameters data = Ok rows ->
  exists pos,
    rows = with_signal data pos /\ length pos = length data /\
    Forall binary pos.
Proof.
  unfold generate_signals.
  destruct (String.eqb strategy_type "ma_crossover").
  { intro H. injection H as <-. eexists. split; [reflexivity |]. split.
    - rewrite length_map2, !sma_length, close_series_length. apply Nat.min_id.
    - apply Forall_map2_any. apply ma_position_binary. }
  destruct (String.eqb strategy_type "rsi").
  { intro H. injection H as <-. eexists. split; [reflexivity |]. split.
    - rewrite length_map, rsi_length. apply close_series_length.
    - apply Forall_map, Forall_forall. intros x _. apply rsi_position_binary. }
  destruct (String.eqb strategy_type "macd").
  { intro H. apply macd_strategy_inv in H as (m & sg & h & Hm & ->).
    apply macd_lengths in Hm as [H1 H2].
    eexists. split; [reflexivity |]. split.
    - rewrite length_map2, H1, H2, length_map. apply Nat.min_id.
    - apply Forall_map2_any. apply macd_position_binary. }
  destruct (String.eqb strategy_type "combined"); [| discriminate].
  intro H. apply combined_strategy_inv in H as (m & sg & h & Hm & ->).
  apply macd_lengths in Hm as [H1 H2].
  eexists. split; [reflexivity |]. split.
  - rewrite length_map, !length_combine, !length_map2, length_map.
    rewrite !sma_length, rsi_length, close_series_length, H1, H2, length_map.
    lia.
  - apply Forall_map, Forall_forall. intros x _. apply combined_position_binary.
Qed.

(** The signal column is the first difference of a 0/1 position column,
    for every strategy. *)
Theorem signals_are_position_differences :
  forall strategy_type parameters data rows,
    generate_signals strategy_type parameters data = Ok rows ->
    map row_time rows = map time data /\
    map row_close rows = map close data /\
    Forall (fun r => position r = 0%Z \/ position r = 1%Z) rows /\
    (forall r, nth_error rows 0 = Some r -> signal r = NaN) /\
    (forall i prev r,
        nth_error rows i = Some prev -> nth_error rows (S i) = Some r ->
        signal r = Fin (inject_Z (position r) + - inject_Z (position prev)) /\
        (feqb (signal r) (Fin (-1)) || feqb (signal r) (Fin 0)
         || feqb (signal r) (Fin 1)) = true).
Proof.
  intros ty parameters data rows H.
  apply generate_signals_inv in H as (pos & -> & Hlen & Hbin).
  destruct (with_signal_columns data pos Hlen) as (Ht & Hc & Hp & Hs).
  split; [exact Ht |]. split; [exact Hc |].
  assert (Hrows : Forall (fun r => binary (position r)) (with_signal data pos)).
  { rewrite <- Hp in Hbin. rewrite Forall_map in Hbin. exact Hbin. }
  split; [exact Hrows |]. split.
  - intros r Hr. apply (map_nth_error signal) in Hr. rewrite Hs in Hr.
    apply nth_error_diff_0 in Hr. exact Hr.
  - intros i prev r Hprev Hr.
    assert (Hsig : nth_error (diff (Zseries (map position (with_signal data pos))))
                             (S i)
                   = Some (fsub (Fin (inject_Z (position r)))
                                (Fin (inject_Z (position prev))))).
    { apply nth_error_diff_succ; unfold Zseries;
        rewrite map_map; apply (map_nth_error (fun r => Fin (inject_Z (position r))));
        assumption. }
    rewrite Hp, <- Hs in Hsig.
    rewrite (map_nth_error signal _ _ Hr) in Hsig. injection Hsig as Hsig.
    split; [exact Hsig |]. rewrite Hsig.
    rewrite Forall_forall in Hrows.
    destruct (Hrows r (nth_error_In _ _ Hr)) as [-> | ->];
      destruct (Hrows prev (nth_error_In _ _ Hprev)) as [-> | ->];
      reflexivity.
Qed.

End SignalStructure.

Section WarmUp.
Import PyFloat Pandas StrategyEngine Props.

Lemma with_signal_position_nth (data : list OHLCV) (pos : list Z) i r :
  length pos = length data ->
  nth_error (with_signal data pos) i = Some r ->
  nth_error pos i = Some (position r).
Proof.
  intros Hlen Hr. destruct (with_signal_columns data pos Hlen) as (_ & _ & Hp & _).
  rewrite <- Hp at 1. apply map_nth_error. exact Hr.
Qed.

Lemma ma_positions_length parameters data :
  length (map2 ma_position
            (Indicators.sma (close_series data)
                            (get (short_window parameters) 50%nat))
            (Indicators.sma (close_series data)
                            (get (long_window parameters) 200%nat)))
  = length data.
Proof.
  rewrite length_map2, !sma_length, close_series_length. apply Nat.min_id.
Qed.

Lemma flt_nan_l x : flt NaN x = false.
Proof. reflexivity. Qed.

Lemma flt_nan_r x : flt x NaN = false.
Proof. destruct x; reflexivity. Qed.

Lemma rsi_warm_up (s : list fval) (period i : nat) (x : fval) :
  nth_error (Indicators.rsi s period) i = Some x ->
  (S i < period)%nat -> x = NaN.
Proof.
  unfold Indicators.rsi. rewrite nth_error_map.
  destruct (nth_error (map2 _ _ _) i) as [rs |] eqn:E; [| discriminate].
  simpl. intros H Hlt. injection H as <-.
  apply nth_error_map2_inv in E as (g & l & Hg & _ & ->).
  unfold Indicators.gain in Hg.
  rewrite (rolling_mean_warm_up _ _ _ _ Hg Hlt). reflexivity.
Qed.

(** No strategy that waits for a rolling window is long before the window
    is full. *)
Theorem no_position_during_warm_up :
  forall parameters data i r,
    (nth_error (_ma_crossover_strategy parameters data) i = Some r ->
     (S i < Nat.max (get (short_window parameters) 50%nat)
                    (get (long_window parameters) 200%nat))%nat ->
     position r = 0%Z) /\
    (nth_error (_rsi_strategy parameters data) i = Some r ->
     (S i < get (period parameters) 14%nat)%nat ->
     position r = 0%Z) /\
    (exists rows,
        _combined_strategy parameters data = Ok rows /\
        (nth_error rows i = Some r ->
         (S i < Nat.max (Nat.max (get (short_window parameters) 50%nat)
                                 (get (long_window parameters) 200%nat))
                        (get (rsi_period parameters) 14%nat))%nat ->
         position r = 0%Z)).
Proof.
  intros parameters data i r. split; [| split].
  - unfold _ma_crossover_strategy. intros Hr Hlt.
    apply with_signal_position_nth in Hr; [| apply ma_positions_length].
    apply nth_error_map2_inv in Hr as (a & b & Ha & Hb & ->).
    unfold ma_position, fgt.
    destruct (Nat.lt_ge_cases (S i) (get (short_window parameters) 50%nat))
      as [Hs | Hs].
    + rewrite (rolling_mean_warm_up _ _ _ _ Ha Hs), flt_nan_r. reflexivity.
    + assert (Hl : (S i < get (long_window parameters) 200%nat)%nat) by lia.
      rewrite (rolling_mean_warm_up _ _ _ _ Hb Hl). reflexivity.
  - unfold _rsi_strategy. intros Hr Hlt.
    apply with_signal_position_nth in Hr;
      [| rewrite length_map, rsi_length; apply close_series_length].
    rewrite nth_error_map in Hr.
    destruct (nth_error (Indicators.rsi _ _) i) as [x |] eqn:E;
      [| discriminate].
    simpl in Hr. injection Hr as <-.
    rewrite (rsi_warm_up _ _ _ _ E Hlt). reflexivity.
  - destruct (combined_strategy_runs parameters data) as [rows Hrows].
    exists rows. split; [exact Hrows |].
    apply combined_strategy_inv in Hrows as (m & sg & h & Hm & ->).
    apply macd_lengths in Hm as [H1 H2].
    intros Hr Hlt.
    apply with_signal_position_nth in Hr.
    2:{ rewrite length_map, !length_combine, !length_map2, length_map.
        rewrite !sma_length, rsi_length, close_series_length, H1, H2,
          length_map. lia. }
    rewrite nth_error_map in Hr.
    destruct (nth_error (combine _ _) i) as [[[mb ro] db] |] eqn:E;
      [| discriminate].
    simpl in Hr. injection Hr as <-.
    apply nth_error_combine_inv in E as [E _].
    apply nth_error_combine_inv in E as [Hma Hrsi].
    apply nth_error_map2_inv in Hma as (a & b & Ha & Hb & ->).
    rewrite nth_error_map in Hrsi.
    destruct (nth_error (Indicators.rsi _ _) i) as [x |] eqn:Ex;
      [| discriminate].
    simpl in Hrsi. injection Hrsi as <-.
    destruct (Nat.lt_ge_cases (S i) (get (short_window parameters) 50%nat))
      as [Hs | Hs].
    { unfold fgt. rewrite (rolling_mean_warm_up _ _ _ _ Ha Hs), flt_nan_r.
      reflexivity. }
    destruct (Nat.lt_ge_cases (S i) (get (long_window parameters) 200%nat))
      as [Hl | Hl].
    { unfold fgt. rewrite (rolling_mean_warm_up _ _ _ _ Hb Hl). reflexivity. }
    assert (Hp : (S i < get (rsi_period parameters) 14%nat)%nat) by lia.
    rewrite (rsi_warm_up _ _ _ _ Ex Hp). simpl.
    rewrite andb_false_r. reflexivity.
Qed.

End WarmUp.

Section Combined.
Import PyFloat Pandas StrategyEngine Props.

Lemma with_signal_nth (data : list OHLCV) (pos : list Z) i :
  length pos = length data ->
  (i < length data)%nat ->
  exists r, nth_error (with_signal data pos) i = Some r.
Proof.
  intros Hlen Hi.
  destruct (nth_error (with_signal data pos) i) as [r |] eqn:E; [eauto |].
  apply nth_error_None in E. rewrite with_signal_length in E by exact Hlen.
  lia.
Qed.

(** The combined strategy is long only where the moving-average strategy
    with the same windows and the macd strategy with its default periods
    are long, and the rsi is below [rsi_overbought]. *)
Theorem combined_is_the_strictest :
  forall parameters data rows i r,
    _combined_strategy parameters data = Ok rows ->
    nth_error rows i = Some r ->
    position r = 1%Z ->
    exists r_ma macd_rows r_macd rsi_i,
      nth_error (_ma_crossover_strategy parameters data) i = Some r_ma /\
      position r_ma = 1%Z /\
      _macd_strategy no_parameters data = Ok macd_rows /\
      nth_error macd_rows i = Some r_macd /\
      position r_macd = 1%Z /\
      nth_error (Indicators.rsi (close_series data)
                                (get (rsi_period parameters) 14%nat)) i
        = Some rsi_i /\
      flt rsi_i (Fin (get (rsi_overbought parameters) 70)) = true.
Proof.
  intros parameters data rows i r Hrows Hr Hpos.
  assert (Hi : (i < length data)%nat).
  { rewrite <- (combined_strategy_length parameters data rows Hrows).
    apply nth_error_Some. congruence. }
  destruct (with_signal_nth data _ i (ma_positions_length parameters data) Hi)
    as [r_ma Hma].
  apply combined_strategy_inv in Hrows as (m & sg & h & Hm & ->).
  assert (Hmacd_rows : _macd_strategy no_parameters data
                       = Ok (with_signal data (map2 macd_position m sg))).
  { unfold _macd_strategy. simpl get. rewrite Hm. reflexivity. }
  apply macd_lengths in Hm as [H1 H2].
  assert (Hml : length (map2 macd_position m sg) = length data).
  { rewrite length_map2, H1, H2, length_map. apply Nat.min_id. }
  destruct (with_signal_nth data _ i Hml Hi) as [r_macd Hmacd].
  apply with_signal_position_nth in Hr.
  2:{ rewrite length_map, !length_combine, !length_map2, length_map.
      rewrite !sma_length, rsi_length, close_series_length, H1, H2,
        length_map. lia. }
  rewrite Hpos, nth_error_map in Hr.
  destruct (nth_error (combine _ _) i) as [[[mb ro] db] |] eqn:E;
    [| discriminate].
  simpl in Hr. injection Hr as Hr.
  destruct mb, ro, db; simpl in Hr; try discriminate.
  apply nth_error_combine_inv in E as [E Hdb].
  apply nth_error_combine_inv in E as [Hmb Hro].
  apply nth_error_map2_inv in Hmb as (a & b & Ha & Hb & Hab).
  apply nth_error_map2_inv in Hdb as (x & y & Hx & Hy & Hxy).
  rewrite nth_error_map in Hro.
  destruct (nth_error (Indicators.rsi _ _) i) as [rsi_i |]; [| discriminate].
  simpl in Hro. injection Hro as Hro.
  exists r_ma, (with_signal data (map2 macd_position m sg)), r_macd, rsi_i.
  split; [exact Hma |]. split.
  { unfold _ma_crossover_strategy in Hma.
    apply with_signal_position_nth in Hma; [| apply ma_positions_length].
    rewrite (nth_error_map2 ma_position _ _ _ _ _ Ha Hb) in Hma.
    injection Hma as <-. unfold ma_position. rewrite <- Hab. reflexivity. }
  split; [exact Hmacd_rows |]. split; [exact Hmacd |]. split.
  { apply with_signal_position_nth in Hmacd; [| exact Hml].
    rewrite (nth_error_map2 macd_position _ _ _ _ _ Hx Hy) in Hmacd.
    injection Hmacd as <-. unfold macd_position. rewrite <- Hxy. reflexivity. }
  split; [reflexivity | auto].
Qed.

End Combined.

(** ** Ranges of the indicators *)

Section RollingBounds.
Import PyFloat Pandas Ranges.

Lemma Qsum_bounds (lo hi : Q) (win : list fval) :
  Forall (fin_between lo hi) win ->
  forallb is_fin win = true /\
  inject_Z (Z.of_nat (length win)) * lo <= Qsum (map fin_value win) /\
  Qsum (map fin_value win) <= inject_Z (Z.of_nat (length win)) * hi.
Proof.
  induction 1 as [| x l (q & -> & Hlo & Hhi) _ (IHf & IHlo & IHhi)].
  - split; [reflexivity |]. simpl length. simpl map. simpl Qsum.
    change (inject_Z (Z.of_nat 0)) with 0. split; lra.
  - split; [exact IHf |].
    change (length (Fin q :: l)) with (S (length l)).
    rewrite Nat2Z.inj_succ. unfold Z.succ. rewrite inject_Z_plus.
    simpl map. simpl Qsum. change (inject_Z 1) with 1. split; lra.
Qed.

Lemma window_length (w i : nat) (s : list fval) :
  (w <= S i)%nat -> (i < length s)%nat -> length (window w i s) = w.
Proof.
  intros Hw Hi. unfold window. rewrite length_firstn, length_skipn. lia.
Qed.

Lemma rolling_mean_nth (w : nat) (s : list fval) (i : nat) (x : fval) :
  nth_error (rolling_mean w s) i = Some x ->
  (i < length s)%nat /\
  x = if (S i <? w)%nat then NaN else window_mean w (window w i s).
Proof.
  unfold rolling_mean. rewrite nth_error_map, nth_error_seq.
  destruct (i <? length s)%nat eqn:E; [| discriminate].
  apply Nat.ltb_lt in E. simpl. intro H. injection H as <-. auto.
Qed.

(** A rolling mean is [nan] until the window is full, and then a value
    between the bounds of the series. *)
Lemma rolling_mean_bounds (lo hi : Q) (w : nat) (s : list fval)
      (i : nat) (x : fval) :
  Forall (fin_between lo hi) s ->
  nth_error (rolling_mean w s) i = Some x ->
  ((S i < w)%nat -> x = NaN) /\
  ((1 <= w <= S i)%nat -> fin_between lo hi x) /\
  (w = 0%nat -> x = NaN).
Proof.
  intros Hs Hx. apply rolling_mean_nth in Hx as [Hi ->].
  split; [| split].
  - intro Hlt. apply Nat.ltb_lt in Hlt. rewrite Hlt. reflexivity.
  - intros [Hw1 Hw]. apply Nat.ltb_ge in Hw as Hge. rewrite Hge.
    assert (Hwin : Forall (fin_between lo hi) (window w i s)).
    { unfold window. apply Forall_firstn, Forall_skipn. exact Hs. }
    destruct (Qsum_bounds lo hi _ Hwin) as (Hf & Hlo & Hhi).
    rewrite (window_length w i s Hw Hi) in Hlo, Hhi.
    unfold window_mean. rewrite Hf. unfold fdiv.
    assert (Hpos : 0 < inject_Z (Z.of_nat w)).
    { change 0 with (inject_Z 0). rewrite <- Zlt_Qlt. lia. }
    assert (Hnz : Qeq_bool (inject_Z (Z.of_nat w)) 0 = false).
    { apply Qeq_bool_false. lra. }
    rewrite Hnz. eexists. split; [reflexivity |]. split.
    + apply Qle_shift_div_l; [exact Hpos | lra].
    + apply Qle_shift_div_r; [exact Hpos | lra].
  - intros ->. reflexivity.
Qed.

End RollingBounds.

Section MovingAverages.
Import PyFloat Pandas Ranges.

(** The simple moving average of a finite series within [lo, hi] is [nan]
    on the first [window - 1] bars and within [lo, hi] afterwards. *)
Theorem sma_stays_within_the_series :
  forall (lo hi : Q) (data : list fval) (window i : nat) (x : fval),
    Forall (fin_between lo hi) data ->
    (1 <= window)%nat ->
    nth_error (Indicators.sma data window) i = Some x ->
    ((S i < window)%nat -> x = NaN) /\
    ((window <= S i)%nat -> fin_between lo hi x).
Proof.
  intros lo hi data w i x Hs Hw Hx. unfold Indicators.sma in Hx.
  destruct (rolling_mean_bounds lo hi w data i x Hs Hx) as (Hwarm & Hfull & _).
  split; [exact Hwarm |]. intro Hle. apply Hfull. lia.
Qed.

Lemma ewm_from_bounds (lo hi alpha : Q) (s : list Q) :
  0 <= alpha -> alpha <= 1 ->
  Forall (fun x => lo <= x /\ x <= hi) s ->
  forall prev, lo <= prev -> prev <= hi ->
  Forall (fun y => lo <= y /\ y <= hi) (ewm_from alpha prev s).
Proof.
  intros Ha0 Ha1. induction 1 as [| x t [Hxlo Hxhi] _ IH];
    intros prev Hplo Hphi; simpl; constructor.
  - split; nra.
  - apply IH; nra.
Qed.

(** The exponential moving average with a span of at least 1 is returned,
    one value per observation, and stays within the bounds of the
    series. *)
Theorem ema_stays_within_the_series :
  forall (lo hi : Q) (data : list Q) (span : nat),
    (1 <= span)%nat ->
    Forall (fun x => lo <= x /\ x <= hi) data ->
    exists out,
      Indicators.ema data span = Ok out /\
      length out = length data /\
      Forall (fun y => lo <= y /\ y <= hi) out.
Proof.
  intros lo hi data span Hspan Hs. exists (ewm_values span data).
  split; [apply ewm_mean_valid; exact Hspan |].
  split; [apply length_ewm_values |].
  unfold ewm_values.
  destruct Hs as [| x t Hx Ht]; constructor; [exact Hx |].
  assert (Hd : 2 <= inject_Z (Z.of_nat span) + 1).
  { assert (H1 : inject_Z 1 <= inject_Z (Z.of_nat span))
      by (rewrite <- Zle_Qle; lia).
    change (inject_Z 1) with 1 in H1. lra. }
  destruct Hx as [Hxlo Hxhi].
  apply ewm_from_bounds; try assumption.
  - apply Qle_shift_div_l; lra.
  - apply Qle_shift_div_r; lra.
Qed.

End MovingAverages.

Section RsiRange.
Import PyFloat Pandas Ranges.

Lemma diff_finite (s : list fval) :
  Forall (fun x => is_fin x = true) s -> Forall nan_or_fin (diff s).
Proof.
  intro H. destruct s as [| x t]; simpl; constructor.
  - left. reflexivity.
  - inversion H as [| ? ? _ Ht]; subst.
    apply (Forall_map2 fsub (fun x => is_fin x = true)
                       (fun x => is_fin x = true)); try assumption.
    intros [a | | |] [b | | |] Ha Hb; try discriminate.
    right. eexists. reflexivity.
Qed.

Lemma where_pos_nonneg (s : list fval) :
  Forall nan_or_fin s -> Forall fin_nonneg (where_pos s).
Proof.
  intro H. unfold where_pos. apply Forall_map.
  eapply Forall_impl; [| exact H]. intros x [-> | [q ->]]; simpl.
  - exists 0. split; [reflexivity | lra].
  - unfold fgt. simpl. destruct (Qltb 0 q) eqn:E.
    + apply Qltb_lt in E. exists q. split; [reflexivity | lra].
    + exists 0. split; [reflexivity | lra].
Qed.

Lemma where_neg_nonneg (s : list fval) :
  Forall nan_or_fin s -> Forall fin_nonneg (map fneg (where_neg s)).
Proof.
  intro H. unfold where_neg. rewrite map_map. apply Forall_map.
  eapply Forall_impl; [| exact H]. intros x [-> | [q ->]]; simpl.
  - exists (- 0). split; [reflexivity | lra].
  - destruct (Qltb q 0) eqn:E; simpl.
    + apply Qltb_lt in E. exists (- q). split; [reflexivity | lra].
    + exists (- 0). split; [reflexivity | lra].
Qed.

Lemma Qsum_nonneg (win : list fval) :
  Forall fin_nonneg win ->
  forallb is_fin win = true /\ 0 <= Qsum (map fin_value win).
Proof.
  induction 1 as [| x l (q & -> & Hq) _ [IHf IH]]; simpl.
  - split; [reflexivity | lra].
  - split; [exact IHf | lra].
Qed.

Lemma rolling_mean_nonneg (w : nat) (s : list fval) :
  Forall fin_nonneg s -> Forall nan_or_nonneg (rolling_mean w s).
Proof.
  intro H. unfold rolling_mean. apply Forall_map, Forall_forall.
  intros i _. destruct (S i <? w)%nat; [left; reflexivity |].
  unfold window_mean, window.
  destruct w as [| w'].
  - simpl. left. reflexivity.
  - assert (Hwin : Forall fin_nonneg
                          (firstn (S w') (skipn (S i - S w') s)))
      by (apply Forall_firstn, Forall_skipn; exact H).
    destruct (Qsum_nonneg _ Hwin) as [Hf Hsum]. rewrite Hf. unfold fdiv.
    assert (Hpos : 0 < inject_Z (Z.of_nat (S w'))).
    { change 0 with (inject_Z 0). rewrite <- Zlt_Qlt. lia. }
    assert (Hnz : Qeq_bool (inject_Z (Z.of_nat (S w'))) 0 = false).
    { apply Qeq_bool_false. lra. }
    rewrite Hnz. right. eexists. split; [reflexivity |].
    apply Qle_shift_div_l; [exact Hpos | lra].
Qed.

(** The value line 64-65 computes from an average gain and an average
    loss that are not negative. *)
Lemma rsi_value_range (g l : fval) :
  nan_or_nonneg g -> nan_or_nonneg l ->
  let r := fsub (Fin 100) (fdiv (Fin 100) (fadd (Fin 1) (fdiv g l))) in
  r = NaN \/ fin_between 0 100 r.
Proof.
  intros [-> | (qg & -> & Hg)] [-> | (ql & -> & Hl)]; simpl;
    try (left; reflexivity).
  destruct (Qeq_bool ql 0) eqn:El.
  - destruct (Qeq_bool qg 0) eqn:Eg; [left; reflexivity |].
    apply Qle_bool_iff in Hg. rewrite Hg. simpl.
    right. eexists. split; [reflexivity |]. split; lra.
  - apply Qeq_bool_false in El. simpl.
    assert (Hl' : 0 < ql) by lra.
    assert (Hrs : 0 <= qg / ql) by (apply Qle_shift_div_l; lra).
    assert (Hnz : Qeq_bool (1 + qg / ql) 0 = false)
      by (apply Qeq_bool_false; lra).
    rewrite Hnz. simpl. right. eexists. split; [reflexivity |].
    assert (Hq : 0 <= 100 / (1 + qg / ql) /\ 100 / (1 + qg / ql) <= 100).
    { split.
      - apply Qle_shift_div_l; lra.
      - apply Qle_shift_div_r; lra. }
    split; lra.
Qed.

(** On a finite series every rsi value is [nan] or lies in [0, 100]. *)
Theorem rsi_lies_between_0_and_100 :
  forall (data : list fval) (period : nat),
    Forall (fun x => is_fin x = true) data ->
    length (Indicators.rsi data period) = length data /\
    Forall (fun r => r = NaN \/ fin_between 0 100 r)
           (Indicators.rsi data period).
Proof.
  intros data period Hfin. split; [apply rsi_length |].
  apply diff_finite in Hfin. unfold Indicators.rsi.
  rewrite Forall_map.
  apply (Forall_map2 fdiv nan_or_nonneg nan_or_nonneg).
  - intros g l Hg Hl. apply (rsi_value_range g l Hg Hl).
  - apply rolling_mean_nonneg, where_pos_nonneg, Hfin.
  - apply rolling_mean_nonneg, where_neg_nonneg, Hfin.
Qed.

End RsiRange.

(** ** Drawdown and trade statistics *)

Section Drawdown.
Import PyFloat Pandas BacktestEngine Ranges.

Lemma drawdown_from (m : Q) (s : list Q) :
  0 < m -> Forall (fun t => 0 < t) s ->
  Forall drawdown_value
         (map2 (fun t c => fdiv (Fin (t - c)) (Fin c)) s (cummax_from m s)).
Proof.
  intros Hm Hs. revert m Hm.
  induction Hs as [| t s Ht _ IH]; intros m Hm; simpl; [constructor |].
  set (c := if Qle_bool m t then t else m).
  assert (Hc : 0 < c /\ t <= c).
  { unfold c. destruct (Qle_bool m t) eqn:E.
    - split; lra.
    - split; [exact Hm |].
      destruct (Qlt_le_dec t m) as [Hlt | Hle]; [lra |].
      apply Qle_bool_iff in Hle. congruence. }
  destruct Hc as [Hc Htc]. constructor; [| apply IH; exact Hc].
  assert (Hnz : Qeq_bool c 0 = false) by (apply Qeq_bool_false; lra).
  rewrite Hnz. eexists. split; [reflexivity |]. split.
  - apply Qlt_shift_div_l; lra.
  - apply Qle_shift_div_r; lra.
Qed.

Lemma drawdown_range (pvs : list PortfolioValue.t) (pdf : PortfolioDF) :
  build_portfolio_df pvs = Ok pdf ->
  Forall (fun pv => 0 < PortfolioValue.total pv) pvs ->
  points pdf = pvs /\ drawdown pdf <> [] /\
  length (drawdown pdf) = length pvs /\
  Forall drawdown_value (drawdown pdf).
Proof.
  unfold build_portfolio_df. destruct pvs as [| pv pvs]; [discriminate |].
  intros H Hpos. injection H as <-. simpl points. simpl drawdown.
  apply Forall_cons_iff in Hpos as [Hpv Hpvs].
  split; [reflexivity |]. split; [discriminate |]. split.
  - simpl. f_equal. rewrite length_map2, length_map.
    assert (Hl : forall m s, length (cummax_from m s) = length s).
    { intros m s. revert m. induction s as [| x s IH]; intro m; simpl;
        [reflexivity | rewrite IH; reflexivity]. }
    rewrite Hl, length_map. apply Nat.min_id.
  - constructor.
    + assert (Hnz : Qeq_bool (PortfolioValue.total pv) 0 = false)
        by (apply Qeq_bool_false; lra).
      unfold fdiv. rewrite Hnz. eexists. split; [reflexivity |].
      unfold Qminus. rewrite Qplus_opp_r. unfold Qdiv. split.
      * setoid_replace (0 * / PortfolioValue.total pv) with 0 by ring. lra.
      * setoid_replace (0 * / PortfolioValue.total pv) with 0 by ring. lra.
    + apply drawdown_from; [exact Hpv |].
      apply Forall_map. exact Hpvs.
Qed.

Lemma dropna_drawdowns (s : list fval) :
  Forall drawdown_value s -> dropna s = s.
Proof.
  induction 1 as [| x s (q & -> & _) _ IH]; simpl; [reflexivity |].
  rewrite IH. reflexivity.
Qed.

Lemma fold_fmin2_range (s : list fval) :
  Forall drawdown_value s ->
  forall x, drawdown_value x -> drawdown_value (fold_left fmin2 s x).
Proof.
  induction 1 as [| y s Hy _ IH]; intros x Hx; simpl; [exact Hx |].
  apply IH. unfold fmin2. destruct (flt y x); assumption.
Qed.

(** On an equity curve whose totals are positive every drawdown is a
    finite value in (-1, 0], and the maximum drawdown is in [0, 1). *)
Theorem drawdown_is_a_fraction_of_the_peak :
  forall (np_sqrt : fval -> fval) (portfolio_values : list PortfolioValue.t)
         (portfolio_df : PortfolioDF) (initial_capital : Q) (m : Metrics),
    build_portfolio_df portfolio_values = Ok portfolio_df ->
    Forall (fun pv => 0 < PortfolioValue.total pv) portfolio_values ->
    _calculate_metrics np_sqrt portfolio_df initial_capital = Ok m ->
    length (drawdown portfolio_df) = length portfolio_values /\
    Forall drawdown_value (drawdown portfolio_df) /\
    exists q, max_drawdown m = Fin q /\ 0 <= q /\ q < 1.
Proof.
  intros np_sqrt pvs pdf capital m Hbuild Hpos Hm.
  destruct (drawdown_range pvs pdf Hbuild Hpos) as (_ & Hne & Hlen & Hdd).
  split; [exact Hlen |]. split; [exact Hdd |].
  unfold _calculate_metrics in Hm. bind_inv Hm. injection Hm as <-.
  cbn [max_drawdown]. unfold Pandas.min. rewrite (dropna_drawdowns _ Hdd).
  destruct (drawdown pdf) as [| d ds]; [congruence |].
  apply Forall_cons_iff in Hdd as [Hd Hds].
  destruct (fold_fmin2_range ds Hds d Hd) as (q & -> & Hlo & Hhi).
  simpl. exists (Qabs q). split; [reflexivity |].
  split; [apply Qabs_nonneg |].
  rewrite Qabs_neg by exact Hhi. lra.
Qed.

End Drawdown.

Section TradeStats.
Import PyFloat Pandas BacktestEngine.

Lemma filter_disjoint_length {A : Type} (f g : A -> bool) (l : list A) :
  (forall x, f x = true -> g x = false) ->
  (length (filter f l) + length (filter g l) <= length l)%nat.
Proof.
  intro H. induction l as [| x l IH]; simpl; [lia |].
  destruct (f x) eqn:Ef.
  - rewrite (H x Ef). simpl. lia.
  - destruct (g x); simpl; lia.
Qed.

Lemma Qsum_filter_pos (l : list Trade.t) :
  0 <= Qsum (map Trade.pnl (filter (fun t => Qltb 0 (Trade.pnl t)) l)).
Proof.
  induction l as [| t l IH]; simpl; [lra |].
  destruct (Qltb 0 (Trade.pnl t)) eqn:E; [| exact IH].
  apply Qltb_lt in E. simpl. lra.
Qed.

Lemma len_nonneg {A : Type} (l : list A) : 0 <= inject_Z (len l).
Proof.
  unfold len. change 0 with (inject_Z 0). rewrite <- Zle_Qle. lia.
Qed.

Lemma len_pos {A : Type} (l : list A) : nonempty l = true -> 0 < inject_Z (len l).
Proof.
  destruct l; [discriminate |]. intros _. unfold len.
  change 0 with (inject_Z 0). rewrite <- Zlt_Qlt. simpl length. lia.
Qed.

(** The trade statistics are within their natural bounds, whatever the
    trade list. *)
Theorem trade_stats_are_bounded :
  forall trades : list Trade.t,
    total_trades (_calculate_trade_stats trades) = len trades /\
    (0 <= winning_trades (_calculate_trade_stats trades))%Z /\
    (0 <= losing_trades (_calculate_trade_stats trades))%Z /\
    (winning_trades (_calculate_trade_stats trades)
     + losing_trades (_calculate_trade_stats trades)
     <= total_trades (_calculate_trade_stats trades))%Z /\
    0 <= win_rate (_calculate_trade_stats trades) /\
    win_rate (_calculate_trade_stats trades) <= 1 /\
    0 <= avg_win (_calculate_trade_stats trades) /\
    0 <= avg_loss (_calculate_trade_stats trades) /\
    0 <= profit_factor (_calculate_trade_stats trades).
Proof.
  intro trades. unfold _calculate_trade_stats.
  destruct (nonempty trades) eqn:Hne; cbn [negb].
  2:{ destruct trades; [| discriminate]. simpl.
      repeat split; try lia; try lra. }
  cbn [total_trades winning_trades losing_trades win_rate avg_win avg_loss
       profit_factor].
  set (winning := filter (fun t => Qltb 0 (Trade.pnl t)) trades).
  set (losing := filter (fun t => Qltb (Trade.pnl t) 0) trades).
  assert (Hdisj : (length winning + length losing <= length trades)%nat).
  { apply filter_disjoint_length. intros t Ht. apply Qltb_lt in Ht.
    apply Qltb_ge. lra. }
  assert (Hw : 0 <= Qsum (map Trade.pnl winning)) by apply Qsum_filter_pos.
  pose proof (len_pos trades Hne) as Htot.
  split; [reflexivity |]. split; [unfold len; lia |].
  split; [unfold len; lia |]. split; [unfold len; lia |].
  split; [apply Qle_shift_div_l; [exact Htot | pose proof (len_nonneg winning); lra] |].
  split.
  { apply Qle_shift_div_r; [exact Htot |].
    rewrite Qmult_1_l. unfold len. rewrite <- Zle_Qle. lia. }
  split.
  { destruct (nonempty winning) eqn:E; [| lra].
    apply Qle_shift_div_l; [apply len_pos; exact E | lra]. }
  split.
  { destruct (nonempty losing) eqn:E; [| lra].
    apply Qle_shift_div_l; [apply len_pos; exact E |].
    pose proof (Qabs_nonneg (Qsum (map Trade.pnl losing))). lra. }
  destruct (Qltb 0 (Qabs (Qsum (map Trade.pnl losing)))) eqn:E; [| lra].
  apply Qltb_lt in E. apply Qle_shift_div_l; [exact E | lra].
Qed.

End TradeStats.

(** ** A flat market *)

Section FlatSignals.
Import PyFloat Pandas StrategyEngine Props Ranges.









End FlatSignals.

Section FlatRun.
Import PyFloat Pandas StrategyEngine BacktestEngine Props Ranges.













End FlatRun.

Section FlatMarket.
Import PyFloat Pandas StrategyEngine BacktestEngine Props Ranges.


End FlatMarket.

(** ** The further properties on concrete runs *)

Ltac q_decide := vm_compute; first [reflexivity | discriminate].

Section Witnesses.
Import PyFloat Pandas StrategyEngine BacktestEngine Props Scenario Examples
       Ledger Ranges.

(** A buy of 9 shares at 100 at a cost rate of 0.05%. *)
Lemma fill_costs_the_fee_witness :
  exists st',
    step (5 # 10000) 1 0 (initial_locals 1000) (mkSignalRow 0 100 0 (Fin 1))
      = Ok st' /\
    cash st' + inject_Z (shares st') * 100 ==
      1000 - fill_fee (5 # 10000) 100 (initial_locals 1000) st'.
Proof.
  edestruct (fill_costs_the_fee (5 # 10000) 1 0 (initial_locals 1000)
               (mkSignalRow 0 100 0 (Fin 1))) as [Heq _].
  - vm_compute. reflexivity.
  - eexists. split; [vm_compute; reflexivity |].
    simpl in Heq. rewrite Heq. ring.
Defined.

(** A buy at 100 and a sale at 110. *)
Lemma realised_pnl_accounts_for_cash_witness :
  exists final,
    simulate_locals (5 # 10000) round_trip 1000 all_in = Ok final /\
    cash final - 1000 == realised_pnl (trades final).
Proof.
  edestruct (realised_pnl_accounts_for_cash (5 # 10000) round_trip 1000 all_in)
    as (st & Hrun & _ & Hflat & _).
  - vm_compute. reflexivity.
  - eexists. split; [vm_compute; reflexivity |].
    apply Hflat. vm_compute in Hrun. injection Hrun as <-. reflexivity.
Defined.

(** A buy at 100 and a sale at 110 on two daily bars. *)
Lemma trades_are_ordered_in_time_witness :
  exists final closed last,
    simulate_locals (5 # 10000) round_trip 1000 all_in = Ok final /\
    trades final = closed ++ last /\
    Forall (loop_trade (risk_stop_loss all_in)) closed /\
    Forall end_trade last.
Proof.
  edestruct (trades_are_ordered_in_time (5 # 10000) round_trip 1000 all_in)
    as (closed & last & Htr & Hlen & Hclosed & Hlast).
  - repeat (constructor; try reflexivity).
  - vm_compute. reflexivity.
  - eexists _, closed, last. split; [vm_compute; reflexivity |].
    split; [exact Htr |]. split; [exact Hclosed | exact Hlast].
Defined.

(** The five-bar scenario under the moving-average strategy. *)
Lemma signals_are_position_differences_witness :
  exists rows,
    generate_signals "ma_crossover" ma_1_2 five_bars = Ok rows /\
    map row_close rows = map close five_bars /\
    Forall (fun r => position r = 0%Z \/ position r = 1%Z) rows.
Proof.
  edestruct (signals_are_position_differences "ma_crossover" ma_1_2 five_bars)
    as (_ & Hc & Hp & _).
  - reflexivity.
  - eexists. split; [reflexivity |]. split; [exact Hc | exact Hp].
Defined.

(** The first bar of the five-bar scenario, with windows 1 and 2. *)
Lemma no_position_during_warm_up_witness :
  exists r,
    nth_error (_ma_crossover_strategy ma_1_2 five_bars) 0 = Some r /\
    position r = 0%Z.
Proof.
  eexists. split; [vm_compute; reflexivity |].
  eapply (no_position_during_warm_up ma_1_2 five_bars 0).
  - vm_compute. reflexivity.
  - simpl. lia.
Defined.

(** The second of four rising bars. *)
Lemma combined_is_the_strictest_witness :
  exists r_ma macd_rows r_macd,
    nth_error (_ma_crossover_strategy combined_1_2 rising_bars) 1
      = Some r_ma /\
    position r_ma = 1%Z /\
    _macd_strategy no_parameters rising_bars = Ok macd_rows /\
    nth_error macd_rows 1 = Some r_macd /\
    position r_macd = 1%Z.
Proof.
  destruct (_combined_strategy combined_1_2 rising_bars) as [rows | e] eqn:E;
    [| vm_compute in E; discriminate].
  destruct (nth_error rows 1) as [r |] eqn:Er;
    [| vm_compute in E; injection E as <-; vm_compute in Er; discriminate].
  destruct (combined_is_the_strictest combined_1_2 rising_bars rows 1 r E Er)
    as (r_ma & macd_rows & r_macd & rsi_i & H1 & H2 & H3 & H4 & H5 & _).
  - vm_compute in E. injection E as <-. vm_compute in Er.
    injection Er as <-. reflexivity.
  - exists r_ma, macd_rows, r_macd. auto.
Defined.

Lemma five_bars_between :
  Forall (fin_between 99 105) (close_series five_bars).
Proof.
  repeat constructor; eexists; (split; [reflexivity | split; q_decide]).
Qed.

(** The five-bar scenario, whose closes lie between 99 and 105. *)
Lemma sma_stays_within_the_series_witness :
  exists x,
    nth_error (Indicators.sma (close_series five_bars) 2) 1 = Some x /\
    fin_between 99 105 x.
Proof.
  eexists. split; [vm_compute; reflexivity |].
  eapply (sma_stays_within_the_series 99 105 (close_series five_bars) 2 1).
  - exact five_bars_between.
  - lia.
  - vm_compute. reflexivity.
  - lia.
Defined.

(** The five-bar scenario with a span of 3. *)
Lemma ema_stays_within_the_series_witness :
  exists out,
    Indicators.ema (map close five_bars) 3 = Ok out /\
    length out = length (map close five_bars) /\
    Forall (fun y => 99 <= y /\ y <= 105) out.
Proof.
  apply (ema_stays_within_the_series 99 105 (map close five_bars) 3).
  - lia.
  - repeat constructor; q_decide.
Defined.

(** Falling closes with a partial recovery, period 2. *)
Lemma rsi_lies_between_0_and_100_witness :
  Forall (fun r => r = NaN \/ fin_between 0 100 r)
         (Indicators.rsi (close_series falling_bars) 2).
Proof.
  apply (rsi_lies_between_0_and_100 (close_series falling_bars) 2).
  repeat constructor.
Defined.

(** An equity curve falling from 1000 to 900: the maximum drawdown is
    1/10. *)
Lemma drawdown_is_a_fraction_of_the_peak_witness :
  exists portfolio_df m q,
    build_portfolio_df falling_curve = Ok portfolio_df /\
    _calculate_metrics approx_sqrt portfolio_df 1000 = Ok m /\
    max_drawdown m = Fin q /\ 0 <= q /\ q < 1.
Proof.
  edestruct (drawdown_is_a_fraction_of_the_peak approx_sqrt falling_curve)
    with (initial_capital := 1000) as (_ & _ & q & Hq & Hlo & Hhi).
  - vm_compute. reflexivity.
  - repeat constructor.
  - vm_compute. reflexivity.
  - eexists _, _, q. split; [vm_compute; reflexivity |].
    split; [vm_compute; reflexivity |]. split; [exact Hq |]. auto.
Defined.



End Witnesses.

(** ** [backtest_strategy] against the engine *)

Section LockstepProofs.
Import PyFloat Pandas StrategyEngine BacktestEngine Props Ranges Lockstep.

Lemma int_proper (x y : Q) : x == y -> int x = int y.
Proof.
  intro H. unfold int. rewrite H.
  destruct (Qle_bool 0 y); [apply Qfloor_comp | apply Qceiling_comp]; exact H.
Qed.

Lemma follows_of_columns (t : list SignalRow) (p : Z) :
  Forall (fun r => binary (position r)) t ->
  map signal t =
    map2 fsub (Zseries (map position t)) (Zseries (p :: map position t)) ->
  follows p t.
Proof.
  revert p. induction t as [| r t IH]; intros p Hb H; simpl; [exact I |].
  apply Forall_cons_iff in Hb as [Hr Hb]. simpl in H.
  injection H as Hs Ht. split; [exact Hs |]. split; [exact Hr |].
  apply IH; assumption.
Qed.

Lemma with_signal_difference_rows (data : list OHLCV) (pos : list Z) :
  length pos = length data -> Forall binary pos ->
  difference_rows (with_signal data pos).
Proof.
  intros Hlen Hbin.
  destruct (with_signal_columns data pos Hlen) as (_ & _ & Hp & Hs).
  remember (with_signal data pos) as df eqn:E. clear E. subst pos.
  rewrite Forall_map in Hbin.
  destruct df as [| r t]; simpl; [exact I |].
  apply Forall_cons_iff in Hbin as [Hr Hb].
  unfold diff, Zseries in Hs. simpl map in Hs.
  injection Hs as Hs0 Hst. split; [exact Hs0 |]. split; [exact Hr |].
  apply follows_of_columns; assumption.
Qed.

Lemma feqb_buy_signal (p prev : Z) :
  binary p -> binary prev ->
  feqb (Fin (inject_Z p + - inject_Z prev)) (Fin 1) = true -> prev = 0%Z.
Proof.
  intros [-> | ->] [-> | ->] H; try reflexivity; vm_compute in H;
    discriminate.
Qed.

Lemma feqb_after_sell (p prev : Z) :
  binary p -> binary prev ->
  feqb (Fin (inject_Z p + - inject_Z prev)) (Fin 1) = false ->
  feqb (Fin (inject_Z p + - inject_Z prev)) (Fin (-1)) = false ->
  prev = 1%Z -> p = 1%Z.
Proof.
  intros [-> | ->] [-> | ->] H1 H2 Hp; try reflexivity; try discriminate;
    vm_compute in H2; discriminate.
Qed.

Lemma feqb_sell_signal (p prev : Z) :
  binary p -> binary prev ->
  feqb (Fin (inject_Z p + - inject_Z prev)) (Fin 1) = true -> p = 1%Z.
Proof.
  intros [-> | ->] [-> | ->] H; try reflexivity; vm_compute in H;
    discriminate.
Qed.

(** One bar, in lockstep: when no share is held at a buy signal, the two
    simulators move cash and shares alike. *)
Lemma step_lockstep tc st row st' :
  (feqb (signal row) (Fin 1) = true -> shares st = 0%Z) ->
  step tc 1 0 st row = Ok st' ->
  BacktestStrategy.trade tc (cash st) (shares st) row
    = BacktestStrategy.Done (cash st', shares st') /\
  portfolio_values st' = portfolio_values st ++ [equity_point st' row].
Proof.
  intros Hbuy H. split; [| apply (step_portfolio _ _ _ _ _ _ H)].
  apply step_inv in H as (sig & mid & Hchk & Hp & ->). simpl.
  assert (Hsig : sig = signal row).
  { unfold check_stop_loss in Hchk.
    destruct (current_position st); simpl in Hchk; congruence. }
  subst sig. unfold BacktestStrategy.trade.
  unfold process_signal in Hp.
  destruct (feqb (signal row) (Fin 1)) eqn:E1.
  - rewrite (Hbuy eq_refl) in *. simpl in Hp. unfold buy in Hp.
    bind_inv Hp. apply truediv_Ok in Ha as [Hnz ->].
    unfold fdiv. apply Qeq_bool_false in Hnz. rewrite Hnz. simpl.
    assert (Hint : int (cash st / (row_close row * (1 + tc)))
                   = int (cash st * 1 / (row_close row * (1 + tc)))).
    { apply int_proper. unfold Qdiv. ring. }
    rewrite Hint.
    cbv zeta in Hp.
    destruct (0 <? int (cash st * 1 / (row_close row * (1 + tc))))%Z;
      injection Hp as <-; simpl; [| rewrite (Hbuy eq_refl)]; reflexivity.
  - simpl in Hp.
    destruct (feqb (signal row) (Fin (-1)) && (0 <? shares st)%Z) eqn:E2.
    + apply sell_inv in Hp as (pos & tr & _ & Hc & Hs & _).
      rewrite Hc, Hs. reflexivity.
    + injection Hp as <-. reflexivity.
Qed.

Lemma loop_lockstep tc df : forall prev st st',
  follows prev df ->
  binary prev ->
  ((0 < shares st)%Z -> prev = 1%Z) ->
  (0 <= shares st)%Z ->
  run_loop tc 1 0 st df = Ok st' ->
  exists more,
    portfolio_values st' = portfolio_values st ++ more /\
    BacktestStrategy.loop tc (cash st) (shares st) df
      = BacktestStrategy.Done (cash st', shares st', map as_row more).
Proof.
  unfold run_loop. induction df as [| row df IH];
    intros prev st st' Hf Hprev Hinv Hnn H; simpl in *.
  - injection H as <-. exists []. rewrite app_nil_r. auto.
  - bind_inv H. rename a into mid. destruct Hf as (Hsig & Hbin & Hrest).
    assert (Hbuy : feqb (signal row) (Fin 1) = true -> shares st = 0%Z).
    { intro E. rewrite Hsig in E.
      pose proof (feqb_buy_signal _ _ Hbin Hprev E) as Hp0.
      destruct (Z.eq_dec (shares st) 0) as [Hz | Hz]; [exact Hz |].
      assert (Hpos : (0 < shares st)%Z) by lia.
      specialize (Hinv Hpos). congruence. }
    destruct (step_lockstep tc st row mid Hbuy Ha) as [Htrade Hpv].
    assert (Hmid : ((0 < shares mid)%Z -> position row = 1%Z) /\
                   (0 <= shares mid)%Z).
    { destruct (step_fill _ _ _ _ _ _ Ha) as [Hc | [Hc | Hc]].
      - destruct Hc as (_ & Hs & _). rewrite Hs. split; [| exact Hnn].
        intro Hpos. specialize (Hinv Hpos).
        apply step_inv in Ha as (sig & m & Hchk & Hp & Hm).
        assert (Hsg : sig = signal row).
        { unfold check_stop_loss in Hchk.
          destruct (current_position st); simpl in Hchk; congruence. }
        subst sig. unfold process_signal in Hp.
        destruct (feqb (signal row) (Fin 1)) eqn:E1.
        { rewrite Hsig in E1. apply (feqb_sell_signal _ _ Hbin Hprev E1). }
        simpl in Hp. apply Z.ltb_lt in Hpos as Hlt. rewrite Hlt in Hp.
        rewrite andb_true_r in Hp.
        destruct (feqb (signal row) (Fin (-1))) eqn:E2.
        { apply sell_inv in Hp as (_ & _ & _ & _ & Hs0 & _).
          subst mid. simpl in Hs. rewrite Hs0 in Hs. lia. }
        rewrite Hsig in E1, E2.
        apply (feqb_after_sell _ _ Hbin Hprev E1 E2 Hinv).
      - destruct Hc as (Hs0 & _ & n & Hn & _ & _ & Hs & _). rewrite Hs.
        split; [| lia]. intros _.
        apply step_inv in Ha as (sig & m & Hchk & Hp & Hm).
        assert (Hsg : sig = signal row).
        { unfold check_stop_loss in Hchk.
          destruct (current_position st); simpl in Hchk; congruence. }
        subst sig. unfold process_signal in Hp.
        destruct (feqb (signal row) (Fin 1)) eqn:E1.
        { rewrite Hsig in E1. apply (feqb_sell_signal _ _ Hbin Hprev E1). }
        simpl in Hp. rewrite Hs0 in Hp. simpl in Hp.
        rewrite andb_false_r in Hp. injection Hp as <-.
        subst mid. simpl in Hs. lia.
      - destruct Hc as (_ & _ & Hs & _). rewrite Hs. split; lia. }
    destruct Hmid as [Hinv' Hnn'].
    destruct (IH (position row) mid st' Hrest Hbin Hinv' Hnn' H)
      as (more & Hmore & Hloop).
    exists (equity_point mid row :: more). split.
    + rewrite Hmore, Hpv, <- app_assoc. reflexivity.
    + rewrite Htrade. simpl. rewrite Hloop. simpl. reflexivity.
Qed.

End LockstepProofs.

Section LockstepTheorems.
Import PyFloat Pandas StrategyEngine BacktestEngine Props Ranges Lockstep.

Lemma close_open_position_portfolio tc df st final :
  close_open_position tc df st = Ok final ->
  portfolio_values final = portfolio_values st.
Proof.
  unfold close_open_position. destruct (0 <? shares st)%Z.
  - intro H. bind_inv H. destruct (current_position st); [| discriminate].
    bind_inv H. injection H as <-. reflexivity.
  - intro H. injection H as <-. reflexivity.
Qed.

Lemma map_total_as_row (pts : list PortfolioValue.t) :
  map BacktestStrategy.total (map as_row pts) = map PortfolioValue.total pts.
Proof. rewrite map_map. reflexivity. Qed.

(** The engine's loop with all the cash and no stop, and the loop of
    [backtest_strategy], on a strategy's rows. *)
Lemma strategy_loop_lockstep tc capital df st :
  difference_rows df ->
  run_loop tc 1 0 (initial_locals capital) df = Ok st ->
  BacktestStrategy.loop tc capital 0 df
    = BacktestStrategy.Done
        (cash st, shares st, map as_row (portfolio_values st)).
Proof.
  intros Hd H. destruct df as [| r t].
  - injection H as <-. reflexivity.
  - destruct Hd as (Hs & Hb & Hf). unfold run_loop in H. simpl in H.
    bind_inv H. rename a into mid.
    assert (Hbuy : feqb (signal r) (Fin 1) = true ->
                   shares (initial_locals capital) = 0%Z)
      by (intros _; reflexivity).
    destruct (step_lockstep tc _ r mid Hbuy Ha) as [Htrade Hpv].
    assert (Hmid : shares mid = 0%Z).
    { unfold BacktestStrategy.trade in Htrade. rewrite Hs in Htrade.
      simpl in Htrade. injection Htrade as _ Hsh. symmetry. exact Hsh. }
    assert (Hinv : (0 < shares mid)%Z -> position r = 1%Z) by lia.
    assert (Hnn : (0 <= shares mid)%Z) by lia.
    destruct (loop_lockstep tc t (position r) mid st Hf Hb Hinv Hnn H)
      as (more & Hmore & Hloop).
    change (cash (initial_locals capital)) with capital in Htrade.
    change (shares (initial_locals capital)) with 0%Z in Htrade.
    cbn [BacktestStrategy.loop]. rewrite Htrade.
    cbn [BacktestStrategy.andThen fst snd]. rewrite Hloop.
    cbn [BacktestStrategy.andThen fst snd].
    rewrite Hmore, Hpv. reflexivity.
Qed.

Lemma generate_signals_difference_rows strategy_type parameters data df :
  generate_signals strategy_type parameters data = Ok df ->
  difference_rows df.
Proof.
  intro H. apply generate_signals_inv in H as (pos & -> & Hlen & Hbin).
  apply with_signal_difference_rows; assumption.
Qed.

Lemma strategy_curve_lockstep (np_sqrt : fval -> fval) (tc capital : Q)
      (risk_params : RiskParams) (df : list SignalRow)
      (portfolio_df : PortfolioDF) (trades_list : list Trade.t) :
  difference_rows df ->
  risk_position_size risk_params = 1 ->
  risk_stop_loss risk_params = 0 ->
  _simulate_trading tc df capital risk_params
    = Ok (portfolio_df, trades_list) ->
  exists frame m em,
    BacktestStrategy.backtest_strategy np_sqrt df capital tc
      = BacktestStrategy.Done (frame, m) /\
    _calculate_metrics np_sqrt portfolio_df capital = Ok em /\
    BacktestStrategy.rows frame = map as_row (points portfolio_df) /\
    BacktestStrategy.cummax frame = cummax portfolio_df /\
    BacktestStrategy.drawdown frame = drawdown portfolio_df /\
    BacktestStrategy.total_return m = total_return em /\
    BacktestStrategy.sharpe_ratio m = sharpe_ratio em /\
    BacktestStrategy.max_drawdown m = max_drawdown em /\
    BacktestStrategy.final_value m = final_value em.
Proof.
  intros Hd Hps Hsl H. unfold _simulate_trading in H. bind_inv H.
  rename a into st2. bind_inv H. rename a into pdf. injection H as <- <-.
  unfold simulate_locals in Ha. bind_inv Ha. rename a into st1.
  rewrite Hps, Hsl in Ha1.
  apply close_open_position_portfolio in Ha. rewrite Ha in Ha0.
  pose proof (strategy_loop_lockstep tc capital df st1 Hd Ha1) as Hloop.
  unfold build_portfolio_df in Ha0.
  destruct (portfolio_values st1) as [| pv pvs] eqn:Epv; [discriminate |].
  injection Ha0 as <-.
  assert (Hne : pv :: pvs <> []) by discriminate.
  destruct (iloc_last_map_nonempty PortfolioValue.total (pv :: pvs) Hne)
    as [fv Hfv].
  unfold BacktestStrategy.backtest_strategy, _calculate_metrics.
  rewrite Hloop. cbn [BacktestStrategy.andThen snd points].
  rewrite map_total_as_row, Hfv. cbn [bind].
  do 3 eexists. split; [reflexivity |]. split; [reflexivity |].
  cbn. repeat split; reflexivity.
Qed.

(** X16.  On the rows a strategy generates, [backtest_strategy] is the
    engine's simulation run with all the cash and no stop loss: when
    [_simulate_trading] returns with [position_size = 1] and
    [stop_loss = 0], [backtest_strategy] returns too, its cash, holdings
    and total on every bar are the engine's equity points, its [cummax]
    and [drawdown] columns are the engine's, and its four metrics are
    those of [_calculate_metrics]. *)
Theorem backtest_strategy_is_the_engine_all_in
        (np_sqrt : fval -> fval) (strategy_type : string)
        (parameters : Parameters) (data : list OHLCV) (tc capital : Q)
        (risk_params : RiskParams) (df : list SignalRow)
        (portfolio_df : PortfolioDF) (trades_list : list Trade.t) :
  generate_signals strategy_type parameters data = Ok df ->
  risk_position_size risk_params = 1 ->
  risk_stop_loss risk_params = 0 ->
  _simulate_trading tc df capital risk_params
    = Ok (portfolio_df, trades_list) ->
  exists frame m em,
    BacktestStrategy.backtest_strategy np_sqrt df capital tc
      = BacktestStrategy.Done (frame, m) /\
    _calculate_metrics np_sqrt portfolio_df capital = Ok em /\
    BacktestStrategy.rows frame = map as_row (points portfolio_df) /\
    BacktestStrategy.cummax frame = cummax portfolio_df /\
    BacktestStrategy.drawdown frame = drawdown portfolio_df /\
    BacktestStrategy.total_return m = total_return em /\
    BacktestStrategy.sharpe_ratio m = sharpe_ratio em /\
    BacktestStrategy.max_drawdown m = max_drawdown em /\
    BacktestStrategy.final_value m = final_value em.
Proof.
  intros Hg. apply strategy_curve_lockstep.
  apply (generate_signals_difference_rows _ _ _ _ Hg).
Qed.

End LockstepTheorems.

Section LockstepWitness.
Import StrategyEngine BacktestEngine Scenario Lockstep.

(** The moving-average strategy with windows 1 and 2 on the five bars:
    a buy at 102, a sale at 99, a buy at 101. *)
Lemma backtest_strategy_is_the_engine_all_in_witness :
  exists df portfolio_df trades_list frame m,
    generate_signals "ma_crossover" ma_1_2 five_bars = Ok df /\
    _simulate_trading (5 # 10000) df 100000 all_in
      = Ok (portfolio_df, trades_list) /\
    BacktestStrategy.backtest_strategy approx_sqrt df 100000 (5 # 10000)
      = BacktestStrategy.Done (frame, m) /\
    BacktestStrategy.rows frame = map as_row (points portfolio_df).
Proof.
  destruct (generate_signals "ma_crossover" ma_1_2 five_bars)
    as [df | e] eqn:Eg; [| vm_compute in Eg; discriminate].
  destruct (_simulate_trading (5 # 10000) df 100000 all_in)
    as [[portfolio_df trades_list] | e] eqn:Es.
  - destruct (backtest_strategy_is_the_engine_all_in
                approx_sqrt "ma_crossover" ma_1_2 five_bars (5 # 10000)
                100000 all_in df portfolio_df trades_list Eg eq_refl eq_refl
                Es)
      as (frame & m & em & H1 & _ & H3 & _).
    exists df, portfolio_df, trades_list, frame, m. auto.
  - vm_compute in Eg. injection Eg as <-. vm_compute in Es. discriminate.
Defined.

End LockstepWitness.

Section FirstBar.
Import PyFloat Pandas StrategyEngine BacktestEngine Props Ranges Lockstep.

Lemma flt_irrefl (x : fval) : flt x x = false.
Proof.
  destruct x; try reflexivity. simpl. apply Qltb_irrefl_eq. reflexivity.
Qed.

(** The first value of a rolling mean: [nan], unless the window is one
    bar long. *)
Lemma rolling_mean_head (w : nat) (s : list fval) (a : fval) :
  nth_error (rolling_mean w s) 0 = Some a ->
  a = NaN \/ (w = 1%nat /\ a = window_mean 1 (firstn 1 s)).
Proof.
  unfold rolling_mean. rewrite nth_error_map, nth_error_seq.
  destruct (0 <? length s)%nat; [| discriminate]. simpl.
  destruct w as [| [| w]]; simpl; intro H; injection H as <-.
  - left. reflexivity.
  - right. split; reflexivity.
  - left. reflexivity.
Qed.

Lemma sma_head_not_above (ws wl : nat) (s : list fval) (a b : fval) :
  nth_error (Indicators.sma s ws) 0 = Some a ->
  nth_error (Indicators.sma s wl) 0 = Some b ->
  fgt a b = false.
Proof.
  unfold Indicators.sma, fgt. intros Ha Hb.
  apply rolling_mean_head in Ha as [-> | [_ ->]];
    [apply flt_nan_r |].
  apply rolling_mean_head in Hb as [-> | [_ ->]];
    [reflexivity | apply flt_irrefl].
Qed.

Lemma rsi_head (s : list fval) (period : nat) (x : fval) :
  nth_error (Indicators.rsi s period) 0 = Some x -> x = NaN.
Proof.
  unfold Indicators.rsi. rewrite nth_error_map.
  destruct (nth_error (map2 _ _ _) 0) as [rs |] eqn:E; [| discriminate].
  simpl. intro H. injection H as <-.
  apply nth_error_map2_inv in E as (g & l & Hg & Hl & ->).
  unfold Indicators.gain in Hg. unfold Indicators.loss in Hl.
  apply rolling_mean_head in Hg as [-> | [Hp ->]]; [reflexivity |].
  apply rolling_mean_head in Hl as [-> | [_ ->]];
    [destruct (window_mean _ _); reflexivity |].
  destruct s as [| c t]; reflexivity.
Qed.

Lemma macd_head (s : list Q) (fast slow sig : nat) (ml gl hl : list Q)
      (m g : Q) :
  Indicators.macd s fast slow sig = Ok (ml, gl, hl) ->
  nth_error ml 0 = Some m ->
  nth_error gl 0 = Some g ->
  Qltb g m = false.
Proof.
  intro H. apply macd_inv in H as (_ & -> & -> & _).
  destruct s as [| c t]; simpl; [discriminate |].
  intros Hm Hg. injection Hm as <-. injection Hg as <-.
  apply Qltb_irrefl_eq. reflexivity.
Qed.

(** Every strategy is flat on the first bar. *)
Lemma first_bar_is_flat strategy_type parameters data rows r :
  generate_signals strategy_type parameters data = Ok rows ->
  nth_error rows 0 = Some r ->
  position r = 0%Z.
Proof.
  unfold generate_signals.
  destruct (String.eqb strategy_type "ma_crossover").
  { intro H. injection H as <-. unfold _ma_crossover_strategy. intro Hr.
    apply with_signal_position_nth in Hr; [| apply ma_positions_length].
    apply nth_error_map2_inv in Hr as (a & b & Ha & Hb & ->).
    unfold ma_position. rewrite (sma_head_not_above _ _ _ _ _ Ha Hb).
    reflexivity. }
  destruct (String.eqb strategy_type "rsi").
  { intro H. injection H as <-. unfold _rsi_strategy. intro Hr.
    apply with_signal_position_nth in Hr;
      [| rewrite length_map, rsi_length; apply close_series_length].
    rewrite nth_error_map in Hr.
    destruct (nth_error (Indicators.rsi _ _) 0) as [x |] eqn:E;
      [| discriminate].
    simpl in Hr. injection Hr as <-.
    rewrite (rsi_head _ _ _ E). reflexivity. }
  destruct (String.eqb strategy_type "macd").
  { intro H. apply macd_strategy_inv in H as (m & sg & h & Hmacd & ->).
    pose proof (fun a b => macd_head _ _ _ _ _ _ _ a b Hmacd) as Hh.
    apply macd_lengths in Hmacd as [H1 H2].
    intro Hr.
    apply with_signal_position_nth in Hr;
      [| rewrite length_map2, H1, H2, length_map; apply Nat.min_id].
    apply nth_error_map2_inv in Hr as (a & b & Ha & Hb & ->).
    unfold macd_position. rewrite (Hh _ _ Ha Hb). reflexivity. }
  destruct (String.eqb strategy_type "combined"); [| discriminate].
  intro H. apply combined_strategy_inv in H as (m & sg & h & Hmacd & ->).
  apply macd_lengths in Hmacd as [H1 H2].
  intro Hr.
  apply with_signal_position_nth in Hr.
  2:{ rewrite length_map, !length_combine, !length_map2, length_map.
      rewrite !sma_length, rsi_length, close_series_length, H1, H2,
        length_map. lia. }
  rewrite nth_error_map in Hr.
  destruct (nth_error (combine _ _) 0) as [[[mb ro] db] |] eqn:E;
    [| discriminate].
  simpl in Hr. injection Hr as <-.
  apply nth_error_combine_inv in E as [E _].
  apply nth_error_combine_inv in E as [Hma _].
  apply nth_error_map2_inv in Hma as (a & b & Ha & Hb & ->).
  rewrite (sma_head_not_above _ _ _ _ _ Ha Hb). reflexivity.
Qed.

(** Summing the differences gives the positions back. *)
Lemma cumsum_follows (t : list SignalRow) : forall (prev : Z) (acc : fval),
  follows prev t ->
  feq acc (Fin (inject_Z prev)) ->
  Forall2 feq
    (BacktestStrategy.cumsum_from acc
       (BacktestStrategy.fillna0 (map signal t)))
    (Zseries (map position t)).
Proof.
  induction t as [| r t IH]; intros prev acc Hf Hacc; simpl;
    [constructor |].
  destruct Hf as (Hs & _ & Hf). rewrite Hs.
  destruct acc as [a | | |]; simpl in Hacc; try contradiction.
  assert (Hnew : feq (fadd (Fin a)
                        (Fin (inject_Z (position r) + - inject_Z prev)))
                     (Fin (inject_Z (position r)))).
  { simpl. rewrite Hacc. ring. }
  constructor; [exact Hnew |].
  apply (IH (position r)); [exact Hf | exact Hnew].
Qed.

Lemma position_column_round_trip strategy_type parameters data df :
  generate_signals strategy_type parameters data = Ok df ->
  Forall2 feq
    (BacktestStrategy.cumsum_from (Fin 0)
       (BacktestStrategy.fillna0 (map signal df)))
    (Zseries (map position df)).
Proof.
  intro Hg.
  pose proof (generate_signals_difference_rows _ _ _ _ Hg) as Hd.
  pose proof (fun r => first_bar_is_flat _ _ _ _ r Hg) as H0.
  destruct df as [| r t]; simpl; [constructor |].
  destruct Hd as (Hs & _ & Hf). specialize (H0 r eq_refl).
  rewrite Hs, H0 in *. simpl.
  constructor; [simpl; reflexivity |].
  apply (cumsum_follows t 0%Z); [exact Hf | simpl; reflexivity].
Qed.

(** X17.  The [position] column that [backtest_strategy] recomputes as
    the running sum of the signals (the first, [nan], counted as 0) is the
    strategy's own [position] column: every strategy is flat on the first
    bar, and its signals are the differences of its positions. *)
Theorem backtest_strategy_recovers_the_position
        (np_sqrt : fval -> fval) (strategy_type : string)
        (parameters : Parameters) (data : list OHLCV) (tc capital : Q)
        (df : list SignalRow) (frame : BacktestStrategy.Frame)
        (m : BacktestStrategy.Metrics) :
  generate_signals strategy_type parameters data = Ok df ->
  BacktestStrategy.backtest_strategy np_sqrt df capital tc
    = BacktestStrategy.Done (frame, m) ->
  Forall2 feq (BacktestStrategy.position frame) (Zseries (map position df)).
Proof.
  intros Hg H. unfold BacktestStrategy.backtest_strategy in H.
  destruct (BacktestStrategy.loop tc capital 0 df) as [r | e];
    [| discriminate].
  cbn [BacktestStrategy.andThen] in H.
  destruct (iloc_last _) as [fv | e]; [| discriminate].
  injection H as <- _. cbn [BacktestStrategy.position].
  apply (position_column_round_trip _ _ _ _ Hg).
Qed.

End FirstBar.

Section FirstBarWitness.
Import StrategyEngine BacktestEngine Scenario Lockstep.

Lemma backtest_strategy_recovers_the_position_witness :
  exists df frame m,
    generate_signals "ma_crossover" ma_1_2 five_bars = Ok df /\
    BacktestStrategy.backtest_strategy approx_sqrt df 100000 (5 # 10000)
      = BacktestStrategy.Done (frame, m) /\
    Forall2 feq (BacktestStrategy.position frame)
            (Zseries (map position df)).
Proof.
  destruct (generate_signals "ma_crossover" ma_1_2 five_bars)
    as [df | e] eqn:Eg; [| vm_compute in Eg; discriminate].
  destruct (_simulate_trading (5 # 10000) df 100000 all_in)
    as [[portfolio_df trades_list] | e] eqn:Es.
  - destruct (strategy_curve_lockstep approx_sqrt (5 # 10000) 100000 all_in
                df portfolio_df trades_list
                (generate_signals_difference_rows _ _ _ _ Eg)
                eq_refl eq_refl Es)
      as (frame & m & em & H1 & _).
    exists df, frame, m. split; [reflexivity |]. split; [exact H1 |].
    apply (backtest_strategy_recovers_the_position
             approx_sqrt "ma_crossover" ma_1_2 five_bars (5 # 10000) 100000
             df frame m Eg H1).
  - vm_compute in Eg. injection Eg as <-. vm_compute in Es. discriminate.
Defined.

End FirstBarWitness.

(** ** The module-level signal functions *)

Section SignalFunctionProofs.
Import PyFloat Pandas StrategyEngine SignalFunctions.

Lemma Qltb_asym (a b : Q) : Qltb a b = true -> Qltb b a = false.
Proof.
  intro H. apply Qltb_lt in H. apply Qltb_ge. lra.
Qed.

Lemma flt_asym (x y : fval) : flt x y = true -> flt y x = false.
Proof.
  destruct x, y; simpl; try reflexivity; try discriminate.
  apply Qltb_asym.
Qed.

Lemma assign_signal_ternary (buy sell : bool) :
  ternary (assign_signal buy sell).
Proof.
  unfold ternary. destruct buy, sell; simpl; auto.
Qed.

(** X18.  Each strategy is long exactly on the bars where the signal
    function of the same indicator, called with the strategy's parameters,
    puts a buy ([1]); the signal functions return [-1], [0] or [1].  The
    macd pair returns or raises together (a span below 1). *)
Theorem strategies_are_long_where_signal_functions_buy :
  forall parameters data i r,
    (nth_error (_ma_crossover_strategy parameters data) i = Some r ->
     exists s,
       nth_error (calculate_ma_crossover_signals data
                    (get (short_window parameters) 50%nat)
                    (get (long_window parameters) 200%nat)) i = Some s /\
       ternary s /\ (position r = 1%Z <-> s = 1%Z)) /\
    (nth_error (_rsi_strategy parameters data) i = Some r ->
     exists s,
       nth_error (calculate_rsi_signals data
                    (get (period parameters) 14%nat)
                    (get (oversold parameters) 30)
                    (get (overbought parameters) 70)) i = Some s /\
       ternary s /\ (position r = 1%Z <-> s = 1%Z)) /\
    ((forall rows,
         _macd_strategy parameters data = Ok rows ->
         nth_error rows i = Some r ->
         exists signals s,
           calculate_macd_signals data
             (get (fast parameters) 12%nat)
             (get (slow parameters) 26%nat)
             (get (signal_period parameters) 9%nat) = Ok signals /\
           nth_error signals i = Some s /\
           ternary s /\ (position r = 1%Z <-> s = 1%Z)) /\
     (forall e,
         _macd_strategy parameters data = Raise e ->
         calculate_macd_signals data
           (get (fast parameters) 12%nat)
           (get (slow parameters) 26%nat)
           (get (signal_period parameters) 9%nat) = Raise e)).
Proof.
  intros parameters data i r. split; [| split].
  - unfold _ma_crossover_strategy, calculate_ma_crossover_signals. intro Hr.
    apply with_signal_position_nth in Hr; [| apply ma_positions_length].
    apply nth_error_map2_inv in Hr as (a & b & Ha & Hb & Hp).
    eexists. split; [apply nth_error_map2; eassumption |].
    split; [apply assign_signal_ternary |].
    rewrite Hp. unfold ma_position, assign_signal.
    destruct (fgt a b) eqn:E.
    + unfold fgt in E. rewrite (flt_asym _ _ E). tauto.
    + destruct (flt a b); split; discriminate.
  - unfold _rsi_strategy, calculate_rsi_signals. intro Hr.
    apply with_signal_position_nth in Hr;
      [| rewrite length_map, rsi_length; apply close_series_length].
    rewrite nth_error_map in Hr. rewrite nth_error_map.
    destruct (nth_error (Indicators.rsi _ _) i) as [x |]; [| discriminate].
    simpl in Hr. injection Hr as Hp.
    eexists. split; [reflexivity |].
    split; [apply assign_signal_ternary |].
    rewrite <- Hp. unfold rsi_position, assign_signal.
    destruct (flt x _), (fgt x _); split; (reflexivity || discriminate).
  - split.
    + intros rows Hrows Hr.
      apply macd_strategy_inv in Hrows as (m & sg & h & Hmacd & ->).
      unfold calculate_macd_signals. rewrite Hmacd. cbn [bind].
      apply macd_lengths in Hmacd as [H1 H2].
      apply with_signal_position_nth in Hr;
        [| rewrite length_map2, H1, H2, length_map; apply Nat.min_id].
      apply nth_error_map2_inv in Hr as (a & b & Ha & Hb & Hp).
      eexists _, _. split; [reflexivity |].
      split; [apply nth_error_map2; eassumption |].
      split; [apply assign_signal_ternary |].
      rewrite Hp. unfold macd_position, assign_signal.
      destruct (Qltb b a) eqn:E.
      * rewrite (Qltb_asym _ _ E). tauto.
      * destruct (Qltb a b); split; discriminate.
    + intros e. unfold _macd_strategy, calculate_macd_signals.
      destruct (Indicators.macd _ _ _ _) as [[[m sg] h] | e'];
        cbn [bind]; intro H; [discriminate H | injection H as <-; reflexivity].
Qed.

End SignalFunctionProofs.

Section SignalFunctionWitness.
Import StrategyEngine SignalFunctions Scenario.

(** On the five bars the windows 1 and 2 give positions 0, 1, 0, 1, 1
    and signals 0, 1, -1, 1, 1. *)
Lemma strategies_are_long_where_signal_functions_buy_witness :
  exists r s,
    nth_error (_ma_crossover_strategy ma_1_2 five_bars) 2 = Some r /\
    nth_error (calculate_ma_crossover_signals five_bars 1 2) 2 = Some s /\
    position r = 0%Z /\ s = (-1)%Z.
Proof.
  destruct (nth_error (_ma_crossover_strategy ma_1_2 five_bars) 2)
    as [r |] eqn:Er; [| vm_compute in Er; discriminate].
  destruct (proj1 (strategies_are_long_where_signal_functions_buy
                     ma_1_2 five_bars 2%nat r) Er) as (s & Hs & _ & _).
  exists r, s. split; [reflexivity |]. split; [exact Hs |].
  vm_compute in Er. injection Er as <-.
  vm_compute in Hs. injection Hs as <-. split; reflexivity.
Defined.

End SignalFunctionWitness.

(** ** [atr], [vwap] and [stochastic] *)

Section VolatilityProofs.
Import PyFloat Pandas Ranges Volatility.

(** *** [vwap] *)

Lemma vwap_from_bounds (lo hi : Q) (tp : list Q) :
  forall (vol : list Q) (n d : Q),
    Forall (between lo hi) tp -> Forall (Qle 0) vol ->
    0 <= d -> lo * d <= n -> n <= hi * d ->
    Forall (nan_or_between lo hi)
           (map2 (fun n d => fdiv (Fin n) (Fin d))
                 (cumsum_from n (map2 Qmult tp vol)) (cumsum_from d vol)).
Proof.
  induction tp as [| p tp IH]; intros [| v vol] n d Htp Hvol Hd Hlo Hhi;
    simpl; try constructor.
  - apply Forall_cons_iff in Htp as [[Hp1 Hp2] _].
    apply Forall_cons_iff in Hvol as [Hv _].
    assert (H1 : lo * v <= p * v) by nra.
    assert (H2 : p * v <= hi * v) by nra.
    unfold nan_or_between, fdiv.
    destruct (Qeq_bool (d + v) 0) eqn:E.
    + apply Qeq_bool_iff in E.
      assert (Hz : n + p * v == 0) by nra.
      apply Qeq_bool_iff in Hz. rewrite Hz. left. reflexivity.
    + right. apply Qeq_bool_false in E. eexists. split; [reflexivity |].
      assert (Hpos : 0 < d + v).
      { destruct (Qlt_le_dec 0 (d + v)) as [Hlt | Hle]; [exact Hlt |].
        exfalso. apply E. lra. }
      split.
      * apply Qle_shift_div_l; [exact Hpos | nra].
      * apply Qle_shift_div_r; [exact Hpos | nra].
  - apply Forall_cons_iff in Htp as [[Hp1 Hp2] Htp].
    apply Forall_cons_iff in Hvol as [Hv Hvol].
    apply IH; try assumption; nra.
Qed.

Lemma typical_price_between (lo hi : Q) (high low close : list Q) :
  Forall (between lo hi) high -> Forall (between lo hi) low ->
  Forall (between lo hi) close ->
  Forall (between lo hi)
         (map2 (fun hl c => (fst hl + snd hl + c) / 3) (combine high low)
               close).
Proof.
  intros Hh Hl Hc.
  apply (Forall_map2 _ (fun hl => between lo hi (fst hl)
                                  /\ between lo hi (snd hl))
                     (between lo hi)); [| | exact Hc].
  - intros [h l] c [[H1 H2] [H3 H4]] [H5 H6]. simpl in *.
    unfold between. split.
    + apply Qle_shift_div_l; lra.
    + apply Qle_shift_div_r; lra.
  - clear Hc. revert low Hl.
    induction Hh as [| h hs Hh _ IH]; intros [| l ls] Hl; simpl;
      try constructor.
    + split; [exact Hh |]. apply Forall_cons_iff in Hl as [Hl _]. exact Hl.
    + apply IH. apply Forall_cons_iff in Hl as [_ Hl]. exact Hl.
Qed.

(** X20.  With volumes that are not negative and highs, lows and closes
    between two bounds, every value of [vwap] is [nan] (no volume traded so
    far) or a price between the bounds; it is never infinite. *)
Theorem vwap_stays_within_the_prices :
  forall (lo hi : Q) (high low close volume : list Q),
    length high = length close -> length low = length close ->
    length volume = length close ->
    Forall (between lo hi) high -> Forall (between lo hi) low ->
    Forall (between lo hi) close -> Forall (Qle 0) volume ->
    length (vwap high low close volume) = length close /\
    Forall (nan_or_between lo hi) (vwap high low close volume).
Proof.
  intros lo hi high low close volume Lh Ll Lv Hh Hl Hc Hv. split.
  - unfold vwap, cumsum.
    assert (Hcs : forall s a, length (cumsum_from a s) = length s).
    { induction s as [| x s IH]; intro a; simpl; [| rewrite IH]; reflexivity. }
    rewrite length_map2, !Hcs, !length_map2, length_combine. lia.
  - unfold vwap, cumsum. apply vwap_from_bounds; try lra.
    + apply typical_price_between; assumption.
    + exact Hv.
Qed.

(** *** [atr] *)

Lemma fabs_fin_nonneg (x : fval) :
  (exists q, x = Fin q) -> fin_nonneg (fabs x).
Proof.
  intros [q ->]. exists (Qabs q). split; [reflexivity | apply Qabs_nonneg].
Qed.

Lemma fmax2_fin (a b : Q) :
  exists m, fmax2 (Fin a) (Fin b) = Fin m /\ a <= m /\ b <= m.
Proof.
  unfold fmax2. simpl. destruct (Qltb a b) eqn:E.
  - apply Qltb_lt in E. exists b. split; [reflexivity | lra].
  - apply Qltb_ge in E. exists a. split; [reflexivity | lra].
Qed.

(** The true range of a bar that has a previous close. *)
Lemma true_range_nonneg (h l pc : Q) :
  fin_nonneg
    (row_max [Fin (h - l); fabs (fsub (Fin h) (Fin pc));
              fabs (fsub (Fin l) (Fin pc))]).
Proof.
  unfold row_max, dropna.
  cbn [fabs fsub fadd fneg filter fold_left].
  destruct (fmax2_fin (h - l) (Qabs (h + - pc))) as (m1 & -> & _ & H1).
  destruct (fmax2_fin m1 (Qabs (l + - pc))) as (m2 & -> & H2 & _).
  exists m2. split; [reflexivity |].
  pose proof (Qabs_nonneg (h + - pc)). lra.
Qed.

Lemma true_ranges_nonneg (high : list Q) :
  forall (low prev : list Q),
    Forall fin_nonneg
      (map2 (fun a bc => row_max [a; fst bc; snd bc])
         (map2 (fun h l => Fin (h - l)) high low)
         (combine
            (map2 (fun h pc => fabs (fsub (Fin h) pc)) high (map Fin prev))
            (map2 (fun l pc => fabs (fsub (Fin l) pc)) low (map Fin prev)))).
Proof.
  induction high as [| h high IH]; intros [| l low] [| pc prev]; simpl;
    try constructor.
  - apply true_range_nonneg.
  - apply IH.
Qed.

Lemma removelast_map_Fin (l : list Q) :
  removelast (map Fin l) = map Fin (removelast l).
Proof.
  induction l as [| x [| y l] IH]; simpl in *; [reflexivity .. |].
  rewrite IH. reflexivity.
Qed.

(** X19.  The average true range is never negative: where the window is
    not yet full it is [nan], and every true range after the first bar is
    at least [|high - previous close|]; only the first, [high - low], needs
    the first bar's high not to be below its low. *)
Theorem atr_is_never_negative :
  forall (high low close : list Q) (period : nat),
    (forall h l, nth_error high 0 = Some h -> nth_error low 0 = Some l ->
                 l <= h) ->
    Forall nan_or_nonneg (atr high low close period).
Proof.
  intros high low close period H0. unfold atr.
  apply rolling_mean_nonneg.
  assert (Hs : shift (map Fin close)
               = match close with
                 | [] => []
                 | _ :: _ => NaN :: map Fin (removelast close)
                 end).
  { destruct close as [| c close]; [reflexivity |].
    unfold shift. rewrite <- removelast_map_Fin. reflexivity. }
  rewrite Hs. clear Hs.
  destruct close as [| c close].
  - destruct high as [| h high]; [constructor |].
    destruct low as [| l low]; constructor.
  - destruct high as [| h high]; [constructor |].
    destruct low as [| l low]; [constructor |].
    cbn [map2 combine fst snd]. constructor.
    + unfold row_max. simpl. exists (h - l). split; [reflexivity |].
      specialize (H0 h l eq_refl eq_refl). lra.
    + apply true_ranges_nonneg.
Qed.

End VolatilityProofs.

Section StochasticProofs.
Import PyFloat Pandas Ranges Volatility.

Lemma rolling_min_nth (w : nat) (s : list fval) (i : nat) (x : fval) :
  nth_error (rolling_min w s) i = Some x ->
  (i < length s)%nat /\
  x = if (S i <? w)%nat then NaN else window_min (window w i s).
Proof.
  unfold rolling_min. rewrite nth_error_map, nth_error_seq.
  destruct (i <? length s)%nat eqn:E; [| discriminate].
  apply Nat.ltb_lt in E. simpl. intro H. injection H as <-. auto.
Qed.

Lemma rolling_max_nth (w : nat) (s : list fval) (i : nat) (x : fval) :
  nth_error (rolling_max w s) i = Some x ->
  (i < length s)%nat /\
  x = if (S i <? w)%nat then NaN else window_max (window w i s).
Proof.
  unfold rolling_max. rewrite nth_error_map, nth_error_seq.
  destruct (i <? length s)%nat eqn:E; [| discriminate].
  apply Nat.ltb_lt in E. simpl. intro H. injection H as <-. auto.
Qed.

(** A full window ends on the current bar. *)
Lemma window_has_current (w i : nat) (s : list fval) (x : fval) :
  (1 <= w <= S i)%nat -> nth_error s i = Some x -> In x (window w i s).
Proof.
  intros Hw Hx. unfold window. apply (nth_error_In _ (w - 1)).
  rewrite nth_error_firstn.
  assert (Hlt : (w - 1 <? w)%nat = true) by (apply Nat.ltb_lt; lia).
  rewrite Hlt, nth_error_skipn.
  replace (S i - w + (w - 1))%nat with i by lia. exact Hx.
Qed.

Lemma window_of_finite (w i : nat) (l : list Q) :
  Forall (fun x => exists q, x = Fin q) (window w i (map Fin l)).
Proof.
  unfold window. apply Forall_firstn, Forall_skipn, Forall_map, Forall_forall.
  intros q _. eauto.
Qed.

Lemma fold_fmin2_least (t : list fval) :
  Forall (fun x => exists q, x = Fin q) t ->
  forall a, exists m,
    fold_left fmin2 t (Fin a) = Fin m /\ m <= a /\
    forall q, In (Fin q) t -> m <= q.
Proof.
  induction 1 as [| x t [b ->] _ IH]; intro a; simpl.
  - exists a. split; [reflexivity |]. split; [lra | contradiction].
  - unfold fmin2 at 2. simpl flt. destruct (Qltb b a) eqn:E.
    + apply Qltb_lt in E. destruct (IH b) as (m & -> & Hm & Hall).
      exists m. split; [reflexivity |]. split; [lra |].
      intros q [Hq | Hq]; [injection Hq as <-; exact Hm | auto].
    + apply Qltb_ge in E. destruct (IH a) as (m & -> & Hm & Hall).
      exists m. split; [reflexivity |]. split; [lra |].
      intros q [Hq | Hq]; [injection Hq as <-; lra | auto].
Qed.

Lemma fold_fmax2_greatest (t : list fval) :
  Forall (fun x => exists q, x = Fin q) t ->
  forall a, exists m,
    fold_left fmax2 t (Fin a) = Fin m /\ a <= m /\
    forall q, In (Fin q) t -> q <= m.
Proof.
  induction 1 as [| x t [b ->] _ IH]; intro a; simpl.
  - exists a. split; [reflexivity |]. split; [lra | contradiction].
  - unfold fmax2 at 2. simpl flt. destruct (Qltb a b) eqn:E.
    + apply Qltb_lt in E. destruct (IH b) as (m & -> & Hm & Hall).
      exists m. split; [reflexivity |]. split; [lra |].
      intros q [Hq | Hq]; [injection Hq as <-; exact Hm | auto].
    + apply Qltb_ge in E. destruct (IH a) as (m & -> & Hm & Hall).
      exists m. split; [reflexivity |]. split; [lra |].
      intros q [Hq | Hq]; [injection Hq as <-; lra | auto].
Qed.

Lemma finite_forallb (win : list fval) :
  Forall (fun x => exists q, x = Fin q) win -> forallb is_fin win = true.
Proof.
  induction 1 as [| x t [q ->] _ IH]; simpl; auto.
Qed.

Lemma window_min_least (win : list fval) (q : Q) :
  Forall (fun x => exists q, x = Fin q) win -> In (Fin q) win ->
  exists m, window_min win = Fin m /\ m <= q.
Proof.
  intros Hf Hin. unfold window_min. rewrite (finite_forallb _ Hf).
  destruct win as [| x t]; [contradiction |].
  apply Forall_cons_iff in Hf as [[a ->] Ht].
  destruct (fold_fmin2_least t Ht a) as (m & -> & Hm & Hall).
  exists m. split; [reflexivity |].
  destruct Hin as [Hq | Hq]; [injection Hq as <-; exact Hm | auto].
Qed.

Lemma window_max_greatest (win : list fval) (q : Q) :
  Forall (fun x => exists q, x = Fin q) win -> In (Fin q) win ->
  exists m, window_max win = Fin m /\ q <= m.
Proof.
  intros Hf Hin. unfold window_max. rewrite (finite_forallb _ Hf).
  destruct win as [| x t]; [contradiction |].
  apply Forall_cons_iff in Hf as [[a ->] Ht].
  destruct (fold_fmax2_greatest t Ht a) as (m & -> & Hm & Hall).
  exists m. split; [reflexivity |].
  destruct Hin as [Hq | Hq]; [injection Hq as <-; exact Hm | auto].
Qed.

(** [%K] of one bar between the lowest low and the highest high. *)
Lemma percent_k_range (c m M : Q) :
  m <= c -> c <= M ->
  nan_or_between 0 100
    (fmul (Fin 100) (fdiv (fsub (Fin c) (Fin m)) (fsub (Fin M) (Fin m)))).
Proof.
  intros H1 H2. cbn [fsub fadd fneg]. unfold fdiv.
  destruct (Qeq_bool (M + - m) 0) eqn:E.
  - apply Qeq_bool_iff in E.
    assert (Hz : c + - m == 0) by lra.
    apply Qeq_bool_iff in Hz. rewrite Hz. left. reflexivity.
  - apply Qeq_bool_false in E. right. cbn [fmul].
    eexists. split; [reflexivity |].
    assert (Hpos : 0 < M + - m).
    { destruct (Qlt_le_dec 0 (M + - m)) as [Hlt | Hle]; [exact Hlt |].
      exfalso. apply E. lra. }
    assert (Hr0 : 0 <= (c + - m) / (M + - m))
      by (apply Qle_shift_div_l; [exact Hpos | lra]).
    assert (Hr1 : (c + - m) / (M + - m) <= 1)
      by (apply Qle_shift_div_r; [exact Hpos | lra]).
    split; lra.
Qed.

(** The rolling mean of a series of [nan]s and values between two bounds
    is again such a series. *)
Lemma rolling_mean_nan_or_between (lo hi : Q) (w : nat) (s : list fval) :
  Forall (nan_or_between lo hi) s ->
  Forall (nan_or_between lo hi) (rolling_mean w s).
Proof.
  intro Hs. apply Forall_forall. intros x Hin.
  apply In_nth_error in Hin as [i Hx].
  apply rolling_mean_nth in Hx as [Hi ->].
  destruct (S i <? w)%nat eqn:E; [left; reflexivity |].
  apply Nat.ltb_ge in E. unfold window_mean.
  destruct (forallb is_fin (window w i s)) eqn:Hf; [| left; reflexivity].
  destruct w as [| w']; [left; reflexivity |].
  right.
  assert (Hwin : Forall (fin_between lo hi) (window (S w') i s)).
  { assert (Hn : Forall (nan_or_between lo hi) (window (S w') i s))
      by (unfold window; apply Forall_firstn, Forall_skipn; exact Hs).
    revert Hf. generalize (window (S w') i s) Hn. clear.
    induction 1 as [| x t Hx _ IH]; intro Hf; [constructor |].
    simpl in Hf. apply andb_true_iff in Hf as [Hx1 Ht].
    constructor; [| apply IH; exact Ht].
    destruct Hx as [-> | Hx]; [discriminate | exact Hx]. }
  destruct (Qsum_bounds lo hi _ Hwin) as (_ & Hlo & Hhi).
  rewrite (window_length (S w') i s E Hi) in Hlo, Hhi.
  unfold fdiv.
  assert (Hpos : 0 < inject_Z (Z.of_nat (S w'))).
  { change 0 with (inject_Z 0). rewrite <- Zlt_Qlt. lia. }
  assert (Hnz : Qeq_bool (inject_Z (Z.of_nat (S w'))) 0 = false).
  { apply Qeq_bool_false. lra. }
  rewrite Hnz. eexists. split; [reflexivity |]. split.
  - apply Qle_shift_div_l; [exact Hpos | lra].
  - apply Qle_shift_div_r; [exact Hpos | lra].
Qed.

(** X21.  On bars whose close lies between the low and the high, every
    value of [%K] and of [%D] is [nan] or between 0 and 100; a window whose
    highest high equals its lowest low gives [nan], never an infinity. *)
Theorem stochastic_lies_between_0_and_100 :
  forall (high low close : list Q) (k_period d_period : nat),
    length high = length close -> length low = length close ->
    (forall i h l c,
        nth_error high i = Some h -> nth_error low i = Some l ->
        nth_error close i = Some c -> l <= c /\ c <= h) ->
    Forall (nan_or_between 0 100)
           (fst (stochastic high low close k_period d_period)) /\
    Forall (nan_or_between 0 100)
           (snd (stochastic high low close k_period d_period)).
Proof.
  intros high low close kp dp Lh Ll Hbar.
  assert (Hk : Forall (nan_or_between 0 100)
                 (fst (stochastic high low close kp dp))).
  { unfold stochastic. cbn [fst]. apply Forall_forall. intros x Hin.
    apply In_nth_error in Hin as [i Hx].
    apply nth_error_map2_inv in Hx as (c & [ll hh] & Hc & Hlh & ->).
    apply nth_error_combine_inv in Hlh as [Hll Hhh]. cbn [fst snd].
    apply rolling_min_nth in Hll as [Hil ->].
    apply rolling_max_nth in Hhh as [Hih ->].
    destruct (S i <? kp)%nat eqn:E; [left; reflexivity |].
    apply Nat.ltb_ge in E.
    destruct kp as [| kp']; [left; reflexivity |].
    rewrite length_map in Hil, Hih.
    destruct (nth_error low i) as [l |] eqn:El;
      [| apply nth_error_None in El; lia].
    destruct (nth_error high i) as [h |] eqn:Eh;
      [| apply nth_error_None in Eh; lia].
    destruct (Hbar i h l c Eh El Hc) as [Hlc Hch].
    assert (Hw : (1 <= S kp' <= S i)%nat) by lia.
    destruct (window_min_least (window (S kp') i (map Fin low)) l
                (window_of_finite _ _ _)
                (window_has_current _ _ _ _ Hw (map_nth_error Fin _ _ El)))
      as (m & -> & Hm).
    destruct (window_max_greatest (window (S kp') i (map Fin high)) h
                (window_of_finite _ _ _)
                (window_has_current _ _ _ _ Hw (map_nth_error Fin _ _ Eh)))
      as (M & -> & HM).
    apply percent_k_range; lra. }
  split; [exact Hk |].
  unfold stochastic in *. cbn [fst snd] in *.
  apply rolling_mean_nan_or_between. exact Hk.
Qed.

End StochasticProofs.

Section VolatilityWitnesses.
Import Pandas Ranges Volatility Bars.

Lemma vwap_stays_within_the_prices_witness :
  length (vwap highs lows closes volumes) = length closes /\
  Forall (nan_or_between 98 106) (vwap highs lows closes volumes).
Proof.
  apply (vwap_stays_within_the_prices 98 106 highs lows closes volumes);
    try reflexivity;
    repeat constructor; q_decide.
Defined.

Lemma atr_is_never_negative_witness :
  Forall nan_or_nonneg (atr highs lows closes 2).
Proof.
  apply (atr_is_never_negative highs lows closes 2).
  intros h l Hh Hl. injection Hh as <-. injection Hl as <-. q_decide.
Defined.

Lemma stochastic_lies_between_0_and_100_witness :
  Forall (nan_or_between 0 100) (fst (stochastic highs lows closes 2 2)) /\
  Forall (nan_or_between 0 100) (snd (stochastic highs lows closes 2 2)).
Proof.
  apply (stochastic_lies_between_0_and_100 highs lows closes 2 2);
    try reflexivity.
  intros i h l c Hh Hl Hc.
  do 4 (destruct i as [| i];
        [injection Hh as <-; injection Hl as <-; injection Hc as <-;
         split; q_decide |]).
  destruct i; discriminate.
Defined.

End VolatilityWitnesses.

(** ** [bollinger_bands] *)

Section BandsProofs.
Import PyFloat Pandas Ranges Bands.

Lemma finite_is_map_Fin (l : list fval) :
  Forall finite l -> exists qs, l = map Fin qs.
Proof.
  induction 1 as [| x t [q ->] _ [qs ->]].
  - exists []. reflexivity.
  - exists (q :: qs). reflexivity.
Qed.

Lemma dropna_map_Fin (qs : list Q) : dropna (map Fin qs) = map Fin qs.
Proof.
  unfold dropna. induction qs as [| q qs IH]; simpl; [| rewrite IH];
    reflexivity.
Qed.

Lemma forallb_is_fin_map_Fin (qs : list Q) :
  forallb is_fin (map Fin qs) = true.
Proof. induction qs as [| q qs IH]; simpl; auto. Qed.

Lemma fsum_map_Fin (qs : list Q) : fsum (map Fin qs) = Fin (Qsum qs).
Proof.
  unfold fsum, Qsum. induction qs as [| q qs IH]; simpl; [reflexivity |].
  rewrite IH. reflexivity.
Qed.

Lemma Qsquare_nonneg (x : Q) : 0 <= x * x.
Proof.
  destruct (Qlt_le_dec x 0) as [Hlt | Hle].
  - setoid_replace (x * x) with ((- x) * (- x)) by ring.
    apply Qmult_le_0_compat; lra.
  - apply Qmult_le_0_compat; lra.
Qed.

Lemma Qsum_squares_nonneg (m : Q) (qs : list Q) :
  0 <= Qsum (map (fun q => (q + - m) * (q + - m)) qs).
Proof.
  unfold Qsum. induction qs as [| q qs IH]; simpl; [lra |].
  pose proof (Qsquare_nonneg (q + - m)). lra.
Qed.

Lemma inject_nat_pos (n : nat) : (1 <= n)%nat -> 0 < inject_Z (Z.of_nat n).
Proof.
  intro H. change 0 with (inject_Z 0). rewrite <- Zlt_Qlt. lia.
Qed.

(** The sample variance of two or more finite values is finite and not
    negative. *)
Lemma var_finite_nonneg (qs : list Q) :
  (2 <= length qs)%nat ->
  exists v, var (map Fin qs) = Fin v /\ 0 <= v.
Proof.
  intro Hlen. unfold var. rewrite dropna_map_Fin.
  destruct qs as [| a [| b qs]]; simpl in Hlen; try lia.
  set (l := a :: b :: qs).
  change (map Fin l) with (Fin a :: Fin b :: map Fin qs).
  cbv iota. change (Fin a :: Fin b :: map Fin qs) with (map Fin l).
  rewrite fsum_map_Fin, length_map.
  assert (Hn : 0 < inject_Z (Z.of_nat (length l)))
    by (apply inject_nat_pos; simpl; lia).
  assert (Hn1 : 0 < inject_Z (Z.of_nat (length l)) - 1).
  { assert (H2 : inject_Z 2 <= inject_Z (Z.of_nat (length l)))
      by (rewrite <- Zle_Qle; simpl; lia).
    change (inject_Z 2) with 2 in H2. lra. }
  assert (E1 : Qeq_bool (inject_Z (Z.of_nat (length l))) 0 = false)
    by (apply Qeq_bool_false; lra).
  set (m := Qsum l / inject_Z (Z.of_nat (length l))).
  assert (Hm : fdiv (Fin (Qsum l)) (Fin (inject_Z (Z.of_nat (length l))))
               = Fin m)
    by (unfold fdiv; rewrite E1; reflexivity).
  rewrite !Hm.
  assert (Hmap : map (fun x => fmul (fsub x (Fin m)) (fsub x (Fin m)))
                     (map Fin l)
                 = map Fin (map (fun q => (q + - m) * (q + - m)) l)).
  { rewrite !map_map. reflexivity. }
  rewrite Hmap, fsum_map_Fin. unfold fdiv.
  assert (E2 : Qeq_bool (inject_Z (Z.of_nat (length l)) - 1) 0 = false)
    by (apply Qeq_bool_false; lra).
  rewrite E2. eexists. split; [reflexivity |].
  apply Qle_shift_div_l; [exact Hn1 |].
  pose proof (Qsum_squares_nonneg m l). lra.
Qed.

Lemma rolling_std_nth (np_sqrt : fval -> fval) (w : nat) (s : list fval)
      (i : nat) (x : fval) :
  nth_error (rolling_std np_sqrt w s) i = Some x ->
  (i < length s)%nat /\
  x = if (S i <? w)%nat then NaN else window_std np_sqrt (window w i s).
Proof.
  unfold rolling_std. rewrite nth_error_map, nth_error_seq.
  destruct (i <? length s)%nat eqn:E; [| discriminate].
  apply Nat.ltb_lt in E. simpl. intro H. injection H as <-. auto.
Qed.

(** X22.  On a finite series, with [num_std >= 0]: while the window is
    not full, and on every bar when the window is 0 or 1 bars long (the
    sample deviation of one value is [nan]), the upper and lower bands are
    [nan]; from the first full window of two or more bars on, the three
    bands are finite, [lower <= middle <= upper], and the bands are at the
    same distance from the middle one. *)
Theorem bollinger_bands_enclose_the_mean :
  forall (np_sqrt : fval -> fval) (data : list fval) (window : nat)
         (num_std : Q) (i : nat) (u m l : fval),
    sqrt_like np_sqrt ->
    Forall finite data ->
    0 <= num_std ->
    nth_error (fst (fst (bollinger_bands np_sqrt data window num_std))) i
      = Some u ->
    nth_error (snd (fst (bollinger_bands np_sqrt data window num_std))) i
      = Some m ->
    nth_error (snd (bollinger_bands np_sqrt data window num_std)) i
      = Some l ->
    ((S i < window \/ window <= 1)%nat -> u = NaN /\ l = NaN) /\
    ((2 <= window <= S i)%nat ->
     exists qu qm ql,
       u = Fin qu /\ m = Fin qm /\ l = Fin ql /\
       ql <= qm /\ qm <= qu /\ qu - qm == qm - ql).
Proof.
  intros np_sqrt data w k i u m l [Hnan Hsqrt] Hfin Hk Hu Hm Hl.
  unfold bollinger_bands in *. cbn [fst snd] in *.
  apply nth_error_map2_inv in Hu as (m1 & s1 & Hm1 & Hs1 & ->).
  apply nth_error_map2_inv in Hl as (m2 & s2 & Hm2 & Hs2 & ->).
  assert (m1 = m) by congruence. assert (m2 = m) by congruence.
  assert (s2 = s1) by congruence. subst m1 m2 s2. clear Hm1 Hm2 Hs2.
  apply rolling_mean_nth in Hm as [Hi ->].
  apply rolling_std_nth in Hs1 as [_ ->].
  assert (Hwin : Forall finite (Pandas.window w i data))
    by (unfold Pandas.window; apply Forall_firstn, Forall_skipn; exact Hfin).
  destruct (finite_is_map_Fin _ Hwin) as [qs Hqs].
  split.
  - intros Hcase. destruct (S i <? w)%nat eqn:E; [split; reflexivity |].
    apply Nat.ltb_ge in E.
    assert (Hw : (w <= 1)%nat) by (destruct Hcase; [lia | assumption]).
    assert (Hlen : length qs = w).
    { rewrite <- (length_map Fin), <- Hqs. apply window_length; assumption. }
    unfold window_std. rewrite Hqs, forallb_is_fin_map_Fin.
    assert (Hvar : var (map Fin qs) = NaN).
    { unfold var. rewrite dropna_map_Fin.
      destruct qs as [| a [| b qs]]; simpl in *; try reflexivity. lia. }
    rewrite Hvar, Hnan.
    destruct (window_mean w (map Fin qs)); split; reflexivity.
  - intros [Hw2 Hwi]. apply Nat.ltb_ge in Hwi as E. rewrite E.
    assert (Hlen : length qs = w).
    { rewrite <- (length_map Fin), <- Hqs. apply window_length; assumption. }
    unfold window_std, window_mean. rewrite Hqs, forallb_is_fin_map_Fin.
    destruct (var_finite_nonneg qs) as (v & -> & Hv); [lia |].
    destruct (Hsqrt v Hv) as (r & -> & Hr).
    unfold fdiv.
    assert (Hn : 0 < inject_Z (Z.of_nat w)) by (apply inject_nat_pos; lia).
    assert (E1 : Qeq_bool (inject_Z (Z.of_nat w)) 0 = false)
      by (apply Qeq_bool_false; lra).
    rewrite E1. cbn [fmul fadd fsub fneg].
    do 3 eexists. split; [reflexivity |]. split; [reflexivity |].
    split; [reflexivity |].
    assert (Hrk : 0 <= r * k) by (apply Qmult_le_0_compat; assumption).
    split; [lra |]. split; [lra | ring].
Qed.

End BandsProofs.

Section BandsWitness.
Import PyFloat Pandas Ranges Bands StrategyEngine Scenario.

Lemma Qred_positive (x : Q) : 0 < x -> 0 < Qred x.
Proof.
  intro H. pose proof (Qred_correct x) as E. lra.
Qed.

Lemma newton_positive (n : nat) (q : Q) :
  0 < q -> forall x, 0 < x -> 0 < newton n q x.
Proof.
  intro Hq. induction n as [| n IH]; intros x Hx; cbn [newton];
    [exact Hx |].
  apply IH. apply Qred_positive.
  assert (Hd : 0 < q / x) by (apply Qlt_shift_div_l; lra).
  apply Qlt_shift_div_l; lra.
Qed.

Lemma approx_sqrt_is_sqrt_like : sqrt_like approx_sqrt.
Proof.
  split; [reflexivity |]. intros q Hq. unfold approx_sqrt.
  rewrite (proj2 (Qltb_ge q 0) Hq).
  destruct (Qeq_bool q 0) eqn:E.
  - exists 0. split; [reflexivity | lra].
  - apply Qeq_bool_false in E. eexists. split; [reflexivity |].
    apply Qlt_le_weak, newton_positive.
    + destruct (Qlt_le_dec 0 q) as [Hlt | Hle]; [exact Hlt |].
      exfalso. apply E. lra.
    + apply Qred_positive. apply Qlt_shift_div_l; lra.
Qed.

(** The third bar of the five closes, with a window of three bars and two
    deviations. *)
Lemma bollinger_bands_enclose_the_mean_witness :
  exists qu qm ql,
    nth_error (fst (fst (bollinger_bands approx_sqrt (close_series five_bars)
                           3 2))) 2 = Some (Fin qu) /\
    nth_error (snd (fst (bollinger_bands approx_sqrt (close_series five_bars)
                           3 2))) 2 = Some (Fin qm) /\
    nth_error (snd (bollinger_bands approx_sqrt (close_series five_bars)
                      3 2)) 2 = Some (Fin ql) /\
    ql <= qm /\ qm <= qu.
Proof.
  destruct (nth_error (fst (fst (bollinger_bands approx_sqrt
                                   (close_series five_bars) 3 2))) 2)
    as [u |] eqn:Eu; [| vm_compute in Eu; discriminate].
  destruct (nth_error (snd (fst (bollinger_bands approx_sqrt
                                   (close_series five_bars) 3 2))) 2)
    as [m |] eqn:Em; [| vm_compute in Em; discriminate].
  destruct (nth_error (snd (bollinger_bands approx_sqrt
                              (close_series five_bars) 3 2)) 2)
    as [l |] eqn:El; [| vm_compute in El; discriminate].
  destruct (bollinger_bands_enclose_the_mean
              approx_sqrt (close_series five_bars) 3 2 2 u m l
              approx_sqrt_is_sqrt_like) as [_ H]; try assumption.
  - repeat constructor; eexists; reflexivity.
  - q_decide.
  - destruct H as (qu & qm & ql & -> & -> & -> & H1 & H2 & _); [lia |].
    exists qu, qm, ql. auto.
Defined.

End BandsWitness.

(** ** The rsi on one-sided windows *)

Section RsiOneSided.
Import PyFloat Pandas StrategyEngine Props Ranges.

(** The observations of a window are those of the bars it covers. *)
Lemma window_covers (w i : nat) (s : list fval) (x : fval) :
  In x (window w i s) ->
  exists k, (S i - w <= k)%nat /\ (k < S i - w + w)%nat /\
            nth_error s k = Some x.
Proof.
  unfold window. intro H. apply In_nth_error in H as [p Hp].
  rewrite nth_error_firstn in Hp.
  destruct (p <? w)%nat eqn:E; [| discriminate].
  apply Nat.ltb_lt in E. rewrite nth_error_skipn in Hp.
  exists (S i - w + p)%nat. split; [lia |]. split; [lia | exact Hp].
Qed.

Lemma window_holds (w i k : nat) (s : list fval) (x : fval) :
  (S i - w <= k)%nat -> (k < S i - w + w)%nat ->
  nth_error s k = Some x -> In x (window w i s).
Proof.
  intros H1 H2 Hx. unfold window.
  apply (nth_error_In _ (k - (S i - w))).
  rewrite nth_error_firstn.
  assert (Hlt : (k - (S i - w) <? w)%nat = true) by (apply Nat.ltb_lt; lia).
  rewrite Hlt, nth_error_skipn.
  replace (S i - w + (k - (S i - w)))%nat with k by lia. exact Hx.
Qed.

(** The difference of two consecutive closes. *)
Lemma nth_error_diff_closes (bars : list OHLCV) (j : nat) (a b : OHLCV) :
  nth_error bars j = Some a -> nth_error bars (S j) = Some b ->
  nth_error (diff (close_series bars)) (S j)
    = Some (Fin (close b + - close a)).
Proof.
  intros Ha Hb.
  apply (nth_error_diff_succ (close_series bars) j (Fin (close a))
                             (Fin (close b))).
  - unfold close_series.
    apply (map_nth_error (fun r => Fin (close r)) _ _ Ha).
  - unfold close_series.
    apply (map_nth_error (fun r => Fin (close r)) _ _ Hb).
Qed.

Lemma nth_error_diff_first (bars : list OHLCV) (x : fval) :
  nth_error (diff (close_series bars)) 0 = Some x -> x = NaN.
Proof. apply nth_error_diff_0. Qed.

Lemma nth_error_pred (bars : list OHLCV) (k : nat) (x : fval) :
  nth_error (diff (close_series bars)) k = Some x ->
  k = 0%nat \/
  exists j a b, k = S j /\ nth_error bars j = Some a /\
                nth_error bars (S j) = Some b.
Proof.
  intro H. destruct k as [| j]; [left; reflexivity |]. right.
  assert (Hlen : (S j < length bars)%nat).
  { rewrite <- (close_series_length bars), <- length_diff.
    apply nth_error_Some. congruence. }
  destruct (nth_error bars j) as [a |] eqn:Ea;
    [| apply nth_error_None in Ea; lia].
  destruct (nth_error bars (S j)) as [b |] eqn:Eb;
    [| apply nth_error_None in Eb; lia].
  exists j, a, b. auto.
Qed.

Lemma Qsum_positive (win : list fval) (q : Q) :
  Forall fin_nonneg win -> In (Fin q) win -> 0 < q ->
  0 < Qsum (map fin_value win).
Proof.
  induction 1 as [| x l (p & -> & Hp) Hl IH]; intros Hin Hq;
    [contradiction |].
  simpl. pose proof (proj2 (Qsum_nonneg l Hl)) as Hsum.
  destruct Hin as [E | Hin].
  - injection E as ->. lra.
  - specialize (IH Hin Hq). lra.
Qed.

Lemma Qsum_all_zero (win : list fval) :
  Forall (fun x => x = Fin (- 0)) win ->
  forallb is_fin win = true /\ Qsum (map fin_value win) == 0.
Proof.
  induction 1 as [| x l -> _ [IHf IH]]; simpl.
  - split; reflexivity.
  - split; [exact IHf |]. rewrite IH. reflexivity.
Qed.

(** The value of line 65 when the average loss is zero and the average
    gain is positive. *)
Lemma rsi_of_zero_loss (g l : Q) :
  l == 0 -> 0 < g ->
  feq (fsub (Fin 100) (fdiv (Fin 100) (fadd (Fin 1) (fdiv (Fin g) (Fin l)))))
      (Fin 100).
Proof.
  intros Hl0 Hgpos. simpl. apply Qeq_bool_iff in Hl0. rewrite Hl0.
  assert (Hg0 : Qeq_bool g 0 = false).
  { destruct (Qeq_bool g 0) eqn:E; [| reflexivity].
    apply Qeq_bool_iff in E. lra. }
  rewrite Hg0.
  assert (Hge : Qle_bool 0 g = true) by (apply Qle_bool_iff; lra).
  rewrite Hge. simpl. reflexivity.
Qed.

(** Over a full window in which no close is below the one before it and
    one is above: the average gain is positive and the average loss is
    zero. *)
Lemma one_sided_window (bars : list OHLCV) (period i : nat) :
  (1 <= period)%nat -> (period <= S i)%nat -> (i < length bars)%nat ->
  (forall j a b,
      (S i - period <= S j)%nat -> (S j <= i)%nat ->
      nth_error bars j = Some a -> nth_error bars (S j) = Some b ->
      close a <= close b) ->
  (exists j a b,
      (S i - period <= S j)%nat /\ (S j <= i)%nat /\
      nth_error bars j = Some a /\ nth_error bars (S j) = Some b /\
      close a < close b) ->
  exists g l,
    nth_error (Indicators.gain (close_series bars) period) i = Some (Fin g) /\
    0 < g /\
    nth_error (Indicators.loss (close_series bars) period) i = Some (Fin l) /\
    l == 0.
Proof.
  intros Hp1 Hp2 Hi Hup (j0 & a0 & b0 & Hj1 & Hj2 & Ha0 & Hb0 & Hrise).
  assert (Hfin : Forall (fun x => is_fin x = true) (close_series bars)).
  { unfold close_series. apply Forall_map, Forall_forall. reflexivity. }
  pose proof (diff_finite _ Hfin) as Hd.
  assert (Hlen : length (diff (close_series bars)) = length bars)
    by (rewrite length_diff; apply close_series_length).
  assert (Hw : 0 < inject_Z (Z.of_nat period)).
  { change 0 with (inject_Z 0). rewrite <- Zlt_Qlt. lia. }
  assert (Hnz : Qeq_bool (inject_Z (Z.of_nat period)) 0 = false)
    by (apply Qeq_bool_false; lra).
  assert (Hge : (S i <? period)%nat = false) by (apply Nat.ltb_ge; lia).
  (* the gains *)
  set (G := where_pos (diff (close_series bars))).
  assert (HG : Forall fin_nonneg (window period i G)).
  { unfold window. apply Forall_firstn, Forall_skipn.
    apply where_pos_nonneg. exact Hd. }
  assert (HinG : In (Fin (close b0 + - close a0)) (window period i G)).
  { apply (window_holds period i (S j0)); [lia | lia |].
    unfold G, where_pos.
    rewrite nth_error_map, (nth_error_diff_closes bars j0 a0 b0 Ha0 Hb0).
    simpl. unfold fgt. simpl.
    assert (E : Qltb 0 (close b0 + - close a0) = true)
      by (apply Qltb_lt; lra).
    rewrite E. reflexivity. }
  assert (HsumG : 0 < Qsum (map fin_value (window period i G)))
    by (apply (Qsum_positive _ _ HG HinG); lra).
  (* the losses *)
  set (L := map fneg (where_neg (diff (close_series bars)))).
  assert (HL : Forall (fun x => x = Fin (- 0)) (window period i L)).
  { apply Forall_forall. intros x Hin.
    apply window_covers in Hin as (k & Hk1 & Hk2 & Hx).
    unfold L, where_neg in Hx. rewrite map_map, nth_error_map in Hx.
    destruct (nth_error (diff (close_series bars)) k) as [d |] eqn:Ed;
      [| discriminate].
    simpl in Hx. injection Hx as <-.
    destruct (nth_error_pred bars k d Ed) as [-> | (j & a & b & -> & Ha & Hb)].
    - rewrite (nth_error_diff_first bars d Ed). reflexivity.
    - rewrite (nth_error_diff_closes bars j a b Ha Hb) in Ed.
      injection Ed as <-. simpl.
      assert (Hle : close a <= close b) by (apply (Hup j a b); [lia | lia | assumption | assumption]).
      assert (E : Qltb (close b + - close a) 0 = false)
        by (apply Qltb_ge; lra).
      rewrite E. reflexivity. }
  destruct (Qsum_all_zero _ HL) as [HfL HsumL].
  destruct (Qsum_nonneg _ HG) as [HfG _].
  eexists _, _. split.
  { unfold Indicators.gain, rolling_mean. fold G.
    rewrite nth_error_map, nth_error_seq.
    assert (E : (i <? length G)%nat = true).
    { apply Nat.ltb_lt. unfold G, where_pos. rewrite length_map, Hlen.
      exact Hi. }
    rewrite E. simpl. rewrite Hge. unfold window_mean. rewrite HfG.
    unfold fdiv. rewrite Hnz. reflexivity. }
  split; [apply Qlt_shift_div_l; [exact Hw | lra] |]. split.
  { unfold Indicators.loss, rolling_mean. fold L.
    rewrite nth_error_map, nth_error_seq.
    assert (E : (i <? length L)%nat = true).
    { apply Nat.ltb_lt. unfold L, where_neg. rewrite !length_map, Hlen.
      exact Hi. }
    rewrite E. simpl. rewrite Hge. unfold window_mean. rewrite HfL.
    unfold fdiv. rewrite Hnz. reflexivity. }
  rewrite HsumL. unfold Qdiv. ring.
Qed.

End RsiOneSided.

Section RsiNeutral.
Import PyFloat Pandas StrategyEngine Props Ranges.

(** C9.  On a constant price series the rsi is [nan] on every bar and the
    rsi strategy returns normally with position 0 on every bar.  On any
    series, at a bar whose window is full, holds no fall and holds a rise
    (the average loss is zero, the average gain positive), the rsi is
    100; the rsi strategy returns a row for that bar, flat when the
    overbought threshold is below 100. *)
Theorem rsi_constant_series_is_neutral :
  forall (data : list OHLCV) (c : Q) (parameters : Parameters),
    Forall (fun r => close r == c) data ->
    (forall n,
        length (Indicators.rsi (close_series data) n) = length data /\
        Forall (fun x => x = NaN)
               (Indicators.rsi (close_series data) n)) /\
    (exists rows,
        generate_signals "rsi" parameters data = Ok rows /\
        length rows = length data /\
        Forall (fun r => position r = 0%Z) rows) /\
    (forall (bars : list OHLCV) (n i : nat),
        n = get (period parameters) 14%nat ->
        (1 <= n)%nat -> (n <= S i)%nat -> (i < length bars)%nat ->
        (forall j a b,
            (S i - n <= S j)%nat -> (S j <= i)%nat ->
            nth_error bars j = Some a -> nth_error bars (S j) = Some b ->
            close a <= close b) ->
        (exists j a b,
            (S i - n <= S j)%nat /\ (S j <= i)%nat /\
            nth_error bars j = Some a /\ nth_error bars (S j) = Some b /\
            close a < close b) ->
        exists g l r rows row,
          nth_error (Indicators.gain (close_series bars) n) i
            = Some (Fin g) /\
          0 < g /\
          nth_error (Indicators.loss (close_series bars) n) i
            = Some (Fin l) /\
          l == 0 /\
          nth_error (Indicators.rsi (close_series bars) n) i = Some r /\
          feq r (Fin 100) /\
          generate_signals "rsi" parameters bars = Ok rows /\
          nth_error rows i = Some row /\
          (get (overbought parameters) 70 < 100 -> position row = 0%Z)).
Proof.
  intros data c parameters Hconst.
  assert (Hs : Forall (fun x => exists q, x = Fin q /\ q == c)
                      (close_series data)).
  { unfold close_series. apply Forall_map.
    eapply Forall_impl; [| exact Hconst]. intros r Hr. eauto. }
  assert (Hlen : forall (bars : list OHLCV) n,
             length (Indicators.rsi (close_series bars) n) = length bars).
  { intros bars n. rewrite rsi_length. unfold close_series.
    apply length_map. }
  split; [| split].
  - intro n. split; [apply Hlen | apply rsi_constant with c, Hs].
  - eexists. split; [reflexivity |]. unfold _rsi_strategy. split.
    + apply with_signal_length. rewrite length_map. apply Hlen.
    + apply (with_signal_position data (fun p => p = 0%Z)), Forall_map.
      eapply Forall_impl; [| apply rsi_constant with c, Hs].
      intros x ->. reflexivity.
  - intros bars n i Hn Hn1 Hn2 Hi Hup Hrise.
    destruct (one_sided_window bars n i Hn1 Hn2 Hi Hup Hrise)
      as (g & l & Hg & Hgpos & Hl & Hl0).
    set (r := fsub (Fin 100)
                   (fdiv (Fin 100) (fadd (Fin 1) (fdiv (Fin g) (Fin l))))).
    assert (Hr : nth_error (Indicators.rsi (close_series bars) n) i = Some r).
    { unfold Indicators.rsi.
      apply (map_nth_error
               (fun rs => fsub (Fin 100)
                               (fdiv (Fin 100) (fadd (Fin 1) rs)))).
      apply (nth_error_map2 fdiv _ _ _ _ _ Hg Hl). }
    pose proof (rsi_of_zero_loss g l Hl0 Hgpos) as H100. fold r in H100.
    assert (Hpl : length (map (rsi_position (get (oversold parameters) 30)
                                            (get (overbought parameters) 70))
                              (Indicators.rsi (close_series bars) n))
                  = length bars)
      by (rewrite length_map; apply Hlen).
    destruct (with_signal_nth bars _ i Hpl Hi) as [row Hrow].
    exists g, l, r, (_rsi_strategy parameters bars), row.
    split; [exact Hg |]. split; [exact Hgpos |]. split; [exact Hl |].
    split; [exact Hl0 |]. split; [exact Hr |]. split; [exact H100 |].
    split; [reflexivity |].
    assert (Hrow' : nth_error (_rsi_strategy parameters bars) i = Some row)
      by (unfold _rsi_strategy; rewrite <- Hn; exact Hrow).
    split; [exact Hrow' |].
    intro Hob.
    apply with_signal_position_nth in Hrow; [| exact Hpl].
    rewrite (map_nth_error _ _ _ Hr) in Hrow. injection Hrow as <-.
    destruct r as [q | | |]; simpl in H100; try contradiction.
    unfold rsi_position, fgt. simpl.
    assert (E : Qltb (get (overbought parameters) 70) q = true)
      by (apply Qltb_lt; lra).
    rewrite E. reflexivity.
Qed.

End RsiNeutral.

Section RsiNeutralWitness.
Import PyFloat Pandas StrategyEngine Props Ranges Scenario Examples.

(** Four bars closing at 5; and four rising bars, period 2, third bar. *)
Lemma rsi_constant_series_is_neutral_witness :
  Forall (fun x => x = NaN)
         (Indicators.rsi (close_series (daily_bars [5; 5; 5; 5])) 14) /\
  (exists rows,
      generate_signals "rsi" rsi_2 (daily_bars [5; 5; 5; 5]) = Ok rows /\
      Forall (fun r => position r = 0%Z) rows) /\
  (exists r rows row,
      nth_error (Indicators.rsi (close_series rising_bars) 2) 2 = Some r /\
      feq r (Fin 100) /\
      generate_signals "rsi" rsi_2 rising_bars = Ok rows /\
      nth_error rows 2 = Some row /\ position row = 0%Z).
Proof.
  destruct (rsi_constant_series_is_neutral (daily_bars [5; 5; 5; 5]) 5 rsi_2)
    as (Hrsi & (rows & Hgen & _ & Hpos) & Hone).
  - repeat constructor.
  - split; [apply Hrsi |]. split; [exists rows; auto |].
    destruct (Hone rising_bars 2%nat 2%nat eq_refl)
      as (g & l & r & rows2 & row & _ & _ & _ & _ & Hr & H100 & Hrows
          & Hrow & Hflat); try (simpl; lia).
    + intros j a b Hj1 Hj2 Ha Hb.
      destruct j as [| [| j]]; [| | simpl in Hj2; lia];
        injection Ha as <-; injection Hb as <-; q_decide.
    + exists 0%nat. eexists _, _. split; [simpl; lia |].
      split; [lia |]. split; [reflexivity |]. split; [reflexivity |].
      q_decide.
    + exists r, rows2, row. split; [exact Hr |]. split; [exact H100 |].
      split; [exact Hrows |]. split; [exact Hrow |]. apply Hflat. q_decide.
Defined.

End RsiNeutralWitness.

(** ** The purchase on doubles *)

Section DoublePurchase.
Import PrimFloat StrategyEngine BacktestEngine.

(** C6.  The invariant fails on the doubles the code computes with.  On a
    bar with a buy signal closing at 1.56, with a capital of 15.6078, a
    position size of 1.0 and the default cost rate, the quotient
    [capital_to_use / cost_per_share] rounds up to 10.0, ten shares are
    bought, their cost rounds to more than the cash, and the bar ends, and
    is recorded, with cash = -2^-49; the same happens at a cost rate of 0
    with a capital of 1000.4 and a close of 100.04 (cash = -2^-43).  In
    exact arithmetic both purchases leave a cash of exactly 0. *)
Theorem purchase_overdraws_cash :
  (PrimFloat.ltb 0%float (Doubles.decimal 156078 10000) = true /\
   exists st,
     Doubles.buy Doubles.default_transaction_cost 1%float
                 (Doubles.initial_locals (Doubles.decimal 156078 10000))
                 (Doubles.decimal 156 100) 0
       = BacktestStrategy.Done st /\
     Doubles.shares st = 10%Z /\
     Doubles.cash st
       = PrimFloat.opp (PrimFloat.div 1%float (Doubles.of_int (2 ^ 49))) /\
     PrimFloat.ltb (Doubles.cash st) 0%float = true /\
     PrimFloat.ltb
       (Doubles.PortfolioValue.cash
          (Doubles.record_portfolio st (Doubles.decimal 156 100) 0)) 0%float
       = true) /\
  (PrimFloat.ltb 0%float (Doubles.decimal 10004 10) = true /\
   exists st,
     Doubles.buy 0%float 1%float (Doubles.initial_locals (Doubles.decimal 10004 10))
                 (Doubles.decimal 10004 100) 0
       = BacktestStrategy.Done st /\
     Doubles.shares st = 10%Z /\
     Doubles.cash st
       = PrimFloat.opp (PrimFloat.div 1%float (Doubles.of_int (2 ^ 43))) /\
     PrimFloat.ltb (Doubles.cash st) 0%float = true /\
     PrimFloat.ltb
       (Doubles.PortfolioValue.cash
          (Doubles.record_portfolio st (Doubles.decimal 10004 100) 0)) 0%float
       = true) /\
  (exists st,
     buy (init_transaction_cost TRANSACTION_COST_PERCENT_default) 1
         (initial_locals (156078 # 10000)) (156 # 100) 0 = Ok st /\
     shares st = 10%Z /\ cash st == 0) /\
  (exists st,
     buy 0 1 (initial_locals (10004 # 10)) (10004 # 100) 0 = Ok st /\
     shares st = 10%Z /\ cash st == 0).
Proof.
  split; [split; [vm_compute; reflexivity |] |].
  { eexists. split; [vm_compute; reflexivity |].
    repeat split; vm_compute; reflexivity. }
  split; [split; [vm_compute; reflexivity |] |].
  { eexists. split; [vm_compute; reflexivity |].
    repeat split; vm_compute; reflexivity. }
  split.
  - eexists. split; [vm_compute; reflexivity |].
    split; vm_compute; reflexivity.
  - eexists. split; [vm_compute; reflexivity |].
    split; vm_compute; reflexivity.
Qed.

(** X25.  The purchase of [backtest_strategy] overdraws in the same way:
    with a cash of 15.6078, a close of 1.56 and the default rate 0.0005 it
    buys ten shares and is left with cash = -2^-49. *)
Theorem strategy_purchase_overdraws_cash :
  PrimFloat.ltb 0%float (Doubles.decimal 156078 10000) = true /\
  exists cash,
    Doubles.strategy_buy (Doubles.decimal 5 10000)
                         (Doubles.decimal 156078 10000) 0
                         (Doubles.decimal 156 100)
      = BacktestStrategy.Done (cash, 10%Z) /\
    cash = PrimFloat.opp (PrimFloat.div 1%float (Doubles.of_int (2 ^ 49))) /\
    PrimFloat.ltb cash 0%float = true.
Proof.
  split; [vm_compute; reflexivity |].
  eexists. split; [vm_compute; reflexivity |].
  split; vm_compute; reflexivity.
Qed.

(** X26.  What the purchase raises.  A quotient that overflows is an
    infinity, and [int] of it is an [OverflowError], in both simulators (a
    capital of 1e308 on a close of 0.01).  A close of 0 is a
    [ZeroDivisionError] in [_simulate_trading], whose prices are Python
    floats, and an [OverflowError] in [backtest_strategy], whose prices
    are numpy floats. *)
Theorem purchase_raises_on_overflow :
  (forall current_time,
      Doubles.buy Doubles.default_transaction_cost (Doubles.decimal 95 100)
                  (Doubles.initial_locals (Doubles.of_int (10 ^ 308)))
                  (Doubles.decimal 1 100) current_time
        = BacktestStrategy.Raised BacktestStrategy.OverflowError) /\
  (forall shares,
      Doubles.strategy_buy (Doubles.decimal 5 10000)
                           (Doubles.of_int (10 ^ 308)) shares
                           (Doubles.decimal 1 100)
        = BacktestStrategy.Raised BacktestStrategy.OverflowError) /\
  (forall position_size st current_time,
      Doubles.buy Doubles.default_transaction_cost position_size st 0%float
                  current_time
        = BacktestStrategy.Raised (BacktestStrategy.Exn ZeroDivisionError)) /\
  (forall shares,
      Doubles.strategy_buy (Doubles.decimal 5 10000) 100000%float shares 0%float
        = BacktestStrategy.Raised BacktestStrategy.OverflowError).
Proof.
  split; [intro t; vm_compute; reflexivity |].
  split; [intro s; vm_compute; reflexivity |].
  split; [intros ps st t; vm_compute; reflexivity |].
  intro s. vm_compute. reflexivity.
Qed.

End DoublePurchase.

(** ** Spans that pandas refuses *)

Section SpanErrors.
Import PyFloat NumPy Pandas StrategyEngine BacktestEngine.

(** X24.  A macd strategy with a span below 1 is refused by pandas: once
    the strategy, the stock and some bars are found, [run_backtest] raises
    the [ValueError] of [ewm], whatever the capital. *)
Theorem macd_span_below_one_is_refused :
  forall (np_sqrt : fval -> fval) (db : DB) (transaction_cost : Q)
         (strategy_id : Z) (stock_symbol : string) (start_date end_date : Z)
         (initial_capital : Q) (strategy : Strategy) (stock_id : Z),
    query_strategy db strategy_id = Some strategy ->
    query_stock db stock_symbol = Some stock_id ->
    query_ohlcv db stock_id start_date end_date <> [] ->
    strategy_type strategy = "macd"%string ->
    (get (fast (parameters strategy)) 12 < 1 \/
     get (slow (parameters strategy)) 26 < 1 \/
     get (signal_period (parameters strategy)) 9 < 1)%nat ->
    run_backtest np_sqrt db transaction_cost strategy_id stock_symbol
                 start_date end_date initial_capital
      = Raise (ValueError "span must satisfy: span >= 1").
Proof.
  intros np_sqrt db tc strategy_id stock_symbol start_date end_date capital
         strategy stock_id Hs Hk Hne Hty Hspan.
  unfold run_backtest. rewrite Hs, Hk.
  destruct (query_ohlcv db stock_id start_date end_date) as [| bar bars];
    [congruence |].
  cbn [nonempty negb]. unfold generate_signals. rewrite Hty.
  cbn [String.eqb Ascii.eqb Bool.eqb]. unfold _macd_strategy.
  rewrite (macd_span_below_1 _ _ _ _ Hspan). reflexivity.
Qed.

End SpanErrors.

Section SpanErrorsWitness.
Import StrategyEngine BacktestEngine Scenario Examples.

(** A fast span of 0 on three bars. *)
Lemma macd_span_below_one_is_refused_witness :
  run_backtest approx_sqrt macd_fast_0_db (5 # 10000) 1 "TEST.NS" 0 172800
               1000
    = Raise (ValueError "span must satisfy: span >= 1").
Proof.
  apply (macd_span_below_one_is_refused approx_sqrt macd_fast_0_db
           (5 # 10000) 1%Z "TEST.NS"%string 0%Z 172800%Z 1000
           macd_fast_0 7%Z).
  - reflexivity.
  - reflexivity.
  - vm_compute. discriminate.
  - reflexivity.
  - left. simpl. lia.
Defined.

End SpanErrorsWitness.
